(** * Provider adapter and orchestration layer of swarmauri

    A shallow embedding of the adapter logic of
    [swarmauri/llms/base/LLMBase.py] and of
    [swarmauri/llms/concrete/{GroqToolModel,CohereModel,FalAIImgGenModel}.py]:
    construction-time validation, the tool-call loop, the stream
    aggregators, the usage accountant, the job poller and the bounded
    batch scheduler.

    Python values that come off the wire are kept as JSON values and are
    taken apart with the operations the code uses on them (subscripting,
    [in], [.get], truthiness, iteration), each with the exception Python
    raises when the value does not have the expected shape.  Code that
    mutates a conversation or performs I/O is written in a small monad
    that threads a state, records what is yielded, and stops at the first
    exception while keeping the state reached so far. *)

From Stdlib Require Import ZArith Floats.
From stdpp Require Import base strings list gmap pretty.

Open Scope string_scope.
Open Scope Z_scope.
Open Scope list_scope.

Set Warnings "-register-all".

(** ** Python values and exceptions *)

Module Py.

(** Values produced by [json.loads] / [response.json()]: a dict keeps
    its insertion order, so it is an association list (the first
    binding of a key is the one a lookup sees). *)
Inductive json : Type :=
| JNull
| JBool (b : bool)
| JInt (n : Z)
| JFloat (f : float)
| JStr (s : string)
| JList (l : list json)
| JDict (d : list (string * json)).

(** The exceptions the modelled code can raise.  [ValidationError] is
    pydantic's (a subclass of [ValueError]); [ToolNotFound] is the
    failure of a toolkit lookup.  [Forever] is no exception: it stands
    for a call that never returns; like an exception it ends the run where
    it occurs, and no handler catches it. *)
Inductive exn : Type :=
| KeyError (key : string)
| IndexError
| TypeError
| AttributeError
| JSONDecodeError (doc : string)
| ValueError (msg : string)
| ValidationError (msg : string)
| RuntimeError (msg : string) (data : json)
| TimeoutError (msg : string)
| HTTPError (detail : string)
| ToolNotFound (name : json)
| OverflowError
| Forever.

Definition Result (A : Type) : Type := exn + A.

Definition ok {A} (a : A) : Result A := inr a.
Definition err {A} (e : exn) : Result A := inl e.

Definition rbind {A B} (r : Result A) (k : A -> Result B) : Result B :=
  match r with
  | inl e => inl e
  | inr a => k a
  end.

Fixpoint dict_lookup (k : string) (d : list (string * json)) : option json :=
  match d with
  | [] => None
  | (k', v) :: d' => if String.eqb k k' then Some v else dict_lookup k d'
  end.

(** [v[k]] with a string key. *)
Definition getitem (v : json) (k : string) : Result json :=
  match v with
  | JDict d =>
      match dict_lookup k d with
      | Some x => ok x
      | None => err (KeyError k)
      end
  | _ => err TypeError
  end.

Fixpoint chars (s : string) : list json :=
  match s with
  | EmptyString => []
  | String c s' => JStr (String c EmptyString) :: chars s'
  end.

(** [v[0]]. *)
Definition getitem0 (v : json) : Result json :=
  match v with
  | JList (x :: _) => ok x
  | JList [] => err IndexError
  | JStr s =>
      match chars s with
      | c :: _ => ok c
      | [] => err IndexError
      end
  | JDict _ => err (KeyError "0")
  | _ => err TypeError
  end.

Definition is_str_eq (k : string) (v : json) : bool :=
  match v with
  | JStr s => String.eqb k s
  | _ => false
  end.

(** [k in v] for a non-empty string [k]. *)
Definition contains (k : string) (v : json) : Result bool :=
  match v with
  | JDict d => ok (bool_decide (is_Some (dict_lookup k d)))
  | JList l => ok (existsb (is_str_eq k) l)
  | JStr s => ok (bool_decide (is_Some (String.index 0 k s)))
  | _ => err TypeError
  end.

(** [v.get(k, default)]: only a dict has the method. *)
Definition get (v : json) (k : string) (default : json) : Result json :=
  match v with
  | JDict d =>
      match dict_lookup k d with
      | Some x => ok x
      | None => ok default
      end
  | _ => err AttributeError
  end.

(** Truth value of a JSON value in a condition. *)
Definition truthy (v : json) : bool :=
  match v with
  | JNull => false
  | JBool b => b
  | JInt n => negb (n =? 0)
  | JFloat f => negb (PrimFloat.eqb f 0%float)
  | JStr s => negb (String.eqb s "")
  | JList l => negb (bool_decide (l = []))
  | JDict d => negb (bool_decide (d = []))
  end.

(** The elements a [for] loop over the value visits. *)
Definition iter (v : json) : Result (list json) :=
  match v with
  | JList l => ok l
  | JDict d => ok (map (fun kv => JStr (fst kv)) d)
  | JStr s => ok (chars s)
  | _ => err TypeError
  end.

(** [float(n)] for an integer: the nearest binary64 number, ties to
    even; an integer beyond the range is an [OverflowError]. *)
Definition float_of_int (n : Z) : Result float :=
  let f := SF2Prim (binary_normalize prec emax n 0 false) in
  if PrimFloat.is_infinity f
  then err OverflowError
  else ok f.

(** A value as a Python number: a boolean is the integer 0 or 1. *)
Definition number (v : json) : option (Z + float) :=
  match v with
  | JInt n => Some (inl n)
  | JBool b => Some (inl (if b then 1 else 0))
  | JFloat f => Some (inr f)
  | _ => None
  end.

(** [a + b]: numbers are added, an integer becoming a float beside a
    float; texts and lists are concatenated; anything else is a
    [TypeError]. *)
Definition add (a b : json) : Result json :=
  match number a, number b with
  | Some (inl x), Some (inl y) => ok (JInt (x + y))
  | Some (inl x), Some (inr g) =>
      match float_of_int x with
      | inl e => inl e
      | inr f => ok (JFloat (f + g))
      end
  | Some (inr f), Some (inl y) =>
      match float_of_int y with
      | inl e => inl e
      | inr g => ok (JFloat (f + g))
      end
  | Some (inr f), Some (inr g) => ok (JFloat (f + g))
  | _, _ =>
      match a, b with
      | JStr x, JStr y => ok (JStr (x +:+ y))
      | JList x, JList y => ok (JList (x ++ y))
      | _, _ => err TypeError
      end
  end.

End Py.
Export Py.

Global Instance result_ret : MRet Result := @ok.
Global Instance result_bind : MBind Result := fun A B k r => rbind r k.

(** ** Messages and conversations *)

(** The usage record attached to an assistant message
    ([swarmauri.messages.concrete.AgentMessage.UsageData]). *)
Record UsageData : Type := mkUsageData {
  prompt_tokens : Z;
  completion_tokens : Z;
  total_tokens : Z;
  prompt_time : float;
  completion_time : float;
  total_time : float
}.

(** Modelled from the spec: the message classes of [swarmauri.messages]
    are not among the sources.  A message has a role, a text content
    (absent when the backend sent [null]), an optional name, an optional
    tool-call id and an optional usage record. *)
Record Message : Type := mkMessage {
  role : string;
  content : option string;
  name : option string;
  tool_call_id : option string;
  usage : option UsageData
}.

(** Modelled from the spec: [AgentMessage(content=c, usage=u)], the
    assistant message; its content is text or [None]. *)
Definition AgentMessage (c : json) (u : option UsageData) : Result Message :=
  match c with
  | JStr s => ok (mkMessage "assistant" (Some s) None None u)
  | JNull => ok (mkMessage "assistant" None None None u)
  | _ => err (ValidationError "content")
  end.

(** Modelled from the spec: [FunctionMessage(content=c, name=n,
    tool_call_id=i)], the tool message; all three fields are text. *)
Definition FunctionMessage (c : string) (n i : json) : Result Message :=
  match n, i with
  | JStr n', JStr i' => ok (mkMessage "tool" (Some c) (Some n') (Some i') None)
  | JStr _, _ => err (ValidationError "tool_call_id")
  | _, _ => err (ValidationError "name")
  end.

Definition field (k : string) (v : option string) : list (string * json) :=
  match v with
  | Some s => [(k, JStr s)]
  | None => []
  end.

(** [message.model_dump(include=[content, role, name, tool_call_id,
    tool_calls], exclude_none=True)]: the listed properties that are not
    [None]. *)
Definition model_dump (m : Message) : json :=
  JDict (field "content" (content m)
         ++ [("role", JStr (role m))]
         ++ field "name" (name m)
         ++ field "tool_call_id" (tool_call_id m)).

(** Modelled from the spec: a conversation is the ordered sequence of its
    messages; [add_message] appends at the end. *)
Record Conversation : Type := mkConversation { history : list Message }.

Definition add_message_to (m : Message) (c : Conversation) : Conversation :=
  mkConversation (history c ++ [m]).

(** ** Effects: state, yielded values, exceptions *)

(** What a run leaves behind: the value or the exception that ended it,
    the state at that point (an exception does not undo earlier
    writes), and the values yielded to the consumer, in order. *)
Record Outcome (St W A : Type) : Type := mkOutcome {
  result : Result A;
  final : St;
  yielded : list W
}.
Arguments mkOutcome {St W A} _ _ _.
Arguments result {St W A} _.
Arguments final {St W A} _.
Arguments yielded {St W A} _.

Definition M (St W A : Type) : Type := St -> Outcome St W A.

Definition ret {St W A} (a : A) : M St W A :=
  fun s => mkOutcome (ok a) s [].

Definition bind {St W A B} (c : M St W A) (k : A -> M St W B) : M St W B :=
  fun s =>
    let o := c s in
    match result o with
    | inl e => mkOutcome (inl e) (final o) (yielded o)
    | inr a =>
        let o' := k a (final o) in
        mkOutcome (result o') (final o') (yielded o ++ yielded o')
    end.

Definition raise {St W A} (e : exn) : M St W A :=
  fun s => mkOutcome (err e) s [].

(** A pure computation that may raise. *)
Definition lift {St W A} (r : Result A) : M St W A :=
  fun s => mkOutcome r s [].

Definition read {St W} : M St W St :=
  fun s => mkOutcome (ok s) s [].

Definition modify {St W} (f : St -> St) : M St W unit :=
  fun s => mkOutcome (ok tt) (f s) [].

(** [yield w] inside a generator. *)
Definition yield {St W} (w : W) : M St W unit :=
  fun s => mkOutcome (ok tt) s [w].

(** [try: c  except <caught>: h]. *)
Definition try_except {St W A} (c : M St W A) (caught : exn -> bool) (h : M St W A) : M St W A :=
  fun s =>
    let o := c s in
    match result o with
    | inl e =>
        if caught e then
          let o' := h (final o) in
          mkOutcome (result o') (final o') (yielded o ++ yielded o')
        else o
    | inr _ => o
    end.

(** [for x in l: body x]. *)
Fixpoint for_each {St W X} (l : list X) (body : X -> M St W unit) : M St W unit :=
  match l with
  | [] => ret tt
  | x :: l' => bind (body x) (fun _ => for_each l' body)
  end.

Notation "x <- c ;; k" := (bind c (fun x => k))
  (at level 100, c at next level, right associativity).
Notation "c ;;; k" := (bind c (fun _ => k))
  (at level 100, right associativity).

Definition conversation_add_message {W} (m : Message) : M Conversation W unit :=
  modify (add_message_to m).

(** ** The transport and the clock *)

(** What the backend answers to a POST of a JSON body to a URL: the decoded
    body of a successful response, or the exception raised by the request,
    by [raise_for_status] or by the decoding.  [post_stream] is a request
    whose response is read line by line. *)
Record Network : Type := mkNetwork {
  post : string -> list (string * string) -> json -> Result json;
  post_stream : string -> list (string * string) -> json -> Result (list string)
}.

(** The durations measured by the two [DurationManager] blocks of a call. *)
Record Durations : Type := mkDurations {
  prompt_duration : float;
  completion_duration : float
}.

Definition opt_json (s : option string) : json :=
  match s with
  | Some x => JStr x
  | None => JNull
  end.

(** [sep.join(l)] with the empty separator: every element must be text. *)
Fixpoint str_join (l : list json) : Result string :=
  match l with
  | [] => ok ""
  | JStr s :: l' => rest ← str_join l'; ok (s +:+ rest)
  | _ :: _ => err TypeError
  end.

(** Modelled from the spec: the class [UsageData] is not among the
    sources.  Its three token fields are integers: an integer is taken as
    it is, and any other value goes through pydantic's conversion, which
    is left to [lax_int]; a value that it refuses is a
    [ValidationError]. *)
Definition int_field (lax_int : json -> option Z) (v : json) : Result Z :=
  match v with
  | JInt n => ok n
  | _ =>
      match lax_int v with
      | Some n => ok n
      | None => err (ValidationError "UsageData")
      end
  end.

(** ** Tools *)

(** A tool is called with keyword arguments and returns a JSON value or
    raises. *)
Record Tool : Type := mkTool {
  tool_name : string;
  call : list (string * json) -> Result json
}.

(** Modelled from the spec: the class [Toolkit] is not among the
    sources.  Its [tools] is a dict from names to tools, which keeps the
    order of registration, so an association list (the first binding of a
    name is the one a lookup sees); a toolkit without tools is falsy. *)
Record Toolkit : Type := mkToolkit { tools : list (string * Tool) }.

Fixpoint tool_lookup (n : string) (d : list (string * Tool)) : option Tool :=
  match d with
  | [] => None
  | (n', tool) :: d' => if String.eqb n n' then Some tool else tool_lookup n d'
  end.

Global Instance tools_lookup : Lookup string Tool (list (string * Tool)) := tool_lookup.

(** The truth value of the [toolkit] argument: [None] and a toolkit
    without tools are falsy. *)
Definition toolkit_truthy (toolkit : option Toolkit) : bool :=
  match toolkit with
  | Some tk => negb (bool_decide (tools tk = []))
  | None => false
  end.

(** Modelled from the spec: [Toolkit.get_tool_by_name] is not among the
    sources.  A toolkit maps names to tools; looking up a name that is
    not registered fails with [ToolNotFound]. *)
Definition get_tool_by_name (toolkit : Toolkit) (tool_name : json) : Result Tool :=
  match tool_name with
  | JStr n =>
      match tools toolkit !! n with
      | Some tool => ok tool
      | None => err (ToolNotFound tool_name)
      end
  | _ => err (ToolNotFound tool_name)
  end.

(** [json.loads(v)]: the argument must be text. *)
Definition loads (json_loads : string -> Result json) (v : json) : Result json :=
  match v with
  | JStr s => json_loads s
  | _ => err TypeError
  end.

(** [tool( **kwargs)]: the keyword arguments must be a mapping. *)
Definition invoke (tool : Tool) (kwargs : json) : Result json :=
  match kwargs with
  | JDict d => call tool d
  | _ => err TypeError
  end.

Fixpoint replace_fuel (fuel : nat) (old new s : string) : string :=
  match fuel with
  | O => s
  | S fuel' =>
      match s with
      | EmptyString => EmptyString
      | String c s' =>
          if String.prefix old s then
            new +:+ replace_fuel fuel' old new
                      (String.substring (String.length old)
                         (String.length s - String.length old) s)
          else String c (replace_fuel fuel' old new s')
      end
  end.

(** [s.replace(old, new)] for a non-empty [old]. *)
Definition str_replace (old new s : string) : string :=
  replace_fuel (String.length s) old new s.

(** ** Cooperative tasks behind a semaphore *)

(** The event loop of one [abatch] call.  Each item is a coroutine
    [async with semaphore: return await self.apredict(conv, ...)], and
    [asyncio.gather] collects the results by position.  A coroutine
    gives control back to the loop at two places only: while it waits for
    the semaphore, and while its request is in flight; so a task is
    [Pending] (created, or blocked on the semaphore), [InFlight] (inside
    [apredict], holding a slot, its request sent) or [Done].  The
    conversations are objects in a heap and the items are references to
    them, as the list elements are in Python.

    The model is over the three parts of [apredict]: the request body
    computed from the conversation when the call starts, the reply of the
    network to the request of item [i], and what the call does with the
    reply.  A schedule is the list of the loop's choices; [exec] refuses
    a choice that is not enabled, so every accepted schedule is an
    interleaving, and the real loop's (first come, first served) are
    among them. *)
Module Asyncio.

Abbreviation loc := nat.
Abbreviation Heap := (gmap nat Conversation).

Inductive task_state : Type :=
| Pending
| InFlight (payload : json)
| Done (r : Result loc).

Inductive choice : Type :=
| Acquire (i : nat)
| Complete (i : nat).

Record sched : Type := mkSched {
  sem_value : Z;
  tasks : list task_state;
  heap : Heap;
  failure : option exn
}.

Global Instance conversation_inhabited : Inhabited Conversation :=
  populate (mkConversation []).

Definition is_in_flight (t : task_state) : bool :=
  match t with
  | InFlight _ => true
  | _ => false
  end.

Definition is_done (t : task_state) : bool :=
  match t with
  | Done _ => true
  | _ => false
  end.

(** The number of [apredict] calls that have started and not finished. *)
Definition in_flight (s : sched) : nat :=
  length (List.filter is_in_flight (tasks s)).

Definition all_done (s : sched) : bool := forallb is_done (tasks s).

Section Loop.
Context {W : Type}.
Variable request : Conversation -> json.
Variable send : nat -> json -> Result json.
Variable finish : nat -> json -> M Conversation W unit.

(** [apredict] on item [i], run without interruption. *)
Definition apredict_item (i : nat) : M Conversation W unit :=
  conversation <- read ;;
  data <- lift (send i (request conversation)) ;;
  finish i data.

(** [asyncio.Semaphore(max_concurrent)] refuses a negative value; the
    tasks are created in the order of the list. *)
Definition start (max_concurrent : Z) (conversations : list loc) (h : Heap)
    : Result sched :=
  if max_concurrent <? 0 then
    err (ValueError "Semaphore initial value must be >= 0")
  else
    ok (mkSched max_concurrent (replicate (length conversations) Pending) h None).

(** One choice of the loop.  [Acquire i]: item [i] enters the
    [async with] block, which needs a free slot, and runs [apredict] up
    to its request.  [Complete i]: the reply of item [i] arrives, the
    rest of [apredict] runs on the conversation, and the block is left,
    which releases the slot on a normal return and on an exception alike;
    the first exception is the one [gather] propagates. *)
Definition exec (conversations : list loc) (c : choice) (s : sched) : option sched :=
  match c with
  | Acquire i =>
      match tasks s !! i, conversations !! i with
      | Some Pending, Some l =>
          if 0 <? sem_value s then
            Some (mkSched (sem_value s - 1)
                    (<[i := InFlight (request (heap s !!! l))]> (tasks s))
                    (heap s) (failure s))
          else None
      | _, _ => None
      end
  | Complete i =>
      match tasks s !! i, conversations !! i with
      | Some (InFlight payload), Some l =>
          let o := (data <- lift (send i payload) ;; finish i data) (heap s !!! l) in
          let r := match result o with
                   | inl e => inl e
                   | inr _ => inr l
                   end in
          Some (mkSched (sem_value s + 1)
                  (<[i := Done r]> (tasks s))
                  (<[l := final o]> (heap s))
                  (match failure s, result o with
                   | None, inl e => Some e
                   | f, _ => f
                   end))
      | _, _ => None
      end
  end.

Fixpoint run (conversations : list loc) (schedule : list choice) (s : sched)
    : option sched :=
  match schedule with
  | [] => Some s
  | c :: schedule' =>
      match exec conversations c s with
      | Some s' => run conversations schedule' s'
      | None => None
      end
  end.

Fixpoint values (ts : list task_state) : option (list loc) :=
  match ts with
  | [] => Some []
  | Done (inr l) :: ts' =>
      match values ts' with
      | Some ls => Some (l :: ls)
      | None => None
      end
  | _ :: _ => None
  end.

(** What [await asyncio.gather( *tasks)] gives in a state of the loop: the
    first exception as soon as there is one, the list of the results in
    the order of the tasks once all are done, nothing before. *)
Definition gathered (s : sched) : option (Result (list loc)) :=
  match failure s with
  | Some e => Some (err e)
  | None =>
      match values (tasks s) with
      | Some ls => Some (ok ls)
      | None => None
      end
  end.

End Loop.

End Asyncio.

(** ** List comprehensions *)

(** [[f(x) for x in l]], where [f i x] is the evaluation for the element
    at place [i] of the whole list and the places of [l] are counted from
    [i]: the elements are evaluated from left to right, and an exception
    ends the comprehension. *)
Fixpoint comprehension {St W X A} (f : nat -> X -> M St W A) (i : nat) (l : list X)
    : M St W (list A) :=
  match l with
  | [] => ret []
  | x :: l' =>
      a <- f i x ;;
      rest <- comprehension f (S i) l' ;;
      ret (a :: rest)
  end.

(** A call on the conversation object behind a reference: the object is
    updated in place, whether the call returns or raises, and the call
    returns the reference it was given. *)
Definition on_object {W} (l : nat) (c : M Conversation W unit)
    : M (gmap nat Conversation) W nat :=
  fun h =>
    let o := c (h !!! l) in
    mkOutcome (match result o with
               | inl e => inl e
               | inr _ => inr l
               end)
      (<[l := final o]> h) (yielded o).

(** ** Construction of the adapters *)

(** [repr] of a list of strings, as an f-string renders it. *)
Definition list_repr (l : list string) : string :=
  "[" +:+ String.concat ", " (map (fun s => "'" +:+ s +:+ "'") l) +:+ "]".

(** A truthy optional string: neither [None] nor empty. *)
Definition str_truthy (s : option string) : bool :=
  match s with
  | Some s' => negb (String.eqb s' "")
  | None => false
  end.

(** pydantic reports a [ValueError] raised by a validator as a
    [ValidationError]. *)
Definition in_validator {A} (r : Result A) : Result A :=
  match r with
  | inl (ValueError msg) => err (ValidationError msg)
  | _ => r
  end.

(** A field declared without a default must be supplied. *)
Definition required_field {A} (field : string) (v : option A) : Result A :=
  match v with
  | Some a => ok a
  | None => err (ValidationError (field +:+ ": Field required"))
  end.

Module LLMBase.

(** [LLMBase._validate_name_in_allowed_models], run by pydantic after the
    fields are set: only a truthy [name] is checked. *)
Definition _validate_name_in_allowed_models
    (name : option string) (allowed_models : list string) : Result unit :=
  match name with
  | Some n =>
      if str_truthy name && negb (bool_decide (n ∈ allowed_models)) then
        err (ValueError ("Model name " +:+ n +:+ " is not allowed. Choose from "
                         +:+ list_repr allowed_models))
      else ok tt
  | None => ok tt
  end.

End LLMBase.

Module GroqToolModel.

Record t : Type := mk {
  api_key : string;
  allowed_models : list string;
  name : string;
  _headers : list (string * string);
  _api_url : string
}.

(** The keyword arguments of the constructor; [None] is an argument that
    was not passed. *)
Record init_data : Type := mk_data {
  data_api_key : option string;
  data_allowed_models : option (list string);
  data_name : option string
}.

Definition default_allowed_models : list string :=
  [ "llama3-8b-8192";
    "llama3-70b-8192";
    "llama3-groq-70b-8192-tool-use-preview";
    "llama3-groq-8b-8192-tool-use-preview";
    "llama-3.1-70b-versatile";
    "llama-3.1-8b-instant" ].

Definition default_name : string := "llama3-groq-70b-8192-tool-use-preview".

(** [GroqToolModel.__init__]: the call to the parent constructor validates
    the fields ([api_key: str] has no default) and runs the [LLMBase]
    validator; the headers are set afterwards. *)
Definition __init__ (data : init_data) : Result t :=
  key ← required_field "api_key" (data_api_key data);
  let allowed := default default_allowed_models (data_allowed_models data) in
  let nm := default default_name (data_name data) in
  _ ← in_validator (LLMBase._validate_name_in_allowed_models (Some nm) allowed);
  ok (mk key allowed nm
        [("Content-Type", "application/json"); ("Authorization", "Bearer " +:+ key)]
        "https://api.groq.com/openai/v1/chat/completions").

(** [GroqToolModel._schema_convert_tools], over the schema converter:
    one schema per name of the dict, in the order of the dict. *)
Definition _schema_convert_tools (convert : Tool -> json)
    (tools : list (string * Tool)) : list json :=
  omap (fun kv => convert <$> tools !! fst kv) tools.

(** [GroqToolModel._format_messages]. *)
Definition _format_messages (messages : list Message) : list json :=
  map model_dump messages.

(** The request body of [predict] and [apredict]. *)
Definition payload_of (convert : Tool -> json) (self : t)
    (toolkit : option Toolkit) (tool_choice : option string)
    (temperature : float) (max_tokens : Z) (conversation : Conversation) : json :=
  let formatted_messages := _format_messages (history conversation) in
  let tool_choice :=
    if toolkit_truthy toolkit && negb (str_truthy tool_choice)
    then Some "auto" else tool_choice in
  JDict [("model", JStr (name self));
         ("messages", JList formatted_messages);
         ("temperature", JFloat temperature);
         ("max_tokens", JInt max_tokens);
         ("tools", JList match toolkit with
                         | Some tk =>
                             if toolkit_truthy toolkit
                             then _schema_convert_tools convert (tools tk) else []
                         | None => []
                         end);
         ("tool_choice", opt_json tool_choice)].

(** The body of the loop over [tool_calls]: look the tool up, parse the
    arguments, call it, and append the function message. *)
Definition call_tool {W} (json_loads : string -> Result json)
    (json_dumps : json -> string) (toolkit : option Toolkit) (tool_call : json)
    : M Conversation W unit :=
  fn <- lift (getitem tool_call "function") ;;
  func_name <- lift (getitem fn "name") ;;
  func_call <- lift (match toolkit with
                     | Some tk => get_tool_by_name tk func_name
                     | None => err AttributeError
                     end) ;;
  arguments <- lift (getitem fn "arguments") ;;
  func_args <- lift (loads json_loads arguments) ;;
  func_result <- lift (invoke func_call func_args) ;;
  id <- lift (getitem tool_call "id") ;;
  func_message <- lift (FunctionMessage (json_dumps func_result) func_name id) ;;
  conversation_add_message func_message.

(** What [predict], [apredict] and [stream] do with the decoded response:
    append the assistant message when the message object has a
    [content] key, then run the tool calls in order. *)
Definition process_response {W} (json_loads : string -> Result json)
    (json_dumps : json -> string) (toolkit : option Toolkit) (tool_response : json)
    : M Conversation W unit :=
  choices <- lift (getitem tool_response "choices") ;;
  choice <- lift (getitem0 choices) ;;
  msg <- lift (getitem choice "message") ;;
  has_content <- lift (contains "content" msg) ;;
  (if has_content then
     c <- lift (getitem msg "content") ;;
     agent_message <- lift (AgentMessage c None) ;;
     conversation_add_message agent_message
   else ret tt) ;;;
  tool_calls <- lift (get msg "tool_calls" (JList [])) ;;
  if truthy tool_calls then
    l <- lift (iter tool_calls) ;;
    for_each l (call_tool json_loads json_dumps toolkit)
  else ret tt.

(** [GroqToolModel.predict]; the final state is the returned conversation. *)
Definition predict {W} (json_loads : string -> Result json)
    (json_dumps : json -> string) (convert : Tool -> json)
    (self : t) (net : Network)
    (toolkit : option Toolkit) (tool_choice : option string)
    (temperature : float) (max_tokens : Z) : M Conversation W unit :=
  conversation <- read ;;
  tool_response <- lift (post net (_api_url self) (_headers self)
                           (payload_of convert self toolkit tool_choice
                              temperature max_tokens conversation)) ;;
  process_response json_loads json_dumps toolkit tool_response.

(** [GroqToolModel.apredict]: the same steps, suspended while the request
    is in flight. *)
Definition apredict {W} (json_loads : string -> Result json)
    (json_dumps : json -> string) (convert : Tool -> json)
    (self : t) (net : Network)
    (toolkit : option Toolkit) (tool_choice : option string)
    (temperature : float) (max_tokens : Z) : M Conversation W unit :=
  predict json_loads json_dumps convert self net toolkit tool_choice
    temperature max_tokens.

Definition is_JSONDecodeError (e : exn) : bool :=
  match e with
  | JSONDecodeError _ => true
  | _ => false
  end.

(** [message_content += delta]. *)
Definition str_add (s : string) (delta : json) : Result string :=
  match delta with
  | JStr d => ok (s +:+ d)
  | _ => err TypeError
  end.

(** The body of the [try] of [stream] for one line, returning the new
    value of [message_content]. *)
Definition stream_chunk (json_loads : string -> Result json)
    (json_str : string) (message_content : string)
    : M Conversation json string :=
  if negb (String.eqb json_str "") then
    chunk <- lift (json_loads json_str) ;;
    choices <- lift (getitem chunk "choices") ;;
    choice <- lift (getitem0 choices) ;;
    d <- lift (getitem choice "delta") ;;
    if truthy d then
      delta <- lift (getitem d "content") ;;
      message_content' <- lift (str_add message_content delta) ;;
      yield delta ;;;
      ret message_content'
    else ret message_content
  else ret message_content.

(** The loop of [stream] over the lines of the second response: a line
    that [json.loads] rejects is passed over by the handler. *)
Fixpoint stream_lines (json_loads : string -> Result json) (lines : list string)
    (message_content : string) : M Conversation json string :=
  match lines with
  | [] => ret message_content
  | line :: rest =>
      let json_str := str_replace "data: " "" line in
      message_content' <-
        try_except (stream_chunk json_loads json_str message_content)
          is_JSONDecodeError (ret message_content) ;;
      stream_lines json_loads rest message_content'
  end.

Fixpoint dict_pop (k : string) (d : list (string * json)) : list (string * json) :=
  match d with
  | [] => []
  | (k', v) :: d' => if String.eqb k k' then dict_pop k d' else (k', v) :: dict_pop k d'
  end.

(** [d[k] = v] on a dict: an existing key keeps its place. *)
Fixpoint dict_set (k : string) (v : json) (d : list (string * json)) : list (string * json) :=
  match d with
  | [] => [(k, v)]
  | (k', v') :: d' => if String.eqb k k' then (k, v) :: d' else (k', v') :: dict_set k v d'
  end.

(** The two request bodies of [stream]: the first asks for tool calls,
    the second, built after the tool loop, asks for the streamed answer. *)
Definition first_request (convert : Tool -> json) (self : t)
    (toolkit : option Toolkit) (tool_choice : option string)
    (temperature : float) (max_tokens : Z) (conversation : Conversation)
    : list (string * json) :=
  [("model", JStr (name self));
   ("messages", JList (_format_messages (history conversation)));
   ("temperature", JFloat temperature);
   ("max_tokens", JInt max_tokens);
   ("tools", JList match toolkit with
                   | Some tk =>
                       if toolkit_truthy toolkit
                       then _schema_convert_tools convert (tools tk) else []
                   | None => []
                   end);
   ("tool_choice", JStr (if str_truthy tool_choice
                         then default "auto" tool_choice else "auto"))].

Definition second_request (request_data : list (string * json))
    (conversation : Conversation) : list (string * json) :=
  dict_pop "tool_choice"
    (dict_pop "tools"
       (dict_set "stream" (JBool true)
          (dict_set "messages" (JList (_format_messages (history conversation)))
             request_data))).

(** [GroqToolModel.stream], run until the generator is exhausted. *)
Definition stream (json_loads : string -> Result json)
    (json_dumps : json -> string) (convert : Tool -> json)
    (self : t) (net : Network)
    (toolkit : option Toolkit) (tool_choice : option string)
    (temperature : float) (max_tokens : Z) : M Conversation json unit :=
  conversation <- read ;;
  let request_data :=
    first_request convert self toolkit tool_choice temperature max_tokens
      conversation in
  tool_response <- lift (post net (_api_url self) (_headers self) (JDict request_data)) ;;
  process_response json_loads json_dumps toolkit tool_response ;;;
  conversation' <- read ;;
  lines <- lift (post_stream net (_api_url self) (_headers self)
                   (JDict (second_request request_data conversation'))) ;;
  message_content <- stream_lines json_loads lines "" ;;
  m <- lift (AgentMessage (JStr message_content) None) ;;
  conversation_add_message m.

(** [GroqToolModel.abatch], as the loop of its tasks. *)
Definition abatch_start (max_concurrent : Z) (conversations : list nat)
    (h : gmap nat Conversation) : Result Asyncio.sched :=
  Asyncio.start max_concurrent conversations h.

Definition abatch_exec {W} (json_loads : string -> Result json)
    (json_dumps : json -> string) (convert : Tool -> json)
    (self : t) (net : nat -> Network)
    (toolkit : option Toolkit) (tool_choice : option string)
    (temperature : float) (max_tokens : Z)
    : list nat -> Asyncio.choice -> Asyncio.sched -> option Asyncio.sched :=
  Asyncio.exec (W := W)
    (payload_of convert self toolkit tool_choice temperature max_tokens)
    (fun i => post (net i) (_api_url self) (_headers self))
    (fun _ => process_response json_loads json_dumps toolkit).

Definition abatch_run {W} (json_loads : string -> Result json)
    (json_dumps : json -> string) (convert : Tool -> json)
    (self : t) (net : nat -> Network)
    (toolkit : option Toolkit) (tool_choice : option string)
    (temperature : float) (max_tokens : Z)
    : list nat -> list Asyncio.choice -> Asyncio.sched -> option Asyncio.sched :=
  Asyncio.run (W := W)
    (payload_of convert self toolkit tool_choice temperature max_tokens)
    (fun i => post (net i) (_api_url self) (_headers self))
    (fun _ => process_response json_loads json_dumps toolkit).

(** [GroqToolModel.batch]: [predict] on each conversation of the list in
    turn, after the default of [tool_choice]; the list holds references to
    the conversation objects, and [net i] is the network as item [i]
    meets it. *)
Definition batch {W} (json_loads : string -> Result json)
    (json_dumps : json -> string) (convert : Tool -> json)
    (self : t) (net : nat -> Network)
    (toolkit : option Toolkit) (tool_choice : option string)
    (temperature : float) (max_tokens : Z) (conversations : list nat)
    : M (gmap nat Conversation) W (list nat) :=
  let tool_choice :=
    if toolkit_truthy toolkit && negb (str_truthy tool_choice)
    then Some "auto" else tool_choice in
  comprehension
    (fun i conv =>
       on_object conv
         (predict json_loads json_dumps convert self (net i) toolkit tool_choice
            temperature max_tokens))
    0 conversations.

End GroqToolModel.

Module CohereModel.

Record t : Type := mk {
  api_key : string;
  allowed_models : list string;
  name : string;
  base_url : string;
  headers : list (string * string)
}.

Record init_data : Type := mk_data {
  data_api_key : option string;
  data_allowed_models : option (list string);
  data_name : option string;
  data_base_url : option string
}.

Definition default_allowed_models : list string :=
  [ "command";
    "command-r-plus-08-2024";
    "command-r-plus-04-2024";
    "command-r-03-2024";
    "command-r-08-2024";
    "command-light" ].

Definition default_name : string := "command".

(** [CohereModel.__init__]. *)
Definition __init__ (data : init_data) : Result t :=
  key ← required_field "api_key" (data_api_key data);
  let allowed := default default_allowed_models (data_allowed_models data) in
  let nm := default default_name (data_name data) in
  _ ← in_validator (LLMBase._validate_name_in_allowed_models (Some nm) allowed);
  ok (mk key allowed nm
        (default "https://api.cohere.ai/v1" (data_base_url data))
        [("accept", "application/json");
         ("content-type", "application/json");
         ("authorization", "Bearer " +:+ key)]).

(** An entry of the chat history sent to the backend. *)
Record chat_entry : Type := mk_entry {
  user_name : string;
  message : option string;
  text : option string
}.

(** [chat_history[-1]["text"] = c]. *)
Fixpoint set_last_text (h : list chat_entry) (c : option string) : list chat_entry :=
  match h with
  | [] => []
  | [e] => [mk_entry (user_name e) (message e) c]
  | e :: h' => e :: set_last_text h' c
  end.

(** One turn of the loop of [_format_messages] over the variables
    [(chat_history, system_message, user_message)]; the four branches are
    tried in the order of the [if]/[elif] chain. *)
Definition format_step
    (st : list chat_entry * option string * option string) (msg : Message)
    : list chat_entry * option string * option string :=
  let '(chat_history, system_message, user_message) := st in
  if String.eqb (role msg) "system" then
    (chat_history, content msg, user_message)
  else if String.eqb (role msg) "human" then
    (chat_history, system_message, content msg)
  else if String.eqb (role msg) "assistant" && (0 <? Z.of_nat (length chat_history)) then
    (set_last_text chat_history (content msg), system_message, user_message)
  else if String.eqb (role msg) "human"
          && negb (bool_decide (user_message = content msg)) then
    (chat_history ++ [mk_entry "Human" (content msg) (Some "")],
     system_message, user_message)
  else st.

(** [CohereModel._format_messages]. *)
Definition _format_messages (messages : list Message)
    : list chat_entry * option string * option string :=
  let '(chat_history, system_message, user_message) :=
    fold_left format_step messages ([], None, None) in
  (filter (fun h => str_truthy (text h) = true) chat_history,
   system_message, user_message).

(** [CohereModel._prepare_usage_data], on the usage value as the backend
    sent it: the two counters are read with [.get], added as Python adds
    them, and the record is built from the three values. *)
Definition _prepare_usage_data (lax_int : json -> option Z)
    (usage_data : json) (prompt_time completion_time : float) : Result UsageData :=
  let total_time := (prompt_time + completion_time)%float in
  input_tokens ← get usage_data "input_tokens" (JInt 0);
  output_tokens ← get usage_data "output_tokens" (JInt 0);
  total_tokens ← add input_tokens output_tokens;
  prompt_tokens ← int_field lax_int input_tokens;
  completion_tokens ← int_field lax_int output_tokens;
  total_tokens ← int_field lax_int total_tokens;
  ok (mkUsageData prompt_tokens completion_tokens total_tokens
        prompt_time completion_time total_time).

Definition entry_json (e : chat_entry) : json :=
  JDict [("user_name", JStr (user_name e));
         ("message", opt_json (message e));
         ("text", opt_json (text e))].

(** The request body of [predict], [apredict] and [stream]: the latest
    human message, else the content of the last message, else the empty
    string; [stream] also replaces a falsy message by the empty string. *)
Definition payload_of (self : t) (temperature : float) (max_tokens : Z)
    (stream : bool) (conversation : Conversation) : json :=
  let '(chat_history, system_message, message) :=
    _format_messages (history conversation) in
  let message :=
    if str_truthy message then message
    else match last (history conversation) with
         | Some m => content m
         | None => Some ""
         end in
  let message :=
    if stream && negb (str_truthy message) then Some "" else message in
  JDict ([("message", opt_json message);
          ("chat_history", JList (map entry_json chat_history));
          ("model", JStr (name self));
          ("temperature", JFloat temperature);
          ("max_tokens", JInt max_tokens)]
         ++ (if stream then [("stream", JBool true)] else [])
         ++ (if str_truthy system_message
             then [("preamble", opt_json system_message)] else [])).

(** What [predict] and [apredict] do with the decoded response. *)
Definition complete {W} (lax_int : json -> option Z) (dur : Durations) (data : json)
    : M Conversation W unit :=
  message_content <- lift (getitem data "text") ;;
  usage_data <- lift (get data "usage" (JDict [])) ;;
  usage <- lift (_prepare_usage_data lax_int usage_data
                   (prompt_duration dur) (completion_duration dur)) ;;
  m <- lift (AgentMessage message_content (Some usage)) ;;
  conversation_add_message m.

(** [CohereModel.predict]; the final state is the returned conversation. *)
Definition predict {W} (lax_int : json -> option Z) (self : t) (net : Network)
    (dur : Durations) (temperature : float) (max_tokens : Z) : M Conversation W unit :=
  conversation <- read ;;
  data <- lift (post net (base_url self +:+ "/chat") (headers self)
                  (payload_of self temperature max_tokens false conversation)) ;;
  complete lax_int dur data.

(** [CohereModel.apredict]: the same steps, suspended while the request
    is in flight. *)
Definition apredict {W} (lax_int : json -> option Z) (self : t) (net : Network)
    (dur : Durations) (temperature : float) (max_tokens : Z) : M Conversation W unit :=
  predict lax_int self net dur temperature max_tokens.

(** The loop of [stream] over the lines of the response, with its two
    accumulators; each text fragment is yielded as it is read.  The line
    is decoded without any handler around [json.loads]. *)
Fixpoint stream_lines (json_loads : string -> Result json) (lines : list string)
    (collected_content : list json) (usage_data : json)
    : M Conversation json (list json * json) :=
  match lines with
  | [] => ret (collected_content, usage_data)
  | line :: rest =>
      if negb (String.eqb line "") then
        chunk <- lift (json_loads line) ;;
        has_text <- lift (contains "text" chunk) ;;
        if has_text then
          content <- lift (getitem chunk "text") ;;
          yield content ;;;
          stream_lines json_loads rest (collected_content ++ [content]) usage_data
        else
          has_usage <- lift (contains "usage" chunk) ;;
          if has_usage then
            u <- lift (getitem chunk "usage") ;;
            stream_lines json_loads rest collected_content u
          else stream_lines json_loads rest collected_content usage_data
      else stream_lines json_loads rest collected_content usage_data
  end.

(** [CohereModel.stream], run until the generator is exhausted. *)
Definition stream (json_loads : string -> Result json) (lax_int : json -> option Z)
    (self : t) (net : Network)
    (dur : Durations) (temperature : float) (max_tokens : Z)
    : M Conversation json unit :=
  conversation <- read ;;
  lines <- lift (post_stream net (base_url self +:+ "/chat") (headers self)
                   (payload_of self temperature max_tokens true conversation)) ;;
  acc <- stream_lines json_loads lines [] (JDict []) ;;
  full_content <- lift (str_join (fst acc)) ;;
  usage <- lift (_prepare_usage_data lax_int (snd acc)
                   (prompt_duration dur) (completion_duration dur)) ;;
  m <- lift (AgentMessage (JStr full_content) (Some usage)) ;;
  conversation_add_message m.

(** [CohereModel.abatch], as the loop of its tasks; [net i] and [dur i]
    are the network and the clock as item [i] meets them. *)
Definition abatch_start (max_concurrent : Z) (conversations : list nat)
    (h : gmap nat Conversation) : Result Asyncio.sched :=
  Asyncio.start max_concurrent conversations h.

Definition abatch_exec {W} (lax_int : json -> option Z) (self : t)
    (net : nat -> Network) (dur : nat -> Durations)
    (temperature : float) (max_tokens : Z)
    : list nat -> Asyncio.choice -> Asyncio.sched -> option Asyncio.sched :=
  Asyncio.exec (W := W)
    (payload_of self temperature max_tokens false)
    (fun i => post (net i) (base_url self +:+ "/chat") (headers self))
    (fun i => complete lax_int (dur i)).

Definition abatch_run {W} (lax_int : json -> option Z) (self : t)
    (net : nat -> Network) (dur : nat -> Durations)
    (temperature : float) (max_tokens : Z)
    : list nat -> list Asyncio.choice -> Asyncio.sched -> option Asyncio.sched :=
  Asyncio.run (W := W)
    (payload_of self temperature max_tokens false)
    (fun i => post (net i) (base_url self +:+ "/chat") (headers self))
    (fun i => complete lax_int (dur i)).

(** [CohereModel.batch]: [predict] on each conversation of the list in
    turn; the list holds references to the conversation objects, and
    [net i] and [dur i] are the network and the clock as item [i] meets
    them. *)
Definition batch {W} (lax_int : json -> option Z) (self : t)
    (net : nat -> Network) (dur : nat -> Durations)
    (temperature : float) (max_tokens : Z) (conversations : list nat)
    : M (gmap nat Conversation) W (list nat) :=
  comprehension
    (fun i conv =>
       on_object conv (predict lax_int self (net i) (dur i) temperature max_tokens))
    0 conversations.

(** The request body of [astream]: the message is chosen as in [predict]
    and sent as it is, and the [stream] key is set. *)
Definition astream_payload_of (self : t) (temperature : float) (max_tokens : Z)
    (conversation : Conversation) : json :=
  let '(chat_history, system_message, message) :=
    _format_messages (history conversation) in
  let message :=
    if str_truthy message then message
    else match last (history conversation) with
         | Some m => content m
         | None => Some ""
         end in
  JDict ([("message", opt_json message);
          ("chat_history", JList (map entry_json chat_history));
          ("model", JStr (name self));
          ("temperature", JFloat temperature);
          ("max_tokens", JInt max_tokens);
          ("stream", JBool true)]
         ++ (if str_truthy system_message
             then [("preamble", opt_json system_message)] else [])).

End CohereModel.

Module FalAIImgGenModel.

(** [api_key] is [None] when neither the argument nor the environment
    supplies it; [name] is the inherited component name, which the class
    leaves at its default [None]. *)
Record t : Type := mk {
  allowed_models : list string;
  api_key : option string;
  model_name : string;
  name : option string;
  max_retries : Z;
  retry_delay : float;
  _BASE_URL : string;
  _client_headers : list (string * string)
}.

Record init_data : Type := mk_data {
  data_allowed_models : option (list string);
  data_api_key : option string;
  data_model_name : option string;
  data_name : option string;
  data_max_retries : option Z;
  data_retry_delay : option float
}.

Definition default_allowed_models : list string :=
  [ "fal-ai/flux-pro"; "fal-ai/flux-pro/new"; "fal-ai/flux-pro/v1.1" ].

Definition default_model_name : string := "fal-ai/flux-pro".
Definition default_max_retries : Z := 60.
Definition default_retry_delay : float := 1%float.

(** [os.environ]. *)
Abbreviation Environ := (gmap string string).

(** [FalAIImgGenModel.__init__], in the process environment: the key
    defaults to [os.environ.get("FAL_KEY")] (a default is not validated),
    a truthy key is exported, and the model name is checked against the
    allowed models. *)
Definition __init__ {W} (data : init_data) : M Environ W t :=
  environ <- read ;;
  let key :=
    match data_api_key data with
    | Some k => Some k
    | None => environ !! "FAL_KEY"
    end in
  let allowed := default default_allowed_models (data_allowed_models data) in
  let model := default default_model_name (data_model_name data) in
  _ <- lift (in_validator (LLMBase._validate_name_in_allowed_models (data_name data) allowed)) ;;
  (match key with
   | Some k => if str_truthy key then modify (<["FAL_KEY" := k]>) else ret tt
   | None => ret tt
   end) ;;;
  if negb (bool_decide (model ∈ allowed)) then
    raise (ValueError ("Invalid model name. Allowed models are: "
                       +:+ String.concat ", " allowed))
  else
    ret (mk allowed key model (data_name data)
           (default default_max_retries (data_max_retries data))
           (default default_retry_delay (data_retry_delay data))
           "https://queue.fal.run"
           [("Content-Type", "application/json");
            ("Authorization", "Key " +:+ default "None" key)]).

(** The queue service: what it answers to the [n]-th GET (counting from
    zero) of a URL. *)
Abbreviation Service := (nat -> string -> Result json).

Inductive event : Type :=
| Get (url : string)
| Sleep (seconds : float).

(** [self._client.get(url)], [raise_for_status], [response.json()]; the
    state counts the requests made so far. *)
Definition http_get (svc : Service) (url : string) : M nat event json :=
  n <- read ;;
  modify S ;;;
  yield (Get url) ;;;
  lift (svc n url).

Definition status_url (self : t) (request_id : string) : string :=
  _BASE_URL self +:+ "/" +:+ model_name self +:+ "/requests/" +:+ request_id +:+ "/status".

Definition result_url (self : t) (request_id : string) : string :=
  _BASE_URL self +:+ "/" +:+ model_name self +:+ "/requests/" +:+ request_id.

(** [FalAIImgGenModel._check_status]. *)
Definition _check_status (svc : Service) (self : t) (request_id : string)
    : M nat event json :=
  http_get svc (status_url self request_id).

(** [FalAIImgGenModel._get_result]. *)
Definition _get_result (svc : Service) (self : t) (request_id : string)
    : M nat event json :=
  http_get svc (result_url self request_id).

(** The interpreter turns a delay in seconds into a count of nanoseconds
    that must fit a signed 64-bit integer: the delay is then within about
    9.2e9 seconds of zero, and is not infinite. *)
Definition fits_nanoseconds (d : float) : bool :=
  let ns := (d * 1e9)%float in
  PrimFloat.leb (-9223372036854775808)%float ns
  && PrimFloat.ltb ns 9223372036854775808%float.

(** [time.sleep(d)], as CPython has it: NaN is refused with a
    [ValueError]; a delay whose nanoseconds do not fit is an
    [OverflowError]; a negative delay is refused after that conversion;
    any other delay is waited for. *)
Definition time_sleep (d : float) : M nat event unit :=
  if PrimFloat.is_nan d then
    raise (ValueError "Invalid value NaN (not a number)")
  else if fits_nanoseconds d then
    if PrimFloat.ltb d 0%float then
      raise (ValueError "sleep length must be non-negative")
    else yield (Sleep d)
  else raise OverflowError.

(** [await asyncio.sleep(d)], as CPython has it: with [d <= 0] the
    coroutine gives control back once and returns; a finite positive
    delay is waited for; the timer of an infinite delay, and that of NaN,
    never fires, so that the call does not return. *)
Definition asyncio_sleep (d : float) : M nat event unit :=
  if PrimFloat.leb d 0%float then yield (Sleep d)
  else if PrimFloat.is_nan d || PrimFloat.is_infinity d then raise Forever
  else yield (Sleep d).

(** The [for _ in range(n)] loop of the poller followed by the
    [raise TimeoutError], over the way of sleeping. *)
Fixpoint poll (sleep : float -> M nat event unit) (svc : Service) (self : t)
    (request_id : string) (n : nat) : M nat event json :=
  match n with
  | O =>
      raise (TimeoutError ("Request " +:+ request_id
                           +:+ " did not complete within the timeout period"))
  | S n' =>
      status_data <- _check_status svc self request_id ;;
      status <- lift (getitem status_data "status") ;;
      if is_str_eq "COMPLETED" status then
        _get_result svc self request_id
      else if is_str_eq "IN_QUEUE" status || is_str_eq "IN_PROGRESS" status then
        sleep (retry_delay self) ;;;
        poll sleep svc self request_id n'
      else
        raise (RuntimeError "Unexpected status: " status_data)
  end.

(** [FalAIImgGenModel._wait_for_completion]. *)
Definition _wait_for_completion (svc : Service) (self : t) (request_id : string)
    : M nat event json :=
  poll time_sleep svc self request_id (Z.to_nat (max_retries self)).

(** [FalAIImgGenModel._async_wait_for_completion]. *)
Definition _async_wait_for_completion (svc : Service) (self : t)
    (request_id : string) : M nat event json :=
  poll asyncio_sleep svc self request_id (Z.to_nat (max_retries self)).

(** [FalAIImgGenModel._create_request_payload]: the prompt, then the
    keyword arguments (none of them can be named [prompt]). *)
Definition _create_request_payload (prompt : string) (kwargs : list (string * json))
    : json :=
  JDict (("prompt", JStr prompt) :: kwargs).

(** What the queue answers to the POST of a body to a URL, made after
    the given number of GET requests. *)
Abbreviation Queue := (nat -> string -> json -> Result json).

(** [FalAIImgGenModel._send_request] and [_async_send_request]. *)
Definition _send_request (queue : Queue) (self : t) (prompt : string)
    (kwargs : list (string * json)) : M nat event json :=
  let url := _BASE_URL self +:+ "/" +:+ model_name self in
  let payload := _create_request_payload prompt kwargs in
  n <- read ;;
  lift (queue n url payload).

(** The text an f-string puts for a value: a string as it is, any other
    value as its [str], which is left to [to_str]. *)
Definition format (to_str : json -> string) (v : json) : string :=
  match v with
  | JStr s => s
  | _ => to_str v
  end.

(** [final_response["response"]["images"][0]["url"]]. *)
Definition image_url (final_response : json) : Result json :=
  response ← getitem final_response "response";
  images ← getitem response "images";
  first ← getitem0 images;
  getitem first "url".

(** [FalAIImgGenModel.generate_image]. *)
Definition generate_image (to_str : json -> string) (queue : Queue) (svc : Service)
    (self : t) (prompt : string) (kwargs : list (string * json)) : M nat event json :=
  initial_response <- _send_request queue self prompt kwargs ;;
  request_id <- lift (getitem initial_response "request_id") ;;
  final_response <- _wait_for_completion svc self (format to_str request_id) ;;
  lift (image_url final_response).

(** [FalAIImgGenModel.agenerate_image]. *)
Definition agenerate_image (to_str : json -> string) (queue : Queue) (svc : Service)
    (self : t) (prompt : string) (kwargs : list (string * json)) : M nat event json :=
  initial_response <- _send_request queue self prompt kwargs ;;
  request_id <- lift (getitem initial_response "request_id") ;;
  final_response <- _async_wait_for_completion svc self (format to_str request_id) ;;
  lift (image_url final_response).

(** [FalAIImgGenModel.batch]. *)
Definition batch (to_str : json -> string) (queue : Queue) (svc : Service)
    (self : t) (prompts : list string) (kwargs : list (string * json))
    : M nat event (list json) :=
  comprehension (fun _ prompt => generate_image to_str queue svc self prompt kwargs)
    0 prompts.

End FalAIImgGenModel.

(** * The vocabulary of the properties *)

(** ** Conversations and responses *)

Definition extend (c : Conversation) (ms : list Message) : Conversation :=
  mkConversation (history c ++ ms).

(** The content of the latest message with role [r], if there is one. *)
Definition latest (r : string) (messages : list Message) (before : option string)
    : option string :=
  match last (filter (fun m => role m = r) messages) with
  | Some m => content m
  | None => before
  end.

(** The failures the specification calls configuration errors: a
    [ValueError], or pydantic's [ValidationError]. *)
Definition configuration_error {A} (r : Result A) : Prop :=
  match r with
  | inl (ValueError _) | inl (ValidationError _) => True
  | _ => False
  end.

(** The message object of a response, [tool_response["choices"][0]["message"]]. *)
Definition message_of (tool_response : json) : Result json :=
  choices ← getitem tool_response "choices";
  choice ← getitem0 choices;
  getitem choice "message".

(** The assistant message the first step appends for a message object
    with these fields: none without a [content] key. *)
Definition content_messages (fields : list (string * json)) : Result (list Message) :=
  match dict_lookup "content" fields with
  | None => ok []
  | Some c => m ← AgentMessage c None; ok [m]
  end.

(** A message object carries no tool call when it has no [tool_calls]
    key or a falsy value under it. *)
Definition no_tool_calls (fields : list (string * json)) : Prop :=
  match dict_lookup "tool_calls" fields with
  | None => True
  | Some v => truthy v = false
  end.

(** The second step of [process_response], for a message object with
    these fields. *)
Definition tool_phase {W} (json_loads : string -> Result json)
    (json_dumps : json -> string)
    (toolkit : option Toolkit) (fields : list (string * json))
    : M Conversation W unit :=
  tool_calls <- lift (get (JDict fields) "tool_calls" (JList [])) ;;
  if truthy tool_calls then
    l <- lift (iter tool_calls) ;;
    for_each l (GroqToolModel.call_tool json_loads json_dumps toolkit)
  else ret tt.

(** ** Tool calls *)

(** The tool message that answers a tool-call request: the request
    names a registered tool and carries an id, its arguments parse to a
    mapping, and the tool returns [r] on them; the message carries the
    serialized [r], the tool's name and the id of the request. *)
Definition answers (json_loads : string -> Result json)
    (json_dumps : json -> string) (toolkit : Toolkit) (tool_call : json) (m : Message) : Prop :=
  exists fn n tool arguments kwargs r id,
    getitem tool_call "function" = ok fn
    /\ getitem fn "name" = ok (JStr n)
    /\ tools toolkit !! n = Some tool
    /\ getitem fn "arguments" = ok (JStr arguments)
    /\ json_loads arguments = ok (JDict kwargs)
    /\ call tool kwargs = ok r
    /\ getitem tool_call "id" = ok (JStr id)
    /\ m = mkMessage "tool" (Some (json_dumps r)) (Some n) (Some id) None.

(** A request for a tool that the toolkit does not have. *)
Definition unresolvable (toolkit : Toolkit) (tool_call : json) (func_name : json) : Prop :=
  exists fn,
    getitem tool_call "function" = ok fn
    /\ getitem fn "name" = ok func_name
    /\ forall n, func_name = JStr n -> tools toolkit !! n = None.

(** ** Streams *)

(** A line whose payload [json.loads] rejects. *)
Definition malformed (json_loads : string -> Result json) (line : string) : bool :=
  match json_loads (str_replace "data: " "" line) with
  | inl (JSONDecodeError _) => true
  | _ => false
  end.

(** ** The job poller *)

(** The status answers the poller retries on, and the one it stops on. *)
Definition non_terminal (status_data : json) : Prop :=
  exists s, getitem status_data "status" = ok (JStr s)
            /\ (s = "IN_QUEUE" \/ s = "IN_PROGRESS").


(** The requests and waits of [k] unsuccessful polls. *)
Fixpoint polls (self : FalAIImgGenModel.t) (request_id : string) (k : nat)
    : list FalAIImgGenModel.event :=
  match k with
  | O => []
  | S k' =>
      FalAIImgGenModel.Get (FalAIImgGenModel.status_url self request_id)
      :: FalAIImgGenModel.Sleep (FalAIImgGenModel.retry_delay self)
      :: polls self request_id k'
  end.

Definition timeout_message (request_id : string) : string :=
  "Request " +:+ request_id +:+ " did not complete within the timeout period".

(** The number of GET requests to a URL among the events of a run. *)
Definition gets (url : string) (events : list FalAIImgGenModel.event) : nat :=
  length (List.filter
            (fun e => match e with
                      | FalAIImgGenModel.Get u => String.eqb u url
                      | FalAIImgGenModel.Sleep _ => false
                      end) events).

(** ** The event loop of a batch *)

Definition count {A} (f : A -> bool) (l : list A) : nat := length (List.filter f l).

Definition weight {A} (f : A -> bool) (x : A) : nat := if f x then 1%nat else 0%nat.

Definition is_pending (t : Asyncio.task_state) : bool :=
  match t with
  | Asyncio.Pending => true
  | _ => false
  end.

(** The admission gate: the free slots and the calls in flight add up to
    the ceiling, before and after every choice of the loop. *)
Definition gate (ceiling : Z) (s : Asyncio.sched) : Prop :=
  Asyncio.sem_value s + Z.of_nat (Asyncio.in_flight s) = ceiling
  /\ 0 <= Asyncio.sem_value s.

Section BatchVocabulary.
Import Asyncio.
Context {W : Type}.
Variable request : Conversation -> json.
Variable send : nat -> json -> Result json.
Variable finish : nat -> json -> M Conversation W unit.
Variable conversations : list nat.
Variable h : gmap nat Conversation.

(** The result a finished task holds for the call on conversation [l]. *)
Definition outcome_of (i l : nat) : Result nat :=
  match result (apredict_item request send finish i (h !!! l)) with
  | inl e => inl e
  | inr _ => inr l
  end.

(** Where the tasks stand: one task per conversation, a result in the
    place of its conversation, and an exception behind every failure. *)
Definition placed (s : sched) : Prop :=
  length (tasks s) = length conversations
  /\ (forall i l, tasks s !! i = Some (Done (inr l)) -> conversations !! i = Some l)
  /\ (forall e, failure s = Some e ->
        exists i e', tasks s !! i = Some (Done (inl e'))).

(** The conversation of a task that has not finished is as it was; the
    request of a call in flight was built from it; the conversation of a
    finished task is as [apredict] alone leaves it. *)
Definition tracks (s : sched) : Prop :=
  forall i l t,
    conversations !! i = Some l -> tasks s !! i = Some t ->
    match t with
    | Pending => heap s !!! l = h !!! l
    | InFlight payload => heap s !!! l = h !!! l /\ payload = request (h !!! l)
    | Done r => heap s !!! l = final (apredict_item request send finish i (h !!! l)) /\ r = outcome_of i l
    end.

(** The choices a state still allows: two for a pending task, one for a
    call in flight. *)
Definition remaining (s : sched) : nat :=
  (2 * count is_pending (tasks s) + count is_in_flight (tasks s))%nat.

End BatchVocabulary.

(** What it is for a batch to return its conversations in order.  The
    batch is given by the step and the run of its event loop and by the
    [apredict] of each item.  For a ceiling of at least one, a list of
    distinct conversations and calls that all succeed when run alone:
    the loop can be run to the end; every interleaving has at most two
    choices per item; before the end [gather] has returned nothing and a
    choice is enabled; and at the end, whichever the interleaving was,
    [gather] returns the list of the conversations in the order of the
    input, each conversation being what [apredict] alone makes of it. *)
Definition returns_in_order {W}
    (exec : list nat -> Asyncio.choice -> Asyncio.sched -> option Asyncio.sched)
    (run : list nat -> list Asyncio.choice -> Asyncio.sched -> option Asyncio.sched)
    (apredict : nat -> M Conversation W unit) : Prop :=
  forall (max_concurrent : Z) (conversations : list nat)
         (h : gmap nat Conversation) (s0 : Asyncio.sched),
    1 <= max_concurrent ->
    NoDup conversations ->
    Asyncio.start max_concurrent conversations h = ok s0 ->
    (forall i l, conversations !! i = Some l ->
                 result (apredict i (h !!! l)) = ok tt) ->
    (exists schedule s,
        run conversations schedule s0 = Some s /\ Asyncio.all_done s = true)
    /\ forall schedule s,
        run conversations schedule s0 = Some s ->
        (length schedule <= 2 * length conversations)%nat
        /\ (Asyncio.all_done s = false ->
            Asyncio.gathered s = None
            /\ exists c s', exec conversations c s = Some s')
        /\ (Asyncio.all_done s = true ->
            Asyncio.gathered s = Some (ok conversations)
            /\ length conversations = length (Asyncio.tasks s)
            /\ forall i l, conversations !! i = Some l ->
                 Asyncio.heap s !!! l = final (apredict i (h !!! l))).

(** ** Objects used in the examples *)

Definition groq_self : GroqToolModel.t :=
  GroqToolModel.mk "gsk" GroqToolModel.default_allowed_models
    GroqToolModel.default_name
    [("Content-Type", "application/json"); ("Authorization", "Bearer gsk")]
    "https://api.groq.com/openai/v1/chat/completions".

Definition cohere_self : CohereModel.t :=
  CohereModel.mk "co" CohereModel.default_allowed_models
    CohereModel.default_name "https://api.cohere.ai/v1"
    [("accept", "application/json");
     ("content-type", "application/json");
     ("authorization", "Bearer co")].

Definition falai_self : FalAIImgGenModel.t :=
  FalAIImgGenModel.mk FalAIImgGenModel.default_allowed_models (Some "key")
    "fal-ai/flux-pro" None 3 0%float "https://queue.fal.run"
    [("Content-Type", "application/json"); ("Authorization", "Key key")].

Definition no_arguments_falai : FalAIImgGenModel.init_data :=
  FalAIImgGenModel.mk_data None None None None None None.

(** A network that answers every request with the same body, or with the
    same lines. *)
Definition replies_with (body : json) (lines : list string) : Network :=
  mkNetwork (fun _ _ _ => ok body) (fun _ _ _ => ok lines).

Definition response_with (message : list (string * json)) : json :=
  JDict [("choices", JList [JDict [("message", JDict message)]])].

Definition human (text : string) : Message :=
  mkMessage "human" (Some text) None None None.

Definition rejects_all : string -> Result json :=
  fun s => err (JSONDecodeError s).

Definition no_durations : Durations := mkDurations 0%float 0%float.

(** The scenario of the specification: a toolkit with [add]. *)

Definition dq : string := String (Ascii.ascii_of_nat 34) EmptyString.

(** The text of the arguments: an object with [a] at 1 and [b] at 2. *)
Definition add_arguments : string :=
  "{" +:+ dq +:+ "a" +:+ dq +:+ ": 1, " +:+ dq +:+ "b" +:+ dq +:+ ": 2}".

(** A parser that knows this one text. *)
Definition loads_add (s : string) : Result json :=
  if String.eqb s add_arguments
  then ok (JDict [("a", JInt 1); ("b", JInt 2)])
  else err (JSONDecodeError s).

(** A serializer of integers. *)
Definition dumps_int (v : json) : string :=
  match v with
  | JInt n => pretty n
  | _ => "null"
  end.

Definition add_tool : Tool :=
  mkTool "add" (fun kwargs =>
    match dict_lookup "a" kwargs, dict_lookup "b" kwargs with
    | Some (JInt a), Some (JInt b) => ok (JInt (a + b))
    | _, _ => err TypeError
    end).

Definition add_toolkit : Toolkit := mkToolkit [("add", add_tool)].

Definition request (id func_name arguments : string) : json :=
  JDict [("id", JStr id);
         ("type", JStr "function");
         ("function", JDict [("name", JStr func_name);
                             ("arguments", JStr arguments)])].

Definition two_requests : json :=
  response_with
    [("content", JNull);
     ("tool_calls", JList [request "call_1" "add" add_arguments;
                           request "call_2" "add" add_arguments])].

Definition three_requests : json :=
  response_with
    [("content", JNull);
     ("tool_calls", JList [request "call_1" "add" add_arguments;
                           request "call_2" "mul" add_arguments;
                           request "call_3" "add" add_arguments])].

(** A text event of the Cohere stream: an object with the one key
    [text]. *)
Definition text_event (t : string) : string :=
  "{" +:+ dq +:+ "text" +:+ dq +:+ ": " +:+ dq +:+ t +:+ dq +:+ "}".

(** A parser of text events (without escapes); everything else is
    rejected. *)
Definition loads_text_event (s : string) : Result json :=
  let opening := "{" +:+ dq +:+ "text" +:+ dq +:+ ": " +:+ dq in
  let closing := dq +:+ "}" in
  let n := String.length s in
  let a := String.length opening in
  let b := String.length closing in
  if String.prefix opening s
     && String.eqb (String.substring (n - b) b s) closing
     && bool_decide (a + b <= n)%nat
  then ok (JDict [("text", JStr (String.substring a (n - a - b) s))])
  else err (JSONDecodeError s).

(** The scenario of the specification: three polls. *)

Definition in_progress : json := JDict [("status", JStr "IN_PROGRESS")].

Definition image : json :=
  JDict [("response", JDict [("images", JList [JDict [("url", JStr "https://img")]])])].

(** A job that never leaves the queue. *)
Definition stuck : FalAIImgGenModel.Service := fun _ _ => ok in_progress.

(** A job that is in progress twice and completed at the third poll. *)
Definition third_time : FalAIImgGenModel.Service :=
  fun n _ =>
    match n with
    | 0%nat | 1%nat => ok in_progress
    | 2%nat => ok (JDict [("status", JStr "COMPLETED")])
    | _ => ok image
    end.

(** Batches of two conversations. *)

Definition unreachable : Network :=
  mkNetwork (fun _ _ _ => err (HTTPError "503")) (fun _ _ _ => err (HTTPError "503")).

Definition first_fails (i : nat) : Network :=
  match i with
  | O => unreachable
  | _ => replies_with (JDict [("text", JStr "Hi")]) []
  end.

Definition says_hi (i : nat) : Network :=
  replies_with (JDict [("text", JStr "Hi")]) [].

Definition two_conversations : gmap nat Conversation :=
  {[ 7%nat := mkConversation [human "one"]; 9%nat := mkConversation [human "two"] ]}.

Definition answered (text : string) : Conversation :=
  mkConversation
    [human text;
     mkMessage "assistant" (Some "Hi") None None (Some (mkUsageData 0 0 0 0 0 0))].

(** An image adapter whose delay between polls is negative. *)
Definition falai_negative_delay : FalAIImgGenModel.t :=
  FalAIImgGenModel.mk FalAIImgGenModel.default_allowed_models (Some "key")
    "fal-ai/flux-pro" None 3 (-1)%float "https://queue.fal.run"
    [("Content-Type", "application/json"); ("Authorization", "Key key")].




Definition queue_down : FalAIImgGenModel.Queue :=
  fun _ _ _ => err (HTTPError "503").

Definition no_str : json -> string := fun _ => "".

(** ** Batches, one conversation after the other *)

(** What it is for a sequential batch to update its conversations in
    turn and to agree with the concurrent one.  For a list of distinct
    conversations whose calls all succeed when run alone: the batch
    returns the list it was given; each conversation is what [predict]
    alone makes of it; the other conversations of the heap are as they
    were; and a concurrent batch with a ceiling of at least one, run to
    the end along any interleaving, returns the same list and leaves the
    same heap. *)
Definition updates_in_turn {W}
    (batch : list nat -> M (gmap nat Conversation) W (list nat))
    (run : list nat -> list Asyncio.choice -> Asyncio.sched -> option Asyncio.sched)
    (predict : nat -> M Conversation W unit) : Prop :=
  forall (conversations : list nat) (h : gmap nat Conversation),
    NoDup conversations ->
    (forall i l, conversations !! i = Some l -> result (predict i (h !!! l)) = ok tt) ->
    let o := batch conversations h in
    result o = ok conversations
    /\ (forall i l, conversations !! i = Some l ->
          final o !!! l = final (predict i (h !!! l)))
    /\ (forall l, l ∉ conversations -> final o !!! l = h !!! l)
    /\ forall (max_concurrent : Z) (s0 : Asyncio.sched)
              (schedule : list Asyncio.choice) (s : Asyncio.sched),
         1 <= max_concurrent ->
         Asyncio.start max_concurrent conversations h = ok s0 ->
         run conversations schedule s0 = Some s ->
         Asyncio.all_done s = true ->
         Asyncio.gathered s = Some (ok conversations)
         /\ forall l, Asyncio.heap s !!! l = final o !!! l.

(** What it is for a sequential batch to stop at its first failure.  For
    a list of distinct conversations, when the calls before place [k]
    succeed and the call at place [k] raises: the batch raises that
    exception; the conversations up to place [k] are what [predict] made
    of them, the one at place [k] as the failed call left it; the later
    ones, and the conversations outside the list, are as they were. *)
Definition stops_at_first_failure {W}
    (batch : list nat -> M (gmap nat Conversation) W (list nat))
    (predict : nat -> M Conversation W unit) : Prop :=
  forall (conversations : list nat) (h : gmap nat Conversation)
         (k lk : nat) (e : exn),
    NoDup conversations ->
    conversations !! k = Some lk ->
    (forall i l, (i < k)%nat -> conversations !! i = Some l ->
       result (predict i (h !!! l)) = ok tt) ->
    result (predict k (h !!! lk)) = err e ->
    let o := batch conversations h in
    result o = err e
    /\ (forall i l, conversations !! i = Some l -> (i <= k)%nat ->
          final o !!! l = final (predict i (h !!! l)))
    /\ (forall i l, conversations !! i = Some l -> (k < i)%nat ->
          final o !!! l = h !!! l)
    /\ (forall l, l ∉ conversations -> final o !!! l = h !!! l).

(** A network that fails for the second item only. *)
Definition second_fails (i : nat) : Network :=
  match i with
  | 1%nat => unreachable
  | _ => replies_with (JDict [("text", JStr "Hi")]) []
  end.

Definition three_conversations : gmap nat Conversation :=
  {[ 7%nat := mkConversation [human "one"];
     9%nat := mkConversation [human "two"];
     4%nat := mkConversation [human "three"] ]}.

(** ** The edges of a concurrent batch *)

(** The edges of the admission gate.  A negative ceiling is refused
    before any task is created.  An empty list is gathered at once, and
    the loop has nothing to choose.  With a ceiling of zero and a
    non-empty list no task is ever admitted: the loop has no choice to
    make and [gather] never has a result. *)
Definition gate_edges
    (start : Z -> list nat -> gmap nat Conversation -> Result Asyncio.sched)
    (run : list nat -> list Asyncio.choice -> Asyncio.sched -> option Asyncio.sched)
    : Prop :=
  forall (max_concurrent : Z) (conversations : list nat) (h : gmap nat Conversation),
    (max_concurrent < 0 ->
       start max_concurrent conversations h
       = err (ValueError "Semaphore initial value must be >= 0"))
    /\ forall s0,
         start max_concurrent conversations h = ok s0 ->
         (conversations = [] ->
            Asyncio.gathered s0 = Some (ok [])
            /\ forall schedule s, run conversations schedule s0 = Some s -> schedule = [])
         /\ (max_concurrent = 0 -> conversations <> [] ->
               Asyncio.gathered s0 = None
               /\ forall schedule s, run conversations schedule s0 = Some s -> schedule = []).

(** What it is for a concurrent batch to report its first failure.  On
    distinct conversations, once [gather] has an exception: it is the
    exception that the call of one finished task raises when run alone on
    its conversation; [gather] keeps that exception whatever the loop
    does next; the failure stops no other call, a task that finishes
    leaves its conversation as its call alone does; and no conversation
    outside the list is touched. *)
Definition reports_first_failure {W}
    (start : Z -> list nat -> gmap nat Conversation -> Result Asyncio.sched)
    (run : list nat -> list Asyncio.choice -> Asyncio.sched -> option Asyncio.sched)
    (apredict : nat -> M Conversation W unit) : Prop :=
  forall (max_concurrent : Z) (conversations : list nat) (h : gmap nat Conversation)
         (s0 s : Asyncio.sched) (schedule : list Asyncio.choice) (e : exn),
    NoDup conversations ->
    start max_concurrent conversations h = ok s0 ->
    run conversations schedule s0 = Some s ->
    Asyncio.gathered s = Some (err e) ->
    (exists i l,
        conversations !! i = Some l
        /\ Asyncio.tasks s !! i = Some (Asyncio.Done (err e))
        /\ result (apredict i (h !!! l)) = err e)
    /\ forall schedule' s',
         run conversations schedule' s = Some s' ->
         Asyncio.gathered s' = Some (err e)
         /\ (forall i l r,
               conversations !! i = Some l ->
               Asyncio.tasks s' !! i = Some (Asyncio.Done r) ->
               Asyncio.heap s' !!! l = final (apredict i (h !!! l)))
         /\ (forall l, l ∉ conversations -> Asyncio.heap s' !!! l = h !!! l).

(** Two conversations that end with the same question, the second after
    an earlier exchange. *)
Definition asked_once : Conversation := mkConversation [human "and Italy?"].

Definition asked_after_a_turn : Conversation :=
  mkConversation
    [human "capital of France?";
     mkMessage "assistant" (Some "Paris") None None None;
     human "and Italy?"].

(** A request that the toolkit resolves and that fails all the same: its
    arguments do not parse, or do not parse to a mapping, or the tool
    raises. *)
Definition fails (json_loads : string -> Result json) (toolkit : Toolkit)
    (tool_call : json) (e : exn) : Prop :=
  exists fn n tool arguments,
    getitem tool_call "function" = ok fn
    /\ getitem fn "name" = ok (JStr n)
    /\ tools toolkit !! n = Some tool
    /\ getitem fn "arguments" = ok arguments
    /\ (loads json_loads arguments = err e
        \/ exists kwargs,
             loads json_loads arguments = ok kwargs /\ invoke tool kwargs = err e).

(** A response whose second request carries arguments that do not parse. *)
Definition broken_arguments : json :=
  response_with
    [("content", JNull);
     ("tool_calls", JList [request "call_1" "add" add_arguments;
                           request "call_2" "add" "{oops";
                           request "call_3" "add" add_arguments])].

(** Lines of a Groq stream: a chunk with a text fragment, and a chunk
    whose delta names the role only. *)
Definition delta_event (t : string) : string :=
  "data: " +:+ t.

(** A parser that reads the text after [data: ] as a fragment, except the
    text [role], which it reads as a delta without content, and the text
    [[DONE]], which it rejects. *)
Definition loads_delta (s : string) : Result json :=
  if String.eqb s "[DONE]" then err (JSONDecodeError s)
  else if String.eqb s "role" then
    ok (JDict [("choices", JList [JDict [("delta", JDict [("role", JStr "assistant")])]])])
  else
    ok (JDict [("choices", JList [JDict [("delta", JDict [("content", JStr s)])]])]).

(** A conversation that ends with an assistant message without content,
    and holds no human message. *)
Definition only_tool_calls : Conversation :=
  mkConversation [mkMessage "assistant" None None None None].

(** The coercion of a value to an integer field, for the examples: an
    integer is itself, and a text of decimal digits is the number it
    writes. *)
Fixpoint digits (s : string) (acc : Z) : option Z :=
  match s with
  | EmptyString => Some acc
  | String a s' =>
      let n := Z.of_nat (Ascii.nat_of_ascii a) - 48 in
      if (0 <=? n) && (n <=? 9) then digits s' (10 * acc + n) else None
  end.

Definition decimal_int (v : json) : option Z :=
  match v with
  | JInt n => Some n
  | JStr (String a s) => digits (String a s) 0
  | _ => None
  end.


(** * Properties *)

(** ** Running the monad *)

Lemma bind_ok {St W A B} (c : M St W A) (k : A -> M St W B) s a :
  result (c s) = inr a ->
  bind c k s =
    mkOutcome (result (k a (final (c s)))) (final (k a (final (c s))))
      (yielded (c s) ++ yielded (k a (final (c s)))).
Proof. intros H. unfold bind. rewrite H. reflexivity. Qed.

Lemma bind_err {St W A B} (c : M St W A) (k : A -> M St W B) s e :
  result (c s) = inl e ->
  bind c k s = mkOutcome (inl e) (final (c s)) (yielded (c s)).
Proof. intros H. unfold bind. rewrite H. reflexivity. Qed.

Lemma bind_lift_ok {St W A B} (a : A) (k : A -> M St W B) s :
  bind (lift (ok a)) k s = k a s.
Proof. unfold bind, lift. simpl. destruct (k a s); reflexivity. Qed.

Lemma bind_lift_err {St W A B} (e : exn) (k : A -> M St W B) s :
  bind (lift (err e)) k s = mkOutcome (err e) s [].
Proof. reflexivity. Qed.

Lemma bind_ret {St W A B} (a : A) (k : A -> M St W B) s :
  bind (ret a) k s = k a s.
Proof. unfold bind, ret. simpl. destruct (k a s); reflexivity. Qed.

Lemma bind_read {St W B} (k : St -> M St W B) s :
  bind read k s = k s s.
Proof. unfold bind, read. simpl. destruct (k s s); reflexivity. Qed.

Lemma bind_modify {St W B} (f : St -> St) (k : unit -> M St W B) s :
  bind (modify f) k s = k tt (f s).
Proof. unfold bind, modify. simpl. destruct (k tt (f s)); reflexivity. Qed.

Lemma bind_raise {St W A B} (e : exn) (k : A -> M St W B) s :
  bind (raise e) k s = mkOutcome (err e) s [].
Proof. reflexivity. Qed.

Lemma bind_yield {St W B} (w : W) (k : unit -> M St W B) s :
  bind (yield w) k s =
    mkOutcome (result (k tt s)) (final (k tt s)) (w :: yielded (k tt s)).
Proof. reflexivity. Qed.

Lemma bind_bind {St W A B C} (c : M St W A) (k : A -> M St W B)
    (k' : B -> M St W C) s :
  bind (bind c k) k' s = bind c (fun a => bind (k a) k') s.
Proof.
  unfold bind. destruct (c s) as [[e|a] s1 w1]; simpl; [reflexivity|].
  destruct (k a s1) as [[e|b] s2 w2]; simpl; [reflexivity|].
  destruct (k' b s2) as [r s3 w3]; simpl. rewrite app_assoc. reflexivity.
Qed.

(** ** The chat history of the Cohere adapter *)

Section CohereFormat.
Import CohereModel.

Lemma latest_cons_eq r m ms before :
  role m = r -> latest r (m :: ms) before = latest r ms (content m).
Proof.
  intros Hr. unfold latest. rewrite filter_cons_True by exact Hr.
  destruct (filter (fun m0 => role m0 = r) ms) as [|x xs] eqn:E; [reflexivity|].
  rewrite last_cons. destruct (last (x :: xs)) eqn:L; [reflexivity|].
  apply last_None in L. discriminate.
Qed.

Lemma latest_cons_ne r m ms before :
  role m <> r -> latest r (m :: ms) before = latest r ms before.
Proof. intros Hr. unfold latest. rewrite filter_cons_False by exact Hr. reflexivity. Qed.

(** One turn on an empty chat history: a human message is taken by the
    second branch, so the fourth never runs, and the third needs a
    non-empty history. *)
Lemma format_step_empty m sys usr :
  format_step ([], sys, usr) m =
    if String.eqb (role m) "system" then ([], content m, usr)
    else if String.eqb (role m) "human" then ([], sys, content m)
    else ([], sys, usr).
Proof.
  unfold format_step.
  destruct (String.eqb (role m) "system"); [reflexivity|].
  destruct (String.eqb (role m) "human"); [reflexivity|].
  rewrite andb_false_r. reflexivity.
Qed.

Lemma format_loop_empty ms sys usr :
  fold_left format_step ms ([], sys, usr) =
    ([], latest "system" ms sys, latest "human" ms usr).
Proof.
  revert sys usr. induction ms as [|m ms IH]; intros sys usr; [reflexivity|].
  cbn [fold_left]. rewrite format_step_empty.
  destruct (String.eqb (role m) "system") eqn:Hs.
  - apply String.eqb_eq in Hs. rewrite IH.
    rewrite (latest_cons_eq "system") by exact Hs.
    rewrite (latest_cons_ne "human") by (rewrite Hs; discriminate).
    reflexivity.
  - apply String.eqb_neq in Hs.
    destruct (String.eqb (role m) "human") eqn:Hh.
    + apply String.eqb_eq in Hh. rewrite IH.
      rewrite (latest_cons_ne "system") by exact Hs.
      rewrite (latest_cons_eq "human") by exact Hh.
      reflexivity.
    + apply String.eqb_neq in Hh. rewrite IH.
      rewrite (latest_cons_ne "system") by exact Hs.
      rewrite (latest_cons_ne "human") by exact Hh.
      reflexivity.
Qed.

(** C10: for every list of messages, [_format_messages] returns an empty
    chat history, together with the content of the latest system message
    and of the latest human message ([None] when there is none). *)
Theorem format_messages_chat_history_empty (messages : list Message) :
  _format_messages messages =
    ([], latest "system" messages None, latest "human" messages None).
Proof.
  unfold _format_messages.
  rewrite format_loop_empty.
  reflexivity.
Qed.

End CohereFormat.

(** ** The usage accountant *)

Section Usage.
Import CohereModel.

Lemma prepare_usage_data_unfold lax_int usage_data pt ct :
  _prepare_usage_data lax_int (JDict usage_data) pt ct =
    let input_tokens := default (JInt 0) (dict_lookup "input_tokens" usage_data) in
    let output_tokens := default (JInt 0) (dict_lookup "output_tokens" usage_data) in
    match add input_tokens output_tokens with
    | inl e => err e
    | inr total =>
        match int_field lax_int input_tokens with
        | inl e => err e
        | inr p =>
            match int_field lax_int output_tokens with
            | inl e => err e
            | inr c =>
                match int_field lax_int total with
                | inl e => err e
                | inr t => ok (mkUsageData p c t pt ct (pt + ct)%float)
                end
            end
        end
    end.
Proof.
  unfold _prepare_usage_data, get. cbv zeta.
  destruct (dict_lookup "input_tokens" usage_data) as [i|];
    destruct (dict_lookup "output_tokens" usage_data) as [o|];
    cbn [default]; reflexivity.
Qed.

(** C7, as the code has it.  For every usage mapping and every pair of
    elapsed times: when each token counter is an integer or is missing,
    [_prepare_usage_data] returns a record whose counters are those of
    the mapping, a missing one being zero, and whose token total is their
    sum; every record it returns has the two times it was given and
    their sum as its time total; and only the two counters of the mapping
    matter, so that a total sent by the backend is never taken.  But when
    both counters are texts, the total of the record is the integer read
    from the two texts put together, not the sum of the integers read
    from each; and a text beside an integer is a [TypeError]. *)
Theorem prepare_usage_data_totals
    (lax_int : json -> option Z) (usage_data : list (string * json))
    (prompt_elapsed completion_elapsed : float) :
  let counter k := default (JInt 0) (dict_lookup k usage_data) in
  let r := _prepare_usage_data lax_int (JDict usage_data)
             prompt_elapsed completion_elapsed in
  (forall i o,
      counter "input_tokens" = JInt i -> counter "output_tokens" = JInt o ->
      r = ok (mkUsageData i o (i + o) prompt_elapsed completion_elapsed
                (prompt_elapsed + completion_elapsed)%float))
  /\ (forall u, r = ok u ->
        total_time u = (prompt_time u + completion_time u)%float
        /\ prompt_time u = prompt_elapsed
        /\ completion_time u = completion_elapsed)
  /\ (forall usage_data',
        dict_lookup "input_tokens" usage_data' = dict_lookup "input_tokens" usage_data ->
        dict_lookup "output_tokens" usage_data' = dict_lookup "output_tokens" usage_data ->
        _prepare_usage_data lax_int (JDict usage_data')
          prompt_elapsed completion_elapsed = r)
  /\ (forall a b x y z,
        counter "input_tokens" = JStr a -> counter "output_tokens" = JStr b ->
        lax_int (JStr a) = Some x -> lax_int (JStr b) = Some y ->
        lax_int (JStr (a +:+ b)) = Some z ->
        r = ok (mkUsageData x y z prompt_elapsed completion_elapsed
                  (prompt_elapsed + completion_elapsed)%float))
  /\ (forall a o,
        counter "input_tokens" = JStr a -> counter "output_tokens" = JInt o ->
        r = err TypeError).
Proof.
  intros counter r. subst counter r. rewrite prepare_usage_data_unfold. cbv zeta.
  split; [|split; [|split; [|split]]].
  - intros i o -> ->. reflexivity.
  - intros u Hu.
    destruct (add _ _) as [e|total]; [discriminate|].
    destruct (int_field lax_int (default _ (dict_lookup "input_tokens" _))) as [e|p];
      [discriminate|].
    destruct (int_field lax_int (default _ (dict_lookup "output_tokens" _))) as [e|c];
      [discriminate|].
    destruct (int_field lax_int total) as [e|t]; [discriminate|].
    injection Hu as <-. repeat split.
  - intros usage_data' Hi Ho. rewrite prepare_usage_data_unfold. cbv zeta.
    rewrite Hi, Ho. reflexivity.
  - intros a b x y z -> -> Hx Hy Hz.
    cbn [add number int_field ok err]. rewrite Hx. cbn [ok err]. rewrite Hy.
    cbn [ok err]. rewrite Hz. reflexivity.
  - intros a o -> ->. reflexivity.
Qed.

Lemma prepare_usage_data_totals_witness :
  exists u,
    _prepare_usage_data decimal_int
      (JDict [("input_tokens", JStr "3"); ("output_tokens", JStr "4")])
      0.25%float 0.5%float = ok u
    /\ prompt_tokens u = 3 /\ completion_tokens u = 4 /\ total_tokens u = 34
    /\ total_tokens u <> prompt_tokens u + completion_tokens u.
Proof.
  eexists. split.
  - exact (proj1 (proj2 (proj2 (proj2
             (prepare_usage_data_totals decimal_int
                [("input_tokens", JStr "3"); ("output_tokens", JStr "4")]
                0.25%float 0.5%float))))
             "3" "4" 3 4 34 eq_refl eq_refl eq_refl eq_refl eq_refl).
  - cbn. repeat split. discriminate.
Defined.

(** The empty mapping gives the all-zero counters. *)
Lemma prepare_usage_data_empty lax_int (pt ct : float) :
  _prepare_usage_data lax_int (JDict []) pt ct
  = ok (mkUsageData 0 0 0 pt ct (pt + ct)%float).
Proof. reflexivity. Qed.

End Usage.

(** ** Construction *)

Lemma validate_rejects (n : string) (allowed : list string) :
  n <> "" -> n ∉ allowed ->
  exists msg, LLMBase._validate_name_in_allowed_models (Some n) allowed
              = err (ValueError msg).
Proof.
  intros Hne Hnotin. unfold LLMBase._validate_name_in_allowed_models, str_truthy.
  apply String.eqb_neq in Hne. rewrite Hne.
  rewrite bool_decide_eq_false_2 by exact Hnotin.
  simpl. eexists. reflexivity.
Qed.

Lemma validate_cases (name : option string) (allowed : list string) :
  in_validator (LLMBase._validate_name_in_allowed_models name allowed) = ok tt
  \/ exists msg,
       in_validator (LLMBase._validate_name_in_allowed_models name allowed)
       = err (ValidationError msg).
Proof.
  unfold LLMBase._validate_name_in_allowed_models.
  destruct name as [n|]; [|left; reflexivity].
  destruct (str_truthy (Some n) && negb (bool_decide (n ∈ allowed))).
  - right. eexists. reflexivity.
  - left. reflexivity.
Qed.

(** The validator lets an empty or absent name through. *)
Lemma validate_accepts_falsy (allowed : list string) :
  LLMBase._validate_name_in_allowed_models (Some "") allowed = ok tt
  /\ LLMBase._validate_name_in_allowed_models None allowed = ok tt.
Proof. split; reflexivity. Qed.


(** The steps of the image adapter's constructor after the validator. *)
Lemma falai_init_after_validator (data : FalAIImgGenModel.init_data)
    (environ : gmap string string) :
  in_validator
    (LLMBase._validate_name_in_allowed_models (FalAIImgGenModel.data_name data)
       (default FalAIImgGenModel.default_allowed_models
          (FalAIImgGenModel.data_allowed_models data))) = ok tt ->
  default FalAIImgGenModel.default_model_name
    (FalAIImgGenModel.data_model_name data)
  ∉ default FalAIImgGenModel.default_allowed_models
      (FalAIImgGenModel.data_allowed_models data) ->
  exists msg,
    result (FalAIImgGenModel.__init__ (W := Empty_set) data environ)
    = err (ValueError msg).
Proof.
  intros Hv Hmodel. unfold FalAIImgGenModel.__init__.
  rewrite bind_read, Hv, bind_lift_ok.
  rewrite (bool_decide_eq_false_2 _ Hmodel). cbn [negb].
  set (key := match FalAIImgGenModel.data_api_key data with
              | Some k => Some k
              | None => environ !! "FAL_KEY"
              end).
  destruct key as [k|]; [destruct (str_truthy (Some k))|]; eexists; reflexivity.
Qed.

(** C9, as the code has it: a Groq or Cohere adapter is not constructed
    without an API key, nor with a non-empty model name outside the
    allowed models, nor, when no name is passed, with allowed models that
    do not hold the default name of the class; an image adapter is not
    constructed with a model name, passed or default, outside the allowed
    models, nor with a non-empty component name outside them.  Each of
    these constructions ends in a configuration error. *)
Theorem construction_rejects_bad_configuration :
  (forall data,
      GroqToolModel.data_api_key data = None ->
      configuration_error (GroqToolModel.__init__ data))
  /\ (forall data,
      CohereModel.data_api_key data = None ->
      configuration_error (CohereModel.__init__ data))
  /\ (forall data n,
      GroqToolModel.data_name data = Some n -> n <> "" ->
      n ∉ default GroqToolModel.default_allowed_models
            (GroqToolModel.data_allowed_models data) ->
      configuration_error (GroqToolModel.__init__ data))
  /\ (forall data n,
      CohereModel.data_name data = Some n -> n <> "" ->
      n ∉ default CohereModel.default_allowed_models
            (CohereModel.data_allowed_models data) ->
      configuration_error (CohereModel.__init__ data))
  /\ (forall data (environ : gmap string string),
      default FalAIImgGenModel.default_model_name
        (FalAIImgGenModel.data_model_name data)
      ∉ default FalAIImgGenModel.default_allowed_models
          (FalAIImgGenModel.data_allowed_models data) ->
      configuration_error
        (result (FalAIImgGenModel.__init__ (W := Empty_set) data environ)))
  /\ (forall data n (environ : gmap string string),
      FalAIImgGenModel.data_name data = Some n -> n <> "" ->
      n ∉ default FalAIImgGenModel.default_allowed_models
            (FalAIImgGenModel.data_allowed_models data) ->
      configuration_error
        (result (FalAIImgGenModel.__init__ (W := Empty_set) data environ)))
  /\ (forall data allowed,
      GroqToolModel.data_name data = None ->
      GroqToolModel.data_allowed_models data = Some allowed ->
      GroqToolModel.default_name ∉ allowed ->
      configuration_error (GroqToolModel.__init__ data))
  /\ (forall data allowed,
      CohereModel.data_name data = None ->
      CohereModel.data_allowed_models data = Some allowed ->
      CohereModel.default_name ∉ allowed ->
      configuration_error (CohereModel.__init__ data))
  /\ (forall data allowed (environ : gmap string string),
      FalAIImgGenModel.data_model_name data = None ->
      FalAIImgGenModel.data_allowed_models data = Some allowed ->
      FalAIImgGenModel.default_model_name ∉ allowed ->
      configuration_error
        (result (FalAIImgGenModel.__init__ (W := Empty_set) data environ))).
Proof.
  assert (Hfal : forall data (environ : gmap string string),
      default FalAIImgGenModel.default_model_name
        (FalAIImgGenModel.data_model_name data)
      ∉ default FalAIImgGenModel.default_allowed_models
          (FalAIImgGenModel.data_allowed_models data) ->
      configuration_error
        (result (FalAIImgGenModel.__init__ (W := Empty_set) data environ))).
  { intros data environ Hmodel.
    destruct (validate_cases (FalAIImgGenModel.data_name data)
                (default FalAIImgGenModel.default_allowed_models
                   (FalAIImgGenModel.data_allowed_models data))) as [Hv|[msg Hv]].
    + destruct (falai_init_after_validator data environ Hv Hmodel) as [msg ->].
      exact I.
    + unfold FalAIImgGenModel.__init__.
      rewrite bind_read, Hv. exact I. }
  repeat apply conj.
  - intros data Hkey. unfold GroqToolModel.__init__. rewrite Hkey. exact I.
  - intros data Hkey. unfold CohereModel.__init__. rewrite Hkey. exact I.
  - intros data n Hn Hne Hnotin. unfold GroqToolModel.__init__.
    destruct (GroqToolModel.data_api_key data); [|exact I].
    rewrite Hn. cbn [required_field mbind result_bind rbind ok default from_option id].
    destruct (validate_rejects n _ Hne Hnotin) as [msg ->]. exact I.
  - intros data n Hn Hne Hnotin. unfold CohereModel.__init__.
    destruct (CohereModel.data_api_key data); [|exact I].
    rewrite Hn. cbn [required_field mbind result_bind rbind ok default from_option id].
    destruct (validate_rejects n _ Hne Hnotin) as [msg ->]. exact I.
  - exact Hfal.
  - intros data n environ Hn Hne Hnotin.
    unfold FalAIImgGenModel.__init__.
    rewrite bind_read, Hn.
    destruct (validate_rejects n _ Hne Hnotin) as [msg ->]. exact I.
  - intros data allowed Hn Hallowed Hnotin. unfold GroqToolModel.__init__.
    destruct (GroqToolModel.data_api_key data); [|exact I].
    rewrite Hn, Hallowed.
    cbn [required_field mbind result_bind rbind ok default from_option id].
    destruct (validate_rejects GroqToolModel.default_name allowed
                ltac:(discriminate) Hnotin) as [msg ->].
    exact I.
  - intros data allowed Hn Hallowed Hnotin. unfold CohereModel.__init__.
    destruct (CohereModel.data_api_key data); [|exact I].
    rewrite Hn, Hallowed.
    cbn [required_field mbind result_bind rbind ok default from_option id].
    destruct (validate_rejects CohereModel.default_name allowed
                ltac:(discriminate) Hnotin) as [msg ->].
    exact I.
  - intros data allowed environ Hn Hallowed Hnotin. apply Hfal.
    rewrite Hn, Hallowed. exact Hnotin.
Qed.

(** With no key among the arguments and none in the environment, the
    image adapter is constructed all the same, with [api_key] left at
    [None]; nothing is exported to the environment. *)
Lemma falai_constructed_without_credential :
  FalAIImgGenModel.__init__ (W := Empty_set) no_arguments_falai ∅ =
    mkOutcome
      (ok (FalAIImgGenModel.mk
             [ "fal-ai/flux-pro"; "fal-ai/flux-pro/new"; "fal-ai/flux-pro/v1.1" ]
             None "fal-ai/flux-pro" None 60 1%float "https://queue.fal.run"
             [("Content-Type", "application/json"); ("Authorization", "Key None")]))
      ∅ [].
Proof. reflexivity. Qed.

(** An empty model name is outside the allowed models and is accepted. *)
Lemma groq_constructed_with_empty_name :
  exists self,
    GroqToolModel.__init__ (GroqToolModel.mk_data (Some "gsk") None (Some "")) = ok self
    /\ GroqToolModel.name self = ""
    /\ GroqToolModel.name self ∉ GroqToolModel.allowed_models self.
Proof.
  eexists. split; [reflexivity|]. split; [reflexivity|].
  cbn. apply (bool_decide_eq_false_1 _). reflexivity.
Qed.

Lemma construction_rejects_bad_configuration_witness :
  configuration_error
    (GroqToolModel.__init__ (GroqToolModel.mk_data None None None))
  /\ configuration_error
       (CohereModel.__init__ (CohereModel.mk_data (Some "key") None (Some "gpt-4") None))
  /\ configuration_error
       (result (FalAIImgGenModel.__init__ (W := Empty_set)
                  (FalAIImgGenModel.mk_data None (Some "key") (Some "dall-e") None None None)
                  ∅))
  /\ configuration_error
       (GroqToolModel.__init__
          (GroqToolModel.mk_data (Some "gsk") (Some ["llama3-8b-8192"]) None)).
Proof.
  destruct construction_rejects_bad_configuration
    as (Hkey & _ & _ & Hname & Hmodel & _ & Hdefault & _).
  split; [|split; [|split]].
  - apply Hkey. reflexivity.
  - apply (Hname _ "gpt-4"); [reflexivity|discriminate|].
    apply (bool_decide_eq_false_1 _). reflexivity.
  - apply Hmodel. apply (bool_decide_eq_false_1 _). reflexivity.
  - apply (Hdefault _ ["llama3-8b-8192"]); [reflexivity|reflexivity|].
    apply (bool_decide_eq_false_1 _). reflexivity.
Defined.

(** ** The response of the Groq adapter *)

Lemma extend_nil c : extend c [] = c.
Proof. destruct c as [h]. unfold extend. simpl. rewrite app_nil_r. reflexivity. Qed.

Lemma extend_extend c ms ms' : extend (extend c ms) ms' = extend c (ms ++ ms').
Proof. unfold extend. simpl. rewrite app_assoc. reflexivity. Qed.

Lemma add_message_extend m c : add_message_to m c = extend c [m].
Proof. reflexivity. Qed.

Section GroqResponse.
Import GroqToolModel.
Context {W : Type}.
Variable json_loads : string -> Result json.
Variable json_dumps : json -> string.
Variable convert : Tool -> json.

Lemma contains_dict k fields :
  contains k (JDict fields) = ok (bool_decide (is_Some (dict_lookup k fields))).
Proof. reflexivity. Qed.

(** [process_response] on a well-formed response: the assistant message,
    if any, then the tool calls. *)
Lemma process_response_phases toolkit tool_response fields pre c :
  message_of tool_response = ok (JDict fields) ->
  content_messages fields = ok pre ->
  process_response json_loads json_dumps toolkit tool_response c =
    tool_phase (W := W) json_loads json_dumps toolkit fields (extend c pre).
Proof.
  intros Hmsg Hpre. unfold process_response, message_of in *.
  destruct (getitem tool_response "choices") as [e|choices]; [discriminate|].
  rewrite bind_lift_ok. cbn [mbind result_bind rbind] in Hmsg.
  destruct (getitem0 choices) as [e|choice]; [discriminate|].
  rewrite bind_lift_ok. cbn [mbind result_bind rbind] in Hmsg.
  rewrite Hmsg, bind_lift_ok, contains_dict, bind_lift_ok.
  unfold content_messages in Hpre. unfold getitem at 1.
  destruct (dict_lookup "content" fields) as [v|] eqn:Hc.
  - rewrite bool_decide_eq_true_2 by eauto.
    destruct (AgentMessage v None) as [e|m] eqn:Hm; [discriminate|].
    injection Hpre as <-.
    rewrite bind_bind, bind_lift_ok, bind_bind, Hm, bind_lift_ok.
    unfold conversation_add_message. rewrite bind_modify.
    reflexivity.
  - rewrite bool_decide_eq_false_2 by (intros [? ?]; discriminate).
    injection Hpre as <-. rewrite bind_ret, extend_nil. reflexivity.
Qed.

Lemma tool_phase_no_tool_calls toolkit fields c :
  no_tool_calls fields ->
  tool_phase (W := W) json_loads json_dumps toolkit fields c = mkOutcome (ok tt) c [].
Proof.
  unfold no_tool_calls, tool_phase, get. intros H.
  destruct (dict_lookup "tool_calls" fields) as [v|].
  - rewrite bind_lift_ok, H. reflexivity.
  - rewrite bind_lift_ok. reflexivity.
Qed.

Lemma predict_unfold self net toolkit tool_choice temperature max_tokens c tool_response :
  post net (_api_url self) (_headers self)
    (payload_of convert self toolkit tool_choice temperature max_tokens c)
  = ok tool_response ->
  predict (W := W) json_loads json_dumps convert self net toolkit tool_choice
    temperature max_tokens c
  = process_response json_loads json_dumps toolkit tool_response c.
Proof.
  intros Hpost. unfold predict. rewrite bind_read, Hpost, bind_lift_ok. reflexivity.
Qed.

End GroqResponse.

(** ** Responses without tool calls *)

Lemma agent_message_role c u m : AgentMessage c u = ok m -> role m = "assistant".
Proof. destruct c; simpl; intros H; try discriminate; injection H as <-; reflexivity. Qed.

(** C3, as the code has it: when the response carries no tool call,
    [GroqToolModel.predict] appends one assistant message if the message
    object of the response has a [content] key and none if it has not,
    and [CohereModel.predict] appends exactly one assistant message; both
    return the conversation so extended. *)
Theorem predict_without_tool_calls :
  (forall (W : Type) json_loads json_dumps convert self net toolkit tool_choice
      temperature max_tokens conversation tool_response fields pre,
      post net (GroqToolModel._api_url self) (GroqToolModel._headers self)
        (GroqToolModel.payload_of convert self toolkit tool_choice
           temperature max_tokens conversation) = ok tool_response ->
      message_of tool_response = ok (JDict fields) ->
      no_tool_calls fields ->
      content_messages fields = ok pre ->
      GroqToolModel.predict (W := W) json_loads json_dumps convert self net
        toolkit tool_choice temperature max_tokens conversation
      = mkOutcome (ok tt) (extend conversation pre) []
      /\ length pre
         = (if bool_decide (is_Some (dict_lookup "content" fields)) then 1 else 0)%nat
      /\ Forall (fun m => role m = "assistant") pre)
  /\ (forall (W : Type) lax_int self net dur temperature max_tokens conversation
        data c u usage m,
      post net (CohereModel.base_url self +:+ "/chat") (CohereModel.headers self)
        (CohereModel.payload_of self temperature max_tokens false conversation)
      = ok data ->
      getitem data "text" = ok c ->
      get data "usage" (JDict []) = ok u ->
      CohereModel._prepare_usage_data lax_int u
        (prompt_duration dur) (completion_duration dur) = ok usage ->
      AgentMessage c (Some usage) = ok m ->
      CohereModel.predict (W := W) lax_int self net dur temperature max_tokens conversation
      = mkOutcome (ok tt) (extend conversation [m]) []
      /\ role m = "assistant").
Proof.
  split.
  - intros W json_loads json_dumps convert self net toolkit tool_choice
      temperature max_tokens conversation tool_response fields pre
      Hpost Hmsg Hno Hpre.
    rewrite (predict_unfold _ _ _ _ _ _ _ _ _ _ _ Hpost).
    rewrite (process_response_phases _ _ _ _ _ _ _ Hmsg Hpre).
    rewrite (tool_phase_no_tool_calls _ _ _ _ _ Hno).
    split; [reflexivity|].
    unfold content_messages in Hpre.
    destruct (dict_lookup "content" fields) as [v|].
    + rewrite bool_decide_eq_true_2 by eauto.
      destruct (AgentMessage v None) as [e|m] eqn:Hm; [discriminate|].
      injection Hpre as <-. split; [reflexivity|].
      constructor; [|constructor]. exact (agent_message_role _ _ _ Hm).
    + rewrite bool_decide_eq_false_2 by (intros [? ?]; discriminate).
      injection Hpre as <-. split; [reflexivity|constructor].
  - intros W lax_int self net dur temperature max_tokens conversation data c u usage m
      Hpost Htext Husage Hcounters Hm.
    split; [|exact (agent_message_role _ _ _ Hm)].
    unfold CohereModel.predict. rewrite bind_read, Hpost, bind_lift_ok.
    unfold CohereModel.complete.
    rewrite Htext, bind_lift_ok, Husage, bind_lift_ok, Hcounters, bind_lift_ok.
    rewrite Hm, bind_lift_ok.
    reflexivity.
Qed.

(** A response whose message object has neither [content] nor
    [tool_calls]: the Groq adapter returns the conversation as it was. *)
Lemma groq_predict_appends_nothing :
  GroqToolModel.predict (W := Empty_set) rejects_all (fun _ => "") (fun _ => JNull)
    groq_self (replies_with (response_with [("role", JStr "assistant")]) [])
    None None 0.5%float 1024
    (mkConversation [human "hello"])
  = mkOutcome (ok tt) (mkConversation [human "hello"]) [].
Proof. reflexivity. Qed.

Lemma predict_without_tool_calls_witness :
  GroqToolModel.predict (W := Empty_set) rejects_all (fun _ => "") (fun _ => JNull)
    groq_self (replies_with (response_with [("content", JStr "Hi")]) [])
    None None 0.5%float 1024
    (mkConversation [human "hello"])
  = mkOutcome (ok tt)
      (mkConversation [human "hello"; mkMessage "assistant" (Some "Hi") None None None])
      []
  /\ CohereModel.predict (W := Empty_set) decimal_int cohere_self
       (replies_with (JDict [("text", JStr "Hi")]) []) no_durations 0.5%float 256
       (mkConversation [human "hello"])
     = mkOutcome (ok tt)
         (mkConversation
            [human "hello";
             mkMessage "assistant" (Some "Hi") None None
               (Some (mkUsageData 0 0 0 0 0 0))])
         [].
Proof.
  destruct predict_without_tool_calls as [Hgroq Hcohere].
  split.
  - exact (proj1 (Hgroq Empty_set rejects_all (fun _ => "") (fun _ => JNull)
             groq_self (replies_with (response_with [("content", JStr "Hi")]) [])
             None None 0.5%float 1024 (mkConversation [human "hello"])
             (response_with [("content", JStr "Hi")]) [("content", JStr "Hi")]
             [mkMessage "assistant" (Some "Hi") None None None]
             eq_refl eq_refl I eq_refl)).
  - exact (proj1 (Hcohere Empty_set decimal_int cohere_self
             (replies_with (JDict [("text", JStr "Hi")]) []) no_durations
             0.5%float 256 (mkConversation [human "hello"])
             (JDict [("text", JStr "Hi")]) (JStr "Hi") (JDict [])
             (mkUsageData 0 0 0 0 0 0)
             (mkMessage "assistant" (Some "Hi") None None
                (Some (mkUsageData 0 0 0 0 0 0)))
             eq_refl eq_refl eq_refl eq_refl eq_refl)).
Defined.

(** ** The tool-call loop *)

Section ToolLoop.
Import GroqToolModel.
Context {W : Type}.
Variable json_loads : string -> Result json.
Variable json_dumps : json -> string.
Variable convert : Tool -> json.

Lemma call_tool_answers toolkit tool_call m c :
  answers json_loads json_dumps toolkit tool_call m ->
  call_tool (W := W) json_loads json_dumps (Some toolkit) tool_call c
  = mkOutcome (ok tt) (extend c [m]) [].
Proof.
  intros (fn & n & tool & arguments & kwargs & r & id
          & Hfn & Hname & Htool & Hargs & Hloads & Hcall & Hid & ->).
  unfold call_tool.
  rewrite Hfn, bind_lift_ok, Hname, bind_lift_ok.
  unfold get_tool_by_name. rewrite Htool, bind_lift_ok.
  rewrite Hargs, bind_lift_ok.
  unfold loads. rewrite Hloads, bind_lift_ok.
  unfold invoke. rewrite Hcall, bind_lift_ok.
  rewrite Hid, bind_lift_ok.
  unfold FunctionMessage. rewrite bind_lift_ok.
  reflexivity.
Qed.

Lemma call_tool_unresolvable toolkit tool_call func_name c :
  unresolvable toolkit tool_call func_name ->
  call_tool (W := W) json_loads json_dumps (Some toolkit) tool_call c
  = mkOutcome (err (ToolNotFound func_name)) c [].
Proof.
  intros (fn & Hfn & Hname & Hnone).
  unfold call_tool.
  rewrite Hfn, bind_lift_ok, Hname, bind_lift_ok.
  unfold get_tool_by_name.
  destruct func_name as [| | | |n| |]; try reflexivity.
  rewrite (Hnone n eq_refl). reflexivity.
Qed.

(** The loop over resolvable requests appends their messages in order. *)
Lemma for_each_answers toolkit tool_calls ms c :
  Forall2 (answers json_loads json_dumps toolkit) tool_calls ms ->
  for_each tool_calls (call_tool (W := W) json_loads json_dumps (Some toolkit)) c
  = mkOutcome (ok tt) (extend c ms) [].
Proof.
  intros H. revert c. induction H as [|tc m tcs ms Hm _ IH]; intros c.
  - simpl. unfold ret. rewrite extend_nil. reflexivity.
  - simpl for_each.
    rewrite (bind_ok _ _ c tt) by (rewrite (call_tool_answers _ _ _ _ Hm); reflexivity).
    rewrite (call_tool_answers _ _ _ _ Hm). cbn [final yielded].
    rewrite IH. cbn [result final yielded app].
    rewrite extend_extend. reflexivity.
Qed.

(** The loop stops at the first request it cannot resolve: the messages
    of the requests before it stay, nothing is appended for it or for the
    requests after it. *)
Lemma for_each_unresolvable toolkit before tool_call after ms func_name c :
  Forall2 (answers json_loads json_dumps toolkit) before ms ->
  unresolvable toolkit tool_call func_name ->
  for_each (before ++ tool_call :: after)
    (call_tool (W := W) json_loads json_dumps (Some toolkit)) c
  = mkOutcome (err (ToolNotFound func_name)) (extend c ms) [].
Proof.
  intros H Hbad. revert c. induction H as [|tc m tcs ms Hm _ IH]; intros c.
  - simpl. rewrite extend_nil.
    rewrite (bind_err _ _ c (ToolNotFound func_name))
      by (rewrite (call_tool_unresolvable _ _ _ _ Hbad); reflexivity).
    rewrite (call_tool_unresolvable _ _ _ _ Hbad). reflexivity.
  - simpl for_each.
    rewrite (bind_ok _ _ c tt) by (rewrite (call_tool_answers _ _ _ _ Hm); reflexivity).
    rewrite (call_tool_answers _ _ _ _ Hm). cbn [final yielded].
    rewrite IH. cbn [result final yielded app].
    rewrite extend_extend. reflexivity.
Qed.

Lemma tool_phase_list toolkit fields tool_calls c :
  dict_lookup "tool_calls" fields = Some (JList tool_calls) ->
  tool_phase (W := W) json_loads json_dumps toolkit fields c
  = for_each tool_calls (call_tool json_loads json_dumps toolkit) c.
Proof.
  intros H. unfold tool_phase, get. rewrite H, bind_lift_ok.
  destruct tool_calls as [|tc tcs]; [reflexivity|].
  cbn [truthy negb]. rewrite bool_decide_eq_false_2 by discriminate.
  cbn [negb iter]. rewrite bind_lift_ok. reflexivity.
Qed.

Lemma answers_tool toolkit tool_call m :
  answers json_loads json_dumps toolkit tool_call m ->
  role m = "tool" /\ is_Some (tool_call_id m) /\ is_Some (content m).
Proof.
  intros (fn & n & tool & arguments & kwargs & r & id & _ & _ & _ & _ & _ & _ & _ & ->).
  simpl. eauto.
Qed.

End ToolLoop.

(** C1: when every tool-call request of the response is answered by the
    toolkit (the tool is registered, the arguments parse, the tool
    returns), [predict] and [apredict] append, after the assistant message
    of the response if it has one, one tool message per request, in the
    order of the requests, each with the id of its request and the
    serialized result of the tool as content. *)
Theorem tool_loop_appends_in_request_order
    (W : Type) (json_loads : string -> Result json) (json_dumps : json -> string)
    (convert : Tool -> json) (self : GroqToolModel.t) (net : Network)
    (toolkit : Toolkit) (tool_choice : option string) (temperature : float)
    (max_tokens : Z) (conversation : Conversation) (tool_response : json)
    (fields : list (string * json)) (pre : list Message)
    (tool_calls : list json) (ms : list Message) :
  post net (GroqToolModel._api_url self) (GroqToolModel._headers self)
    (GroqToolModel.payload_of convert self (Some toolkit) tool_choice
       temperature max_tokens conversation) = ok tool_response ->
  message_of tool_response = ok (JDict fields) ->
  content_messages fields = ok pre ->
  dict_lookup "tool_calls" fields = Some (JList tool_calls) ->
  Forall2 (answers json_loads json_dumps toolkit) tool_calls ms ->
  GroqToolModel.predict (W := W) json_loads json_dumps convert self net
    (Some toolkit) tool_choice temperature max_tokens conversation
  = mkOutcome (ok tt) (extend conversation (pre ++ ms)) []
  /\ GroqToolModel.apredict (W := W) json_loads json_dumps convert self net
       (Some toolkit) tool_choice temperature max_tokens conversation
     = mkOutcome (ok tt) (extend conversation (pre ++ ms)) []
  /\ length ms = length tool_calls
  /\ Forall (fun m => role m = "tool") ms.
Proof.
  intros Hpost Hmsg Hpre Hcalls Hans.
  assert (Hrun :
    GroqToolModel.predict (W := W) json_loads json_dumps convert self net
      (Some toolkit) tool_choice temperature max_tokens conversation
    = mkOutcome (ok tt) (extend conversation (pre ++ ms)) []).
  { rewrite (predict_unfold _ _ _ _ _ _ _ _ _ _ _ Hpost).
    rewrite (process_response_phases _ _ _ _ _ _ _ Hmsg Hpre).
    rewrite (tool_phase_list _ _ _ _ _ _ Hcalls).
    rewrite (for_each_answers _ _ _ _ _ _ Hans).
    rewrite extend_extend. reflexivity. }
  split; [exact Hrun|]. split; [exact Hrun|]. split.
  - symmetry. exact (Forall2_length _ _ _ Hans).
  - clear Hrun Hcalls. induction Hans as [|tc m tcs ms' Hm _ IH]; constructor.
    + exact (proj1 (answers_tool _ _ _ _ _ Hm)).
    + exact IH.
Qed.

(** C2: when the requests before the k-th are answered and the k-th
    names a tool the toolkit does not have, [predict] fails with
    [ToolNotFound]; the conversation then holds the assistant message of
    the response, if it has one, and the tool messages of the requests
    before the k-th, and nothing for the k-th request or a later one. *)
Theorem tool_loop_stops_at_unknown_tool
    (W : Type) (json_loads : string -> Result json) (json_dumps : json -> string)
    (convert : Tool -> json) (self : GroqToolModel.t) (net : Network)
    (toolkit : Toolkit) (tool_choice : option string) (temperature : float)
    (max_tokens : Z) (conversation : Conversation) (tool_response : json)
    (fields : list (string * json)) (pre : list Message)
    (before after : list json) (tool_call func_name : json) (ms : list Message) :
  post net (GroqToolModel._api_url self) (GroqToolModel._headers self)
    (GroqToolModel.payload_of convert self (Some toolkit) tool_choice
       temperature max_tokens conversation) = ok tool_response ->
  message_of tool_response = ok (JDict fields) ->
  content_messages fields = ok pre ->
  dict_lookup "tool_calls" fields = Some (JList (before ++ tool_call :: after)) ->
  Forall2 (answers json_loads json_dumps toolkit) before ms ->
  unresolvable toolkit tool_call func_name ->
  GroqToolModel.predict (W := W) json_loads json_dumps convert self net
    (Some toolkit) tool_choice temperature max_tokens conversation
  = mkOutcome (err (ToolNotFound func_name)) (extend conversation (pre ++ ms)) []
  /\ length ms = length before.
Proof.
  intros Hpost Hmsg Hpre Hcalls Hans Hbad.
  split; [|symmetry; exact (Forall2_length _ _ _ Hans)].
  rewrite (predict_unfold _ _ _ _ _ _ _ _ _ _ _ Hpost).
  rewrite (process_response_phases _ _ _ _ _ _ _ Hmsg Hpre).
  rewrite (tool_phase_list _ _ _ _ _ _ Hcalls).
  rewrite (for_each_unresolvable _ _ _ _ _ _ _ _ _ Hans Hbad).
  rewrite extend_extend. reflexivity.
Qed.

(** *** The scenario of the specification: a toolkit with [add] *)

Lemma add_request_answered id :
  answers loads_add dumps_int add_toolkit (request id "add" add_arguments)
    (mkMessage "tool" (Some "3") (Some "add") (Some id) None).
Proof.
  exists (JDict [("name", JStr "add"); ("arguments", JStr add_arguments)]),
    "add", add_tool, add_arguments, [("a", JInt 1); ("b", JInt 2)], (JInt 3), id.
  repeat split; reflexivity.
Qed.

Lemma tool_loop_appends_in_request_order_witness :
  GroqToolModel.predict (W := Empty_set) loads_add dumps_int (fun _ => JNull)
    groq_self
    (replies_with two_requests [])
    (Some add_toolkit) None 0.5%float 1024
    (mkConversation [human "what is 1 + 2?"])
  = mkOutcome (ok tt)
      (mkConversation
         [human "what is 1 + 2?";
          mkMessage "assistant" None None None None;
          mkMessage "tool" (Some "3") (Some "add") (Some "call_1") None;
          mkMessage "tool" (Some "3") (Some "add") (Some "call_2") None])
      [].
Proof.
  refine (proj1 (tool_loop_appends_in_request_order Empty_set loads_add dumps_int
                   (fun _ => JNull) groq_self (replies_with two_requests [])
                   add_toolkit None 0.5%float 1024
                   (mkConversation [human "what is 1 + 2?"]) two_requests _
                   [mkMessage "assistant" None None None None]
                   [request "call_1" "add" add_arguments;
                    request "call_2" "add" add_arguments]
                   [mkMessage "tool" (Some "3") (Some "add") (Some "call_1") None;
                    mkMessage "tool" (Some "3") (Some "add") (Some "call_2") None]
                   eq_refl eq_refl eq_refl eq_refl _)).
  repeat constructor; apply add_request_answered.
Defined.

Lemma mul_request_unresolvable id arguments :
  unresolvable add_toolkit (request id "mul" arguments) (JStr "mul").
Proof.
  exists (JDict [("name", JStr "mul"); ("arguments", JStr arguments)]).
  split; [reflexivity|]. split; [reflexivity|].
  intros n Hn. injection Hn as <-. reflexivity.
Qed.

Lemma tool_loop_stops_at_unknown_tool_witness :
  GroqToolModel.predict (W := Empty_set) loads_add dumps_int (fun _ => JNull)
    groq_self
    (replies_with three_requests [])
    (Some add_toolkit) None 0.5%float 1024
    (mkConversation [human "what is 1 + 2?"])
  = mkOutcome (err (ToolNotFound (JStr "mul")))
      (mkConversation
         [human "what is 1 + 2?";
          mkMessage "assistant" None None None None;
          mkMessage "tool" (Some "3") (Some "add") (Some "call_1") None])
      [].
Proof.
  refine (proj1 (tool_loop_stops_at_unknown_tool Empty_set loads_add dumps_int
                   (fun _ => JNull) groq_self (replies_with three_requests [])
                   add_toolkit None 0.5%float 1024
                   (mkConversation [human "what is 1 + 2?"]) three_requests _
                   [mkMessage "assistant" None None None None]
                   [request "call_1" "add" add_arguments]
                   [request "call_3" "add" add_arguments]
                   (request "call_2" "mul" add_arguments) (JStr "mul")
                   [mkMessage "tool" (Some "3") (Some "add") (Some "call_1") None]
                   eq_refl eq_refl eq_refl eq_refl _ _)).
  - repeat constructor; apply add_request_answered.
  - apply mul_request_unresolvable.
Defined.

(** ** Malformed lines in a stream *)

Section CohereStream.
Import CohereModel.
Variable json_loads : string -> Result json.

Lemma stream_lines_cons line rest acc u :
  stream_lines json_loads (line :: rest) acc u =
    if negb (String.eqb line "") then
      chunk <- lift (json_loads line) ;;
      has_text <- lift (contains "text" chunk) ;;
      if has_text then
        content <- lift (getitem chunk "text") ;;
        yield content ;;;
        stream_lines json_loads rest (acc ++ [content]) u
      else
        has_usage <- lift (contains "usage" chunk) ;;
        if has_usage then
          u' <- lift (getitem chunk "usage") ;;
          stream_lines json_loads rest acc u'
        else stream_lines json_loads rest acc u
    else stream_lines json_loads rest acc u.
Proof. reflexivity. Qed.

(** The loop over a list of lines in two parts. *)
Lemma stream_lines_app l1 l2 acc u c :
  stream_lines json_loads (l1 ++ l2) acc u c =
    bind (stream_lines json_loads l1 acc u)
         (fun r => stream_lines json_loads l2 (fst r) (snd r)) c.
Proof.
  revert acc u c. induction l1 as [|line l1 IH]; intros acc u c.
  - simpl app. cbn [stream_lines]. rewrite bind_ret. reflexivity.
  - simpl app. rewrite !stream_lines_cons.
    destruct (negb (String.eqb line "")); [|apply IH].
    rewrite bind_bind.
    destruct (json_loads line) as [e|chunk]; [reflexivity|].
    rewrite !bind_lift_ok, bind_bind.
    destruct (contains "text" chunk) as [e|[|]]; [reflexivity| |].
    + rewrite !bind_lift_ok, bind_bind.
      destruct (getitem chunk "text") as [e|content]; [reflexivity|].
      rewrite !bind_lift_ok, bind_bind, !bind_yield, IH. reflexivity.
    + rewrite !bind_lift_ok, bind_bind.
      destruct (contains "usage" chunk) as [e|[|]]; [reflexivity| |].
      * rewrite !bind_lift_ok, bind_bind.
        destruct (getitem chunk "usage") as [e|u']; [reflexivity|].
        rewrite !bind_lift_ok. apply IH.
      * rewrite !bind_lift_ok. apply IH.
Qed.

(** A line that [json.loads] rejects ends the loop with the exception. *)
Lemma stream_lines_malformed line rest acc u c e :
  line <> "" ->
  json_loads line = err e ->
  stream_lines json_loads (line :: rest) acc u c = mkOutcome (err e) c [].
Proof.
  intros Hne Hbad. rewrite stream_lines_cons.
  apply String.eqb_neq in Hne. rewrite Hne. cbn [negb].
  rewrite Hbad. reflexivity.
Qed.

End CohereStream.

(** C8 on [CohereModel.stream]: a non-empty line that [json.loads]
    rejects, after lines that were read without error, ends the stream
    with [JSONDecodeError]: the caller has received the fragments of the
    earlier lines only, and no assistant message is appended. *)
Theorem cohere_stream_aborts_on_malformed_line
    (json_loads : string -> Result json) (lax_int : json -> option Z)
    (self : CohereModel.t) (net : Network)
    (dur : Durations) (temperature : float) (max_tokens : Z)
    (conversation : Conversation) (before after : list string) (line : string)
    (acc fragments : list json) (u : json) :
  post_stream net (CohereModel.base_url self +:+ "/chat") (CohereModel.headers self)
    (CohereModel.payload_of self temperature max_tokens true conversation)
  = ok (before ++ line :: after) ->
  CohereModel.stream_lines json_loads before [] (JDict []) conversation
  = mkOutcome (ok (acc, u)) conversation fragments ->
  line <> "" ->
  json_loads line = err (JSONDecodeError line) ->
  CohereModel.stream json_loads lax_int self net dur temperature max_tokens conversation
  = mkOutcome (err (JSONDecodeError line)) conversation fragments.
Proof.
  intros Hpost Hbefore Hne Hbad.
  unfold CohereModel.stream.
  rewrite bind_read, Hpost, bind_lift_ok.
  rewrite (bind_err _ _ _ (JSONDecodeError line)).
  - rewrite stream_lines_app.
    rewrite (bind_ok _ _ _ (acc, u)) by (rewrite Hbefore; reflexivity).
    rewrite Hbefore. cbn [final yielded fst snd].
    rewrite (stream_lines_malformed _ _ _ _ _ _ _ Hne Hbad).
    cbn [result final yielded]. rewrite app_nil_r. reflexivity.
  - rewrite stream_lines_app.
    rewrite (bind_ok _ _ _ (acc, u)) by (rewrite Hbefore; reflexivity).
    rewrite Hbefore. cbn [final yielded fst snd result].
    rewrite (stream_lines_malformed _ _ _ _ _ _ _ Hne Hbad). reflexivity.
Qed.

Lemma cohere_stream_aborts_on_malformed_line_witness :
  CohereModel.stream loads_text_event decimal_int cohere_self
    (replies_with JNull [text_event "Hel"; "<html>"; text_event "lo"])
    no_durations 0.5%float 256 (mkConversation [human "hello"])
  = mkOutcome (err (JSONDecodeError "<html>")) (mkConversation [human "hello"])
      [JStr "Hel"].
Proof.
  refine (cohere_stream_aborts_on_malformed_line loads_text_event decimal_int
            cohere_self
            (replies_with JNull [text_event "Hel"; "<html>"; text_event "lo"])
            no_durations 0.5%float 256 (mkConversation [human "hello"])
            [text_event "Hel"] [text_event "lo"] "<html>"
            [JStr "Hel"] [JStr "Hel"] (JDict [])
            eq_refl eq_refl _ eq_refl).
  discriminate.
Defined.

(** Without the malformed line the same stream is read to its end and the
    assistant message is appended. *)
Lemma cohere_stream_well_formed_lines :
  CohereModel.stream loads_text_event decimal_int cohere_self
    (replies_with JNull [text_event "Hel"; text_event "lo"])
    no_durations 0.5%float 256 (mkConversation [human "hello"])
  = mkOutcome (ok tt)
      (mkConversation
         [human "hello";
          mkMessage "assistant" (Some "Hello") None None
            (Some (mkUsageData 0 0 0 0 0 0))])
      [JStr "Hel"; JStr "lo"].
Proof. reflexivity. Qed.

(** *** The Groq adapter passes over such a line *)

Section GroqStream.
Import GroqToolModel.
Variable json_loads : string -> Result json.

Lemma groq_stream_skips_malformed_line line rest message_content c :
  malformed json_loads line = true ->
  stream_lines json_loads (line :: rest) message_content c
  = stream_lines json_loads rest message_content c.
Proof.
  unfold malformed. intros Hbad. cbn [stream_lines].
  unfold bind at 1, try_except, stream_chunk.
  destruct (negb (String.eqb (str_replace "data: " "" line) "")).
  - destruct (json_loads (str_replace "data: " "" line)) as [[]|]; try discriminate.
    rewrite bind_lift_err. cbn.
    destruct (stream_lines json_loads rest message_content c); reflexivity.
  - cbn. destruct (stream_lines json_loads rest message_content c); reflexivity.
Qed.

(** The loop of [GroqToolModel.stream] yields and accumulates what it
    would on the lines that are not malformed. *)
Lemma groq_stream_ignores_malformed_lines lines message_content c :
  stream_lines json_loads lines message_content c
  = stream_lines json_loads (List.filter (fun l => negb (malformed json_loads l)) lines)
      message_content c.
Proof.
  revert message_content c. induction lines as [|line rest IH]; intros mc c.
  - reflexivity.
  - cbn [List.filter]. destruct (malformed json_loads line) eqn:Hbad; cbn [negb].
    + rewrite groq_stream_skips_malformed_line by exact Hbad. apply IH.
    + cbn [stream_lines]. unfold bind.
      destruct (try_except _ _ _ c) as [[e|mc'] c' w]; cbn; [reflexivity|].
      rewrite IH. reflexivity.
Qed.

End GroqStream.

(** ** The job poller *)

Section Poller.
Import FalAIImgGenModel.
Variable svc : Service.
Variable self : t.
Variable request_id : string.

Lemma http_get_run {B} url (k : json -> M nat event B) n :
  bind (http_get svc url) k n =
    mkOutcome (result (bind (lift (svc n url)) k (S n)))
      (final (bind (lift (svc n url)) k (S n)))
      (Get url :: yielded (bind (lift (svc n url)) k (S n))).
Proof.
  unfold http_get.
  rewrite bind_bind, bind_read, bind_bind, bind_modify, bind_bind, bind_yield.
  reflexivity.
Qed.

Variable sleep : float -> M nat event unit.
Hypothesis sleep_waits :
  forall n, sleep (retry_delay self) n = mkOutcome (ok tt) n [Sleep (retry_delay self)].

Lemma poll_retry k n status_data :
  svc n (status_url self request_id) = ok status_data ->
  non_terminal status_data ->
  poll sleep svc self request_id (S k) n =
    mkOutcome (result (poll sleep svc self request_id k (S n)))
      (final (poll sleep svc self request_id k (S n)))
      (Get (status_url self request_id) :: Sleep (retry_delay self)
         :: yielded (poll sleep svc self request_id k (S n))).
Proof.
  intros Hsvc (s & Hstatus & Hs). cbn [poll]. unfold _check_status.
  rewrite http_get_run, Hsvc, bind_lift_ok, Hstatus, bind_lift_ok.
  assert (Hc : is_str_eq "COMPLETED" (JStr s) = false)
    by (destruct Hs as [-> | ->]; reflexivity).
  assert (Hq : is_str_eq "IN_QUEUE" (JStr s) || is_str_eq "IN_PROGRESS" (JStr s) = true)
    by (destruct Hs as [-> | ->]; reflexivity).
  rewrite Hc, Hq.
  unfold bind at 1 2 3. rewrite sleep_waits. reflexivity.
Qed.


(** Polls that all see a non-terminal status use up the retries. *)
Lemma poll_times_out k n :
  (forall j, (j < k)%nat ->
     exists d, svc (n + j)%nat (status_url self request_id) = ok d /\ non_terminal d) ->
  poll sleep svc self request_id k n =
    mkOutcome (err (TimeoutError (timeout_message request_id))) (n + k)%nat (polls self request_id k).
Proof.
  revert n. induction k as [|k IH]; intros n Hall.
  - cbn. rewrite Nat.add_0_r. reflexivity.
  - destruct (Hall O ltac:(lia)) as (d & Hd & Hnt). rewrite Nat.add_0_r in Hd.
    rewrite (poll_retry _ _ _ Hd Hnt), IH.
    + cbn [result final yielded polls]. rewrite Nat.add_succ_r. reflexivity.
    + intros j Hj. destruct (Hall (S j) ltac:(lia)) as (d' & Hd' & Hnt').
      exists d'. rewrite Nat.add_succ_r in Hd'. split; assumption.
Qed.


End Poller.

Lemma string_app_nil_r (s : string) : s +:+ "" = s.
Proof.
  induction s as [|a s IH]; [reflexivity|].
  change (String a s +:+ "") with (String a (s +:+ "")). rewrite IH. reflexivity.
Qed.

Lemma status_url_not_result_url self request_id :
  FalAIImgGenModel.status_url self request_id
  <> FalAIImgGenModel.result_url self request_id.
Proof.
  unfold FalAIImgGenModel.status_url, FalAIImgGenModel.result_url. intros H.
  do 4 apply String.app_inj in H.
  rewrite <- (string_app_nil_r request_id) in H at 2.
  apply String.app_inj in H. discriminate.
Qed.

Lemma gets_polls self request_id k :
  gets (FalAIImgGenModel.status_url self request_id) (polls self request_id k) = k
  /\ gets (FalAIImgGenModel.result_url self request_id) (polls self request_id k) = O.
Proof.
  unfold gets. induction k as [|k [IH1 IH2]]; [split; reflexivity|].
  cbn [polls List.filter]. rewrite String.eqb_refl.
  pose proof (status_url_not_result_url self request_id) as Hne.
  apply String.eqb_neq in Hne. rewrite Hne. cbn [length].
  rewrite IH1, IH2. split; reflexivity.
Qed.







(** *** The scenario of the specification: three polls *)

Lemma in_progress_non_terminal : non_terminal in_progress.
Proof. exists "IN_PROGRESS". split; [reflexivity|right; reflexivity]. Qed.


(** ** The event loop of a batch *)

Section Counting.
Context {A : Type}.
Variable f : A -> bool.

(** Replacing one element changes the count by the weights of the two. *)
Lemma count_insert (l : list A) (i : nat) (x y : A) :
  l !! i = Some y ->
  (weight f y + count f (<[i := x]> l) = weight f x + count f l)%nat.
Proof.
  unfold count, weight. revert i. induction l as [|a l IH]; intros i Hi.
  - discriminate.
  - destruct i as [|i].
    + injection Hi as ->.
      change (<[O := x]> (y :: l)) with (x :: l). cbn [List.filter].
      destruct (f x), (f y); cbn [length]; lia.
    + change (<[S i := x]> (a :: l)) with (a :: <[i := x]> l). cbn [List.filter].
      specialize (IH i Hi).
      destruct (f a); cbn [length]; lia.
Qed.

Lemma count_replicate (n : nat) (x : A) :
  count f (replicate n x) = (n * weight f x)%nat.
Proof.
  unfold count, weight. induction n as [|n IH]; [reflexivity|].
  cbn [replicate List.filter]. destruct (f x); cbn [length]; lia.
Qed.

Lemma count_positive (l : list A) :
  (0 < count f l)%nat -> exists i x, l !! i = Some x /\ f x = true.
Proof.
  unfold count. induction l as [|a l IH]; cbn [List.filter length]; [lia|].
  destruct (f a) eqn:Ha.
  - intros _. exists O, a. split; [reflexivity|exact Ha].
  - intros H. destruct (IH H) as (i & x & Hi & Hx). exists (S i), x. split; assumption.
Qed.

Lemma forallb_false (l : list A) :
  forallb f l = false -> exists i x, l !! i = Some x /\ f x = false.
Proof.
  induction l as [|a l IH]; cbn [forallb]; [discriminate|].
  destruct (f a) eqn:Ha.
  - intros H. destruct (IH H) as (i & x & Hi & Hx). exists (S i), x. split; assumption.
  - intros _. exists O, a. split; [reflexivity|exact Ha].
Qed.

End Counting.

Section Loop.
Import Asyncio.
Context {W : Type}.
Variable request : Conversation -> json.
Variable send : nat -> json -> Result json.
Variable finish : nat -> json -> M Conversation W unit.
Variable conversations : list nat.

Lemma in_flight_count s : in_flight s = count is_in_flight (tasks s).
Proof. reflexivity. Qed.

(** What an enabled [Acquire] does. *)
Lemma exec_acquire i s s' :
  exec request send finish conversations (Acquire i) s = Some s' ->
  exists l,
    tasks s !! i = Some Pending /\ conversations !! i = Some l /\ 0 < sem_value s
    /\ s' = mkSched (sem_value s - 1)
              (<[i := InFlight (request (heap s !!! l))]> (tasks s))
              (heap s) (failure s).
Proof.
  cbn [exec]. destruct (tasks s !! i) as [[| |]|]; try discriminate.
  destruct (conversations !! i) as [l|]; [|discriminate].
  destruct (0 <? sem_value s) eqn:Hsem; [|discriminate].
  intros H. injection H as <-. exists l. apply Z.ltb_lt in Hsem. auto.
Qed.

(** What an enabled [Complete] does. *)
Lemma exec_complete i s s' :
  exec request send finish conversations (Complete i) s = Some s' ->
  exists l payload,
    tasks s !! i = Some (InFlight payload) /\ conversations !! i = Some l
    /\ let o := (data <- lift (send i payload) ;; finish i data) (heap s !!! l) in
       s' = mkSched (sem_value s + 1)
              (<[i := Done match result o with
                           | inl e => inl e
                           | inr _ => inr l
                           end]> (tasks s))
              (<[l := final o]> (heap s))
              (match failure s, result o with
               | None, inl e => Some e
               | f, _ => f
               end).
Proof.
  cbn [exec]. destruct (tasks s !! i) as [[|payload|]|]; try discriminate.
  destruct (conversations !! i) as [l|]; [|discriminate].
  intros H. injection H as <-. exists l, payload. auto.
Qed.

Lemma gate_start ceiling h s0 :
  start ceiling conversations h = ok s0 -> gate ceiling s0.
Proof.
  unfold start. destruct (ceiling <? 0) eqn:Hneg; [discriminate|].
  intros H. injection H as <-. apply Z.ltb_ge in Hneg.
  unfold gate. cbn [sem_value]. rewrite in_flight_count. cbn [tasks].
  rewrite count_replicate. cbn [weight is_in_flight]. lia.
Qed.

Lemma gate_exec ceiling c s s' :
  gate ceiling s ->
  exec request send finish conversations c s = Some s' ->
  gate ceiling s'.
Proof.
  intros [Hsum Hpos] Hexec. unfold gate in *. rewrite in_flight_count in *.
  destruct c as [i|i].
  - destruct (exec_acquire _ _ _ Hexec) as (l & Hi & _ & Hfree & ->).
    cbn [sem_value tasks].
    pose proof (count_insert is_in_flight _ _
                  (InFlight (request (heap s !!! l))) _ Hi) as Hc.
    cbn [weight is_in_flight] in Hc. lia.
  - destruct (exec_complete _ _ _ Hexec) as (l & payload & Hi & _ & Hs').
    cbn zeta in Hs'. subst s'. cbn [sem_value tasks].
    match goal with
    | |- context [<[i := ?d]> (tasks s)] =>
        pose proof (count_insert is_in_flight _ _ d _ Hi) as Hc
    end.
    cbn [weight is_in_flight] in Hc. lia.
Qed.

Lemma gate_run ceiling schedule s s' :
  gate ceiling s ->
  run request send finish conversations schedule s = Some s' ->
  gate ceiling s'.
Proof.
  revert s. induction schedule as [|c schedule IH]; intros s Hgate Hrun.
  - injection Hrun as <-. exact Hgate.
  - cbn [run] in Hrun.
    destruct (exec request send finish conversations c s) as [s1|] eqn:Hexec;
      [|discriminate].
    exact (IH s1 (gate_exec _ _ _ _ Hgate Hexec) Hrun).
Qed.

(** Leaving the [async with] block gives the slot back, whatever the
    call returned. *)
Lemma complete_releases i s s' :
  exec request send finish conversations (Complete i) s = Some s' ->
  sem_value s' = sem_value s + 1
  /\ S (in_flight s') = in_flight s
  /\ exists r, tasks s' !! i = Some (Done r).
Proof.
  intros Hexec.
  destruct (exec_complete _ _ _ Hexec) as (l & payload & Hi & _ & Hs').
  cbn zeta in Hs'. subst s'. cbn [sem_value tasks]. rewrite !in_flight_count.
  cbn [tasks].
  match goal with
  | |- context [<[i := ?d]> (tasks s)] =>
      pose proof (count_insert is_in_flight _ _ d _ Hi) as Hc
  end.
  cbn [weight is_in_flight] in Hc.
  split; [reflexivity|]. split; [lia|].
  eexists. apply list_lookup_insert_eq. exact (lookup_lt_Some _ _ _ Hi).
Qed.

End Loop.

Lemma acquire_takes {W} request send (finish : nat -> json -> M Conversation W unit)
    conversations i s s' :
  Asyncio.exec request send finish conversations (Asyncio.Acquire i) s = Some s' ->
  0 < Asyncio.sem_value s
  /\ Asyncio.sem_value s' = Asyncio.sem_value s - 1
  /\ Asyncio.in_flight s' = S (Asyncio.in_flight s).
Proof.
  intros Hexec.
  destruct (exec_acquire _ _ _ _ _ _ _ Hexec) as (l & Hi & _ & Hfree & ->).
  cbn [Asyncio.sem_value]. rewrite !in_flight_count. cbn [Asyncio.tasks].
  pose proof (count_insert Asyncio.is_in_flight _ _
                (Asyncio.InFlight (request (Asyncio.heap s !!! l))) _ Hi) as Hc.
  cbn [weight Asyncio.is_in_flight] in Hc.
  split; [exact Hfree|]. split; [reflexivity|lia].
Qed.

(** C6: in one [abatch] call with ceiling [max_concurrent], after any
    choices of the event loop the number of [apredict] calls in flight is
    at most the ceiling, and it is the ceiling less the free slots of the
    semaphore; a call is admitted only when a slot is free, and the end of
    a call, with a result or with an exception, frees its slot. *)
Theorem abatch_in_flight_bounded
    (W : Type) (lax_int : json -> option Z)
    (self : CohereModel.t) (net : nat -> Network) (dur : nat -> Durations)
    (temperature : float) (max_tokens : Z) (max_concurrent : Z)
    (conversations : list nat) (h : gmap nat Conversation)
    (s0 s : Asyncio.sched) (schedule : list Asyncio.choice) :
  1 <= max_concurrent ->
  CohereModel.abatch_start max_concurrent conversations h = ok s0 ->
  CohereModel.abatch_run (W := W) lax_int self net dur temperature max_tokens
    conversations schedule s0 = Some s ->
  Z.of_nat (Asyncio.in_flight s) <= max_concurrent
  /\ Asyncio.sem_value s = max_concurrent - Z.of_nat (Asyncio.in_flight s)
  /\ (forall i s',
        CohereModel.abatch_exec (W := W) lax_int self net dur temperature max_tokens
          conversations (Asyncio.Acquire i) s = Some s' ->
        Z.of_nat (Asyncio.in_flight s) < max_concurrent
        /\ Asyncio.in_flight s' = S (Asyncio.in_flight s))
  /\ (forall i s',
        CohereModel.abatch_exec (W := W) lax_int self net dur temperature max_tokens
          conversations (Asyncio.Complete i) s = Some s' ->
        Asyncio.sem_value s' = Asyncio.sem_value s + 1
        /\ S (Asyncio.in_flight s') = Asyncio.in_flight s
        /\ exists r, Asyncio.tasks s' !! i = Some (Asyncio.Done r)).
Proof.
  intros _ Hstart Hrun.
  unfold CohereModel.abatch_start, CohereModel.abatch_run in *.
  pose proof (gate_run _ _ _ _ _ _ _ _ (gate_start _ _ _ _ Hstart) Hrun)
    as [Hsum Hfree].
  split; [lia|]. split; [lia|]. split.
  - intros i s' Hexec. unfold CohereModel.abatch_exec in Hexec.
    destruct (acquire_takes _ _ _ _ _ _ _ Hexec) as (Hslot & _ & Hcount).
    split; [lia|exact Hcount].
  - intros i s' Hexec. unfold CohereModel.abatch_exec in Hexec.
    exact (complete_releases _ _ _ _ _ _ _ Hexec).
Qed.

(** *** A batch of two behind one slot, the first call failing *)

Lemma abatch_in_flight_bounded_witness :
  exists s0 s,
    CohereModel.abatch_start 1 [7%nat; 9%nat] two_conversations = ok s0
    /\ CohereModel.abatch_run (W := Empty_set) decimal_int cohere_self first_fails
         (fun _ => no_durations) 0.5%float 256 [7%nat; 9%nat]
         [Asyncio.Acquire 0; Asyncio.Complete 0; Asyncio.Acquire 1] s0 = Some s
    /\ Asyncio.tasks s !! 0%nat = Some (Asyncio.Done (err (HTTPError "503")))
    /\ Z.of_nat (Asyncio.in_flight s) <= 1
    /\ Asyncio.sem_value s = 1 - Z.of_nat (Asyncio.in_flight s).
Proof.
  eexists. eexists.
  split; [reflexivity|]. split; [vm_compute; reflexivity|]. split; [reflexivity|].
  pose proof (abatch_in_flight_bounded Empty_set decimal_int cohere_self first_fails
                (fun _ => no_durations) 0.5%float 256 1 [7%nat; 9%nat]
                two_conversations _ _
                [Asyncio.Acquire 0; Asyncio.Complete 0; Asyncio.Acquire 1]
                ltac:(lia) eq_refl eq_refl) as (Hbound & Hsem & _).
  split; [exact Hbound|exact Hsem].
Defined.

(** ** The results of a batch *)

Section Batch.
Import Asyncio.
Context {W : Type}.
Variable request : Conversation -> json.
Variable send : nat -> json -> Result json.
Variable finish : nat -> json -> M Conversation W unit.
Variable conversations : list nat.
Variable h : gmap nat Conversation.

Abbreviation exec' := (exec request send finish conversations).
Abbreviation run' := (run request send finish conversations).
Abbreviation apredict' := (apredict_item request send finish).

Lemma placed_start ceiling s0 :
  start ceiling conversations h = ok s0 -> placed conversations s0.
Proof.
  unfold start. destruct (ceiling <? 0); [discriminate|].
  intros H. injection H as <-. unfold placed. cbn [tasks failure].
  split; [apply length_replicate|]. split.
  - intros i l Hi. apply lookup_replicate in Hi as [Hi _]. discriminate.
  - discriminate.
Qed.

Lemma placed_exec c s s' :
  placed conversations s -> exec' c s = Some s' -> placed conversations s'.
Proof.
  intros (Hlen & Hpos & Hfail) Hexec. destruct c as [i|i].
  - destruct (exec_acquire _ _ _ _ _ _ _ Hexec) as (l & Hi & Hl & _ & ->).
    unfold placed. cbn [tasks failure].
    split; [rewrite length_insert; exact Hlen|]. split.
    + intros j l' Hj. destruct (decide (i = j)) as [<-|Hne].
      * rewrite list_lookup_insert_eq in Hj by exact (lookup_lt_Some _ _ _ Hi).
        discriminate.
      * rewrite list_lookup_insert_ne in Hj by exact Hne. exact (Hpos _ _ Hj).
    + intros e He. destruct (Hfail e He) as (j & e' & Hj).
      exists j, e'. destruct (decide (i = j)) as [<-|Hne].
      * rewrite Hi in Hj. discriminate.
      * rewrite list_lookup_insert_ne by exact Hne. exact Hj.
  - destruct (exec_complete _ _ _ _ _ _ _ Hexec) as (l & payload & Hi & Hl & Hs').
    cbn zeta in Hs'. subst s'. unfold placed. cbn [tasks failure].
    pose proof (lookup_lt_Some _ _ _ Hi) as Hlt.
    split; [rewrite length_insert; exact Hlen|]. split.
    + intros j l' Hj. destruct (decide (i = j)) as [<-|Hne].
      * rewrite list_lookup_insert_eq in Hj by exact Hlt.
        destruct (result _); [discriminate|]. injection Hj as <-. exact Hl.
      * rewrite list_lookup_insert_ne in Hj by exact Hne. exact (Hpos _ _ Hj).
    + intros e He.
      destruct (failure s) as [e0|] eqn:Hf.
      * destruct (Hfail e0 eq_refl) as (j & e' & Hj).
        destruct (decide (i = j)) as [<-|Hne].
        -- rewrite Hi in Hj. discriminate.
        -- exists j, e'. rewrite list_lookup_insert_ne by exact Hne. exact Hj.
      * destruct (result _) as [e1|] eqn:Hr; [|discriminate].
        exists i, e1. rewrite list_lookup_insert_eq by exact Hlt. reflexivity.
Qed.

Lemma placed_run schedule s s' :
  placed conversations s -> run' schedule s = Some s' -> placed conversations s'.
Proof.
  revert s. induction schedule as [|c schedule IH]; intros s Hp Hrun.
  - injection Hrun as <-. exact Hp.
  - cbn [run] in Hrun. destruct (exec' c s) as [s1|] eqn:Hexec; [|discriminate].
    exact (IH s1 (placed_exec _ _ _ Hp Hexec) Hrun).
Qed.

(** The values of the tasks are their results, position by position. *)
Lemma values_lookup ts ls :
  values ts = Some ls ->
  length ts = length ls
  /\ forall i l, ls !! i = Some l -> ts !! i = Some (Done (inr l)).
Proof.
  revert ls. induction ts as [|t ts IH]; intros ls Hv.
  - injection Hv as <-. split; [reflexivity|]. intros i l Hi. discriminate.
  - cbn [values] in Hv. destruct t as [| |[e|l0]]; try discriminate.
    destruct (values ts) as [ls'|]; [|discriminate]. injection Hv as <-.
    destruct (IH ls' eq_refl) as [Hlen Hall]. split.
    + cbn [length]. rewrite Hlen. reflexivity.
    + intros [|i] l Hi.
      * injection Hi as ->. reflexivity.
      * exact (Hall i l Hi).
Qed.

Lemma values_complete ts ls :
  length ts = length ls ->
  (forall i l, ls !! i = Some l -> ts !! i = Some (Done (inr l))) ->
  values ts = Some ls.
Proof.
  revert ls. induction ts as [|t ts IH]; intros [|l ls] Hlen Hall; try discriminate.
  - reflexivity.
  - pose proof (Hall O l eq_refl) as H0. injection H0 as ->. cbn [values].
    rewrite (IH ls).
    + reflexivity.
    + cbn [length] in Hlen. lia.
    + intros i l' Hi. exact (Hall (S i) l' Hi).
Qed.

(** Whatever the interleaving, the list that [gather] returns is the list
    of the conversations, in its order. *)
Lemma gathered_in_order s ls :
  placed conversations s -> gathered s = Some (ok ls) -> ls = conversations.
Proof.
  intros (Hlen & Hpos & _) Hg. unfold gathered in Hg.
  destruct (failure s); [discriminate|].
  destruct (values (tasks s)) as [ls'|] eqn:Hv; [|discriminate].
  injection Hg as ->.
  destruct (values_lookup _ _ Hv) as [Hlen' Hall].
  apply list_eq. intros i.
  destruct (ls !! i) as [l|] eqn:Hi.
  - symmetry. exact (Hpos _ _ (Hall _ _ Hi)).
  - symmetry. apply lookup_ge_None. apply lookup_ge_None in Hi. lia.
Qed.

(** *** The conversations after the batch *)

Hypothesis distinct : NoDup conversations.

Lemma tracks_start ceiling s0 :
  start ceiling conversations h = ok s0 -> tracks request send finish conversations h s0.
Proof.
  unfold start. destruct (ceiling <? 0); [discriminate|].
  intros H. injection H as <-. intros i l t _ Hi. cbn [tasks heap] in *.
  apply lookup_replicate in Hi as [-> _]. reflexivity.
Qed.

Lemma other_conversation i j l l' :
  i <> j -> conversations !! i = Some l -> conversations !! j = Some l' -> l <> l'.
Proof.
  intros Hne Hi Hj ->. exact (Hne (NoDup_lookup _ _ _ _ distinct Hi Hj)).
Qed.

Lemma tracks_exec c s s' :
  tracks request send finish conversations h s -> exec' c s = Some s' -> tracks request send finish conversations h s'.
Proof.
  intros Htr Hexec. destruct c as [i|i].
  - destruct (exec_acquire _ _ _ _ _ _ _ Hexec) as (l & Hi & Hl & _ & ->).
    intros j l' t Hl' Hj. cbn [tasks heap] in *.
    destruct (decide (i = j)) as [<-|Hne].
    + rewrite list_lookup_insert_eq in Hj by exact (lookup_lt_Some _ _ _ Hi).
      injection Hj as <-. rewrite Hl in Hl'. injection Hl' as <-.
      pose proof (Htr _ _ _ Hl Hi) as Hp. cbn in Hp.
      rewrite Hp. split; reflexivity.
    + rewrite list_lookup_insert_ne in Hj by exact Hne. exact (Htr _ _ _ Hl' Hj).
  - destruct (exec_complete _ _ _ _ _ _ _ Hexec) as (l & payload & Hi & Hl & Hs').
    cbn zeta in Hs'. subst s'.
    intros j l' t Hl' Hj. cbn [tasks heap] in *.
    destruct (decide (i = j)) as [<-|Hne].
    + rewrite list_lookup_insert_eq in Hj by exact (lookup_lt_Some _ _ _ Hi).
      injection Hj as <-. rewrite Hl in Hl'. injection Hl' as <-.
      destruct (Htr _ _ _ Hl Hi) as [Hheap ->].
      rewrite Hheap, lookup_total_insert_eq.
      unfold outcome_of, apredict_item. rewrite bind_read. split; reflexivity.
    + rewrite list_lookup_insert_ne in Hj by exact Hne.
      pose proof (Htr _ _ _ Hl' Hj) as Hp.
      rewrite lookup_total_insert_ne by exact (other_conversation _ _ _ _ Hne Hl Hl').
      exact Hp.
Qed.

Lemma tracks_run schedule s s' :
  tracks request send finish conversations h s -> run' schedule s = Some s' -> tracks request send finish conversations h s'.
Proof.
  revert s. induction schedule as [|c schedule IH]; intros s Hp Hrun.
  - injection Hrun as <-. exact Hp.
  - cbn [run] in Hrun. destruct (exec' c s) as [s1|] eqn:Hexec; [|discriminate].
    exact (IH s1 (tracks_exec _ _ _ Hp Hexec) Hrun).
Qed.

End Batch.

(** *** Every interleaving ends *)

Section Termination.
Import Asyncio.
Context {W : Type}.
Variable request : Conversation -> json.
Variable send : nat -> json -> Result json.
Variable finish : nat -> json -> M Conversation W unit.
Variable conversations : list nat.

Abbreviation exec'' := (exec request send finish conversations).
Abbreviation run'' := (run request send finish conversations).

Lemma remaining_exec c s s' :
  exec'' c s = Some s' -> remaining s = S (remaining s').
Proof.
  intros Hexec. unfold remaining. destruct c as [i|i].
  - destruct (exec_acquire _ _ _ _ _ _ _ Hexec) as (l & Hi & _ & _ & ->).
    cbn [tasks].
    pose proof (count_insert is_pending _ _
                  (InFlight (request (heap s !!! l))) _ Hi) as Hp.
    pose proof (count_insert is_in_flight _ _
                  (InFlight (request (heap s !!! l))) _ Hi) as Hf.
    cbn [weight is_pending is_in_flight] in Hp, Hf. lia.
  - destruct (exec_complete _ _ _ _ _ _ _ Hexec) as (l & payload & Hi & _ & Hs').
    cbn zeta in Hs'. subst s'. cbn [tasks].
    match goal with
    | |- context [<[i := ?d]> (tasks s)] =>
        pose proof (count_insert is_pending _ _ d _ Hi) as Hp;
        pose proof (count_insert is_in_flight _ _ d _ Hi) as Hf
    end.
    cbn [weight is_pending is_in_flight] in Hp, Hf. lia.
Qed.

Lemma remaining_run schedule s s' :
  run'' schedule s = Some s' -> remaining s = (length schedule + remaining s')%nat.
Proof.
  revert s. induction schedule as [|c schedule IH]; intros s Hrun.
  - injection Hrun as <-. reflexivity.
  - cbn [run] in Hrun. destruct (exec'' c s) as [s1|] eqn:Hexec; [|discriminate].
    rewrite (remaining_exec _ _ _ Hexec), (IH _ Hrun). reflexivity.
Qed.

Lemma remaining_start ceiling h s0 :
  start ceiling conversations h = ok s0 ->
  remaining s0 = (2 * length conversations)%nat.
Proof.
  unfold start. destruct (ceiling <? 0); [discriminate|].
  intros H. injection H as <-. unfold remaining. cbn [tasks].
  rewrite !count_replicate. cbn [weight is_pending is_in_flight]. lia.
Qed.

(** With a ceiling of at least one, a state with an unfinished task
    allows a choice: the loop is never stuck before the end. *)
Lemma progress ceiling s :
  1 <= ceiling ->
  gate ceiling s ->
  length (tasks s) = length conversations ->
  all_done s = false ->
  exists c s', exec'' c s = Some s'.
Proof.
  intros Hceiling [Hsum Hfree] Hlen Hnot.
  assert (Hcomplete : forall j payload,
             tasks s !! j = Some (InFlight payload) ->
             exists c s', exec'' c s = Some s').
  { intros j payload Hj.
    destruct (lookup_lt_is_Some_2 conversations j) as [l Hl].
    { rewrite <- Hlen. exact (lookup_lt_Some _ _ _ Hj). }
    exists (Complete j). cbn [exec]. rewrite Hj, Hl. eauto. }
  destruct (forallb_false _ _ Hnot) as (i & t & Hi & Ht).
  destruct t as [|payload|r]; [|exact (Hcomplete _ _ Hi)|discriminate].
  destruct (0 <? sem_value s) eqn:Hsem.
  - destruct (lookup_lt_is_Some_2 conversations i) as [l Hl].
    { rewrite <- Hlen. exact (lookup_lt_Some _ _ _ Hi). }
    exists (Acquire i). cbn [exec]. rewrite Hi, Hl, Hsem. eauto.
  - apply Z.ltb_ge in Hsem.
    destruct (count_positive is_in_flight (tasks s)) as (j & t & Hj & Htj).
    { rewrite <- in_flight_count. lia. }
    destruct t as [|payload|r]; try discriminate.
    exact (Hcomplete _ _ Hj).
Qed.

(** So the loop can always be run to the end. *)
Lemma runs_to_the_end ceiling n s :
  1 <= ceiling ->
  remaining s = n ->
  gate ceiling s ->
  length (tasks s) = length conversations ->
  exists schedule s', run'' schedule s = Some s' /\ all_done s' = true.
Proof.
  intros Hceiling. revert s. induction n as [|n IH]; intros s Hn Hgate Hlen.
  - destruct (all_done s) eqn:Hdone.
    + exists [], s. split; [reflexivity|exact Hdone].
    + destruct (progress _ _ Hceiling Hgate Hlen Hdone) as (c & s1 & Hexec).
      rewrite (remaining_exec _ _ _ Hexec) in Hn. discriminate.
  - destruct (all_done s) eqn:Hdone.
    + exists [], s. split; [reflexivity|exact Hdone].
    + destruct (progress _ _ Hceiling Hgate Hlen Hdone) as (c & s1 & Hexec).
      destruct (IH s1) as (schedule & s' & Hrun & Hend).
      * rewrite (remaining_exec _ _ _ Hexec) in Hn. lia.
      * exact (gate_exec _ _ _ _ _ _ _ _ Hgate Hexec).
      * destruct c as [i|i].
        -- destruct (exec_acquire _ _ _ _ _ _ _ Hexec) as (l & _ & _ & _ & ->).
           cbn [tasks]. rewrite length_insert. exact Hlen.
        -- destruct (exec_complete _ _ _ _ _ _ _ Hexec) as (l & p & _ & _ & Hs').
           cbn zeta in Hs'. subst s1. cbn [tasks]. rewrite length_insert. exact Hlen.
      * exists (c :: schedule), s'. split; [|exact Hend].
        cbn [run]. rewrite Hexec. exact Hrun.
Qed.

End Termination.

(** *** The list returned by a batch *)

Lemma forallb_lookup {A} (f : A -> bool) (l : list A) i x :
  forallb f l = true -> l !! i = Some x -> f x = true.
Proof.
  revert i. induction l as [|a l IH]; intros i Hall Hi; [discriminate|].
  cbn [forallb] in Hall. apply andb_prop in Hall as [Ha Hl].
  destruct i as [|i].
  - injection Hi as <-. exact Ha.
  - exact (IH i Hl Hi).
Qed.

Lemma values_all_done ts ls :
  Asyncio.values ts = Some ls -> forallb Asyncio.is_done ts = true.
Proof.
  revert ls. induction ts as [|t ts IH]; intros ls Hv; [reflexivity|].
  cbn [Asyncio.values] in Hv. destruct t as [| |[e|l]]; try discriminate.
  destruct (Asyncio.values ts) as [ls'|]; [|discriminate].
  cbn [forallb Asyncio.is_done]. exact (IH ls' eq_refl).
Qed.

Lemma batch_returns_in_order {W} request send
    (finish : nat -> json -> M Conversation W unit) :
  returns_in_order (Asyncio.exec request send finish)
    (Asyncio.run request send finish)
    (Asyncio.apredict_item request send finish).
Proof.
  intros max_concurrent conversations h s0 Hceiling Hdistinct Hstart Hsucceed.
  pose proof (gate_start _ _ _ _ Hstart) as Hgate0.
  pose proof (placed_start _ _ _ _ Hstart) as Hplaced0.
  pose proof (tracks_start request send finish _ _ _ _ Hstart) as Htracks0.
  pose proof (remaining_start _ _ _ _ Hstart) as Hremaining0.
  split.
  - exact (runs_to_the_end request send finish conversations max_concurrent _ s0
             Hceiling eq_refl Hgate0 (proj1 Hplaced0)).
  - intros schedule s Hrun.
    pose proof (gate_run _ _ _ _ _ _ _ _ Hgate0 Hrun) as Hgate.
    pose proof (placed_run _ _ _ _ _ _ _ Hplaced0 Hrun) as Hplaced.
    pose proof (tracks_run _ _ _ _ _ Hdistinct _ _ _ Htracks0 Hrun) as Htracks.
    pose proof (remaining_run _ _ _ _ _ _ _ Hrun) as Hremaining.
    destruct Hplaced as (Hlen & Hpos & Hfail).
    assert (Hresults : forall i l r,
               conversations !! i = Some l ->
               Asyncio.tasks s !! i = Some (Asyncio.Done r) -> r = inr l).
    { intros i l r Hl Hi. destruct (Htracks _ _ _ Hl Hi) as [_ ->].
      unfold outcome_of. rewrite (Hsucceed _ _ Hl). reflexivity. }
    assert (Hnofail : Asyncio.failure s = None).
    { destruct (Asyncio.failure s) as [e|] eqn:Hf; [|reflexivity].
      destruct (Hfail e eq_refl) as (i & e' & Hi).
      destruct (lookup_lt_is_Some_2 conversations i) as [l Hl].
      { rewrite <- Hlen. exact (lookup_lt_Some _ _ _ Hi). }
      pose proof (Hresults _ _ _ Hl Hi). discriminate. }
    split; [lia|]. split.
    + intros Hnot. split.
      * unfold Asyncio.gathered. rewrite Hnofail.
        destruct (Asyncio.values (Asyncio.tasks s)) as [ls|] eqn:Hv; [|reflexivity].
        pose proof (values_all_done _ _ Hv) as Hall.
        unfold Asyncio.all_done in Hnot. rewrite Hall in Hnot. discriminate.
      * exact (progress request send finish conversations _ _ Hceiling Hgate Hlen Hnot).
    + intros Hdone.
      assert (Hall : forall i l, conversations !! i = Some l ->
                 Asyncio.tasks s !! i = Some (Asyncio.Done (inr l))).
      { intros i l Hl.
        destruct (lookup_lt_is_Some_2 (Asyncio.tasks s) i) as [t Hi].
        { rewrite Hlen. exact (lookup_lt_Some _ _ _ Hl). }
        pose proof (forallb_lookup _ _ _ _ Hdone Hi) as Ht.
        destruct t as [| |r]; try discriminate.
        rewrite (Hresults _ _ _ Hl Hi) in Hi. exact Hi. }
      split; [|split].
      * unfold Asyncio.gathered. rewrite Hnofail.
        rewrite (values_complete _ _ Hlen Hall). reflexivity.
      * symmetry. exact Hlen.
      * intros i l Hl. exact (proj1 (Htracks _ _ _ Hl (Hall _ _ Hl))).
Qed.

(** C5: [abatch] of the Cohere adapter and of the Groq adapter return the
    conversations in the order of the input list, each updated by its own
    [apredict], whatever the order in which the calls complete. *)
Theorem abatch_returns_conversations_in_order :
  (forall (W : Type) (lax_int : json -> option Z)
          (self : CohereModel.t) (net : nat -> Network)
          (dur : nat -> Durations) (temperature : float) (max_tokens : Z),
      returns_in_order (W := W)
        (CohereModel.abatch_exec (W := W) lax_int self net dur temperature max_tokens)
        (CohereModel.abatch_run (W := W) lax_int self net dur temperature max_tokens)
        (fun i => CohereModel.apredict lax_int self (net i) (dur i) temperature max_tokens))
  /\ (forall (W : Type) (json_loads : string -> Result json)
            (json_dumps : json -> string) (convert : Tool -> json)
            (self : GroqToolModel.t) (net : nat -> Network)
            (toolkit : option Toolkit) (tool_choice : option string)
            (temperature : float) (max_tokens : Z),
      returns_in_order (W := W)
        (GroqToolModel.abatch_exec (W := W) json_loads json_dumps convert self net
           toolkit tool_choice temperature max_tokens)
        (GroqToolModel.abatch_run (W := W) json_loads json_dumps convert self net
           toolkit tool_choice temperature max_tokens)
        (fun i => GroqToolModel.apredict json_loads json_dumps convert self (net i)
                    toolkit tool_choice temperature max_tokens)).
Proof.
  split.
  - intros W lax_int self net dur temperature max_tokens.
    exact (batch_returns_in_order
             (CohereModel.payload_of self temperature max_tokens false)
             (fun i => post (net i) (CohereModel.base_url self +:+ "/chat")
                         (CohereModel.headers self))
             (fun i => CohereModel.complete lax_int (dur i))).
  - intros W json_loads json_dumps convert self net toolkit tool_choice
      temperature max_tokens.
    exact (batch_returns_in_order
             (GroqToolModel.payload_of convert self toolkit tool_choice
                temperature max_tokens)
             (fun i => post (net i) (GroqToolModel._api_url self)
                         (GroqToolModel._headers self))
             (fun _ => GroqToolModel.process_response json_loads json_dumps toolkit)).
Qed.

(** *** A batch of two whose calls complete in the reverse order *)

Lemma two_distinct : NoDup [7%nat; 9%nat].
Proof. apply (bool_decide_unpack _). vm_compute. exact I. Qed.

Lemma abatch_returns_conversations_in_order_witness :
  exists s0 s,
    CohereModel.abatch_start 2 [7%nat; 9%nat] two_conversations = ok s0
    /\ CohereModel.abatch_run (W := Empty_set) decimal_int cohere_self says_hi
         (fun _ => no_durations) 0.5%float 256 [7%nat; 9%nat]
         [Asyncio.Acquire 0; Asyncio.Acquire 1; Asyncio.Complete 1; Asyncio.Complete 0]
         s0 = Some s
    /\ Asyncio.gathered s = Some (ok [7%nat; 9%nat])
    /\ Asyncio.heap s !!! 7%nat = answered "one"
    /\ Asyncio.heap s !!! 9%nat = answered "two".
Proof.
  destruct abatch_returns_conversations_in_order as [Hcohere _].
  eexists. eexists.
  split; [reflexivity|]. split; [vm_compute; reflexivity|].
  destruct (Hcohere Empty_set decimal_int cohere_self says_hi (fun _ => no_durations)
              0.5%float 256 2 [7%nat; 9%nat] two_conversations _
              ltac:(lia) two_distinct eq_refl) as [_ Hall].
  - intros [|[|i]] l Hl; try discriminate; injection Hl as <-; reflexivity.
  - destruct (Hall [Asyncio.Acquire 0; Asyncio.Acquire 1;
                    Asyncio.Complete 1; Asyncio.Complete 0] _ eq_refl)
      as (_ & _ & Hend).
    destruct (Hend eq_refl) as (Hgathered & _ & Hheap).
    split; [exact Hgathered|]. split.
    + exact (Hheap 0%nat 7%nat eq_refl).
    + exact (Hheap 1%nat 9%nat eq_refl).
Defined.

(** * Further properties of the adapters *)

(** ** What a constructed adapter satisfies *)

Lemma validate_accepts (name : option string) (allowed : list string) :
  LLMBase._validate_name_in_allowed_models name allowed = ok tt ->
  match name with
  | Some n => n = "" \/ n ∈ allowed
  | None => True
  end.
Proof.
  unfold LLMBase._validate_name_in_allowed_models.
  destruct name as [n|]; [|intros _; exact I].
  unfold str_truthy.
  destruct (String.eqb_spec n "") as [->|Hne]; [intros _; left; reflexivity|].
  cbn [negb andb].
  destruct (bool_decide_reflect (n ∈ allowed)) as [Hin|Hnotin];
    [intros _; right; exact Hin|discriminate].
Qed.

Lemma in_validator_ok {A} (r : Result A) (a : A) :
  in_validator r = ok a -> r = ok a.
Proof. destruct r as [[]|]; simpl; intros H; try discriminate; exact H. Qed.

(** A constructed Groq or Cohere adapter holds the key it was given, sends
    it as a bearer token, and has a model name that is empty or among its
    allowed models; a constructed image adapter has its model name among
    its allowed models, and the key of the argument or else of the
    environment.  With only a key, the first two are constructed with the
    defaults of their class. *)
Theorem constructed_adapters_are_configured :
  (forall data self,
      GroqToolModel.__init__ data = ok self ->
      GroqToolModel.data_api_key data = Some (GroqToolModel.api_key self)
      /\ (GroqToolModel.name self = ""
          \/ GroqToolModel.name self ∈ GroqToolModel.allowed_models self)
      /\ dict_lookup "Authorization"
           (map (fun kv => (fst kv, JStr (snd kv))) (GroqToolModel._headers self))
         = Some (JStr ("Bearer " +:+ GroqToolModel.api_key self)))
  /\ (forall data self,
      CohereModel.__init__ data = ok self ->
      CohereModel.data_api_key data = Some (CohereModel.api_key self)
      /\ (CohereModel.name self = ""
          \/ CohereModel.name self ∈ CohereModel.allowed_models self)
      /\ dict_lookup "authorization"
           (map (fun kv => (fst kv, JStr (snd kv))) (CohereModel.headers self))
         = Some (JStr ("Bearer " +:+ CohereModel.api_key self)))
  /\ (forall data (environ : gmap string string) self,
      result (FalAIImgGenModel.__init__ (W := Empty_set) data environ) = ok self ->
      FalAIImgGenModel.model_name self ∈ FalAIImgGenModel.allowed_models self
      /\ FalAIImgGenModel.api_key self
         = match FalAIImgGenModel.data_api_key data with
           | Some k => Some k
           | None => environ !! "FAL_KEY"
           end)
  /\ (forall key,
      exists self,
        GroqToolModel.__init__ (GroqToolModel.mk_data (Some key) None None) = ok self
        /\ GroqToolModel.name self = "llama3-groq-70b-8192-tool-use-preview"
        /\ GroqToolModel.name self ∈ GroqToolModel.allowed_models self)
  /\ (forall key,
      exists self,
        CohereModel.__init__ (CohereModel.mk_data (Some key) None None None) = ok self
        /\ CohereModel.name self = "command"
        /\ CohereModel.name self ∈ CohereModel.allowed_models self).
Proof.
  repeat apply conj.
  - intros data self. unfold GroqToolModel.__init__.
    destruct (GroqToolModel.data_api_key data) as [key|]; [|discriminate].
    cbn [required_field mbind result_bind rbind ok].
    destruct (in_validator _) as [e|[]] eqn:Hv; [discriminate|].
    intros H. injection H as <-. cbn.
    apply in_validator_ok, validate_accepts in Hv.
    split; [reflexivity|]. split; [exact Hv|reflexivity].
  - intros data self. unfold CohereModel.__init__.
    destruct (CohereModel.data_api_key data) as [key|]; [|discriminate].
    cbn [required_field mbind result_bind rbind ok].
    destruct (in_validator _) as [e|[]] eqn:Hv; [discriminate|].
    intros H. injection H as <-. cbn.
    apply in_validator_ok, validate_accepts in Hv.
    split; [reflexivity|]. split; [exact Hv|reflexivity].
  - intros data environ self. unfold FalAIImgGenModel.__init__.
    rewrite bind_read.
    destruct (in_validator _) as [e|[]]; [discriminate|].
    rewrite bind_lift_ok.
    set (key := match FalAIImgGenModel.data_api_key data with
                | Some k => Some k
                | None => environ !! "FAL_KEY"
                end).
    set (allowed := default FalAIImgGenModel.default_allowed_models
                      (FalAIImgGenModel.data_allowed_models data)).
    set (model := default FalAIImgGenModel.default_model_name
                    (FalAIImgGenModel.data_model_name data)).
    destruct (bool_decide_reflect (model ∈ allowed)) as [Hin|Hnotin]; cbn [negb].
    + destruct key as [k|]; [destruct (str_truthy (Some k))|];
        cbn; intros H; injection H as <-; cbn; split; solve [exact Hin|reflexivity].
    + destruct key as [k|]; [destruct (str_truthy (Some k))|]; discriminate.
  - intros key. eexists. split; [reflexivity|]. split; [reflexivity|].
    cbn. apply (bool_decide_unpack _). vm_compute. exact I.
  - intros key. eexists. split; [reflexivity|]. split; [reflexivity|].
    cbn. apply (bool_decide_unpack _). vm_compute. exact I.
Qed.

Lemma constructed_adapters_are_configured_witness :
  (exists self,
      GroqToolModel.__init__
        (GroqToolModel.mk_data (Some "gsk") None (Some "llama3-8b-8192")) = ok self
      /\ (GroqToolModel.name self = ""
          \/ GroqToolModel.name self ∈ GroqToolModel.allowed_models self))
  /\ FalAIImgGenModel.model_name falai_self ∈ FalAIImgGenModel.allowed_models falai_self.
Proof.
  destruct constructed_adapters_are_configured as (Hgroq & _ & Hfalai & _).
  split.
  - eexists. split; [reflexivity|].
    exact (proj1 (proj2 (Hgroq
             (GroqToolModel.mk_data (Some "gsk") None (Some "llama3-8b-8192"))
             _ eq_refl))).
  - exact (proj1 (Hfalai
             (FalAIImgGenModel.mk_data None (Some "key") None None (Some 3) (Some 0%float))
             ∅ falai_self eq_refl)).
Defined.

(** ** The environment after constructing the image adapter *)




(** ** The job poller against an arbitrary service *)

Section PollerShape.
Import FalAIImgGenModel.
Variable svc : Service.
Variable self : t.
Variable request_id : string.
Variable sleep : float -> M nat event unit.
Hypothesis sleep_or_raise :
  forall n,
    sleep (retry_delay self) n = mkOutcome (ok tt) n [Sleep (retry_delay self)]
    \/ exists e, sleep (retry_delay self) n = mkOutcome (err e) n [].

(** The three ways a wait ends: out of retries, stopped at a status
    request, or with the answer of the result endpoint. *)
Lemma poll_shape k n :
  poll sleep svc self request_id k n
  = mkOutcome (err (TimeoutError (timeout_message request_id))) (n + k)%nat
      (polls self request_id k)
  \/ (exists j e,
        (j < k)%nat
        /\ poll sleep svc self request_id k n
           = mkOutcome (err e) (n + j + 1)%nat
               (polls self request_id j ++ [Get (status_url self request_id)]))
  \/ (exists j,
        (j < k)%nat
        /\ poll sleep svc self request_id k n
           = mkOutcome (svc (n + j + 1)%nat (result_url self request_id)) (n + j + 2)%nat
               (polls self request_id j
                  ++ [Get (status_url self request_id); Get (result_url self request_id)])).
Proof.
  revert n. induction k as [|k IH]; intros n.
  - left. cbn. rewrite Nat.add_0_r. reflexivity.
  - cbn [poll]. unfold _check_status. rewrite http_get_run.
    destruct (svc n (status_url self request_id)) as [e|d] eqn:Hsvc.
    { right. left. exists 0%nat, e. split; [lia|]. rewrite bind_lift_err. cbn.
      replace (n + 0 + 1)%nat with (S n) by lia. reflexivity. }
    change (inr d) with (ok d : Result json). rewrite bind_lift_ok.
    destruct (getitem d "status") as [e|s] eqn:Hstatus.
    { right. left. exists 0%nat, e. split; [lia|]. rewrite bind_lift_err. cbn.
      replace (n + 0 + 1)%nat with (S n) by lia. reflexivity. }
    change (inr s) with (ok s : Result json). rewrite bind_lift_ok.
    destruct (is_str_eq "COMPLETED" s).
    { right. right. exists 0%nat. split; [lia|]. unfold _get_result, http_get. cbn.
      replace (n + 0 + 1)%nat with (S n) by lia.
      replace (n + 0 + 2)%nat with (S (S n)) by lia. reflexivity. }
    destruct (is_str_eq "IN_QUEUE" s || is_str_eq "IN_PROGRESS" s).
    2:{ right. left. exists 0%nat, (RuntimeError "Unexpected status: " d). split; [lia|]. cbn.
        replace (n + 0 + 1)%nat with (S n) by lia. reflexivity. }
    unfold bind.
    destruct (sleep_or_raise (S n)) as [-> | [e ->]]; cbn [result final yielded ok err].
    2:{ right. left. exists 0%nat, e. split; [lia|]. cbn.
        replace (n + 0 + 1)%nat with (S n) by lia. reflexivity. }
    destruct (IH (S n)) as [-> | [(j & e & Hj & ->) | (j & Hj & ->)]];
      cbn [result final yielded app].
    + left. cbn [polls]. rewrite Nat.add_succ_r. reflexivity.
    + right. left. exists (S j), e. split; [lia|]. cbn [polls app].
      replace (n + S j + 1)%nat with (S n + j + 1)%nat by lia. reflexivity.
    + right. right. exists (S j). split; [lia|]. cbn [polls app].
      replace (n + S j + 1)%nat with (S n + j + 1)%nat by lia.
      replace (n + S j + 2)%nat with (S n + j + 2)%nat by lia.
      destruct (svc (S n + j + 1)%nat (result_url self request_id)); reflexivity.
Qed.

End PollerShape.

Lemma gets_app url l l' : gets url (l ++ l') = (gets url l + gets url l')%nat.
Proof. unfold gets. rewrite List.filter_app, length_app. reflexivity. Qed.

Lemma gets_status_fetch self request_id :
  gets (FalAIImgGenModel.status_url self request_id)
    [FalAIImgGenModel.Get (FalAIImgGenModel.status_url self request_id)] = 1%nat
  /\ gets (FalAIImgGenModel.result_url self request_id)
       [FalAIImgGenModel.Get (FalAIImgGenModel.status_url self request_id)] = 0%nat
  /\ gets (FalAIImgGenModel.status_url self request_id)
       [FalAIImgGenModel.Get (FalAIImgGenModel.status_url self request_id);
        FalAIImgGenModel.Get (FalAIImgGenModel.result_url self request_id)] = 1%nat
  /\ gets (FalAIImgGenModel.result_url self request_id)
       [FalAIImgGenModel.Get (FalAIImgGenModel.status_url self request_id);
        FalAIImgGenModel.Get (FalAIImgGenModel.result_url self request_id)] = 1%nat.
Proof.
  pose proof (status_url_not_result_url self request_id) as Hne.
  assert (H1 : String.eqb (FalAIImgGenModel.status_url self request_id)
                 (FalAIImgGenModel.result_url self request_id) = false)
    by (apply String.eqb_neq; exact Hne).
  assert (H2 : String.eqb (FalAIImgGenModel.result_url self request_id)
                 (FalAIImgGenModel.status_url self request_id) = false)
    by (apply String.eqb_neq; congruence).
  unfold gets. cbn [List.filter]. rewrite !String.eqb_refl, H1, H2.
  repeat split; reflexivity.
Qed.

Lemma time_sleep_or_raise d n :
  FalAIImgGenModel.time_sleep d n = mkOutcome (ok tt) n [FalAIImgGenModel.Sleep d]
  \/ exists e, FalAIImgGenModel.time_sleep d n = mkOutcome (err e) n [].
Proof.
  unfold FalAIImgGenModel.time_sleep.
  destruct (PrimFloat.is_nan d); [right; eexists; reflexivity|].
  destruct (FalAIImgGenModel.fits_nanoseconds d); [|right; eexists; reflexivity].
  destruct (PrimFloat.ltb d 0); [right; eexists; reflexivity|left; reflexivity].
Qed.

Lemma asyncio_sleep_or_raise d n :
  FalAIImgGenModel.asyncio_sleep d n = mkOutcome (ok tt) n [FalAIImgGenModel.Sleep d]
  \/ exists e, FalAIImgGenModel.asyncio_sleep d n = mkOutcome (err e) n [].
Proof.
  unfold FalAIImgGenModel.asyncio_sleep.
  destruct (PrimFloat.leb d 0); [left; reflexivity|].
  destruct (PrimFloat.is_nan d || PrimFloat.is_infinity d);
    [right; eexists; reflexivity|left; reflexivity].
Qed.

Lemma poll_bounded svc self request_id sleep k n :
  (forall n',
    sleep (FalAIImgGenModel.retry_delay self) n'
    = mkOutcome (ok tt) n' [FalAIImgGenModel.Sleep (FalAIImgGenModel.retry_delay self)]
    \/ exists e, sleep (FalAIImgGenModel.retry_delay self) n' = mkOutcome (err e) n' []) ->
  let status := FalAIImgGenModel.status_url self request_id in
  let fetch := FalAIImgGenModel.result_url self request_id in
  let o := FalAIImgGenModel.poll sleep svc self request_id k n in
  (gets status (yielded o) <= k)%nat
  /\ (gets fetch (yielded o) <= 1)%nat
  /\ final o = (n + gets status (yielded o) + gets fetch (yielded o))%nat
  /\ (forall v, result o = ok v ->
        exists j, (j < k)%nat
          /\ yielded o = polls self request_id j
                           ++ [FalAIImgGenModel.Get status; FalAIImgGenModel.Get fetch]
          /\ svc (n + j + 1)%nat fetch = ok v)
  /\ (k = 0%nat ->
        o = mkOutcome (err (TimeoutError (timeout_message request_id))) n []).
Proof.
  intros Hsleep status fetch o. subst status fetch o.
  destruct (gets_status_fetch self request_id) as (G1 & G2 & G3 & G4).
  destruct (poll_shape svc self request_id sleep Hsleep k n)
    as [-> | [(j & e & Hj & ->) | (j & Hj & ->)]]; cbn [result final yielded].
  - destruct (gets_polls self request_id k) as [-> ->].
    repeat split; try lia; try discriminate.
    intros ->. cbn. rewrite Nat.add_0_r. reflexivity.
  - rewrite !gets_app, G1, G2.
    destruct (gets_polls self request_id j) as [-> ->].
    repeat split; try lia; try discriminate.
  - rewrite !gets_app, G3, G4.
    destruct (gets_polls self request_id j) as [-> ->].
    repeat split; try lia.
    intros v Hv. exists j. repeat split; [exact Hj|exact Hv].
Qed.

(** Against any service, and with any retry count and delay, the
    blocking and the asynchronous wait make at most [max_retries] status
    requests and at most one request to the result endpoint, and these
    are all the requests they make; a value they return is the answer of
    the result endpoint, fetched last, right after a status request; and
    with a retry count that is not positive they fail with the
    [TimeoutError] without any request. *)
Theorem wait_for_completion_bounded
    (svc : FalAIImgGenModel.Service) (self : FalAIImgGenModel.t)
    (request_id : string) (n : nat) (o : Outcome nat FalAIImgGenModel.event json) :
  o = FalAIImgGenModel._wait_for_completion svc self request_id n
  \/ o = FalAIImgGenModel._async_wait_for_completion svc self request_id n ->
  let status := FalAIImgGenModel.status_url self request_id in
  let fetch := FalAIImgGenModel.result_url self request_id in
  (Z.of_nat (gets status (yielded o)) <= Z.max 0 (FalAIImgGenModel.max_retries self))
  /\ (gets fetch (yielded o) <= 1)%nat
  /\ final o = (n + gets status (yielded o) + gets fetch (yielded o))%nat
  /\ (forall v, result o = ok v ->
        exists j, Z.of_nat j < FalAIImgGenModel.max_retries self
          /\ yielded o = polls self request_id j
                           ++ [FalAIImgGenModel.Get status; FalAIImgGenModel.Get fetch]
          /\ svc (n + j + 1)%nat fetch = ok v)
  /\ (FalAIImgGenModel.max_retries self <= 0 ->
        o = mkOutcome (err (TimeoutError (timeout_message request_id))) n []).
Proof.
  intros Ho status fetch. subst status fetch.
  assert (H : exists sleep,
             o = FalAIImgGenModel.poll sleep svc self request_id
                   (Z.to_nat (FalAIImgGenModel.max_retries self)) n
             /\ forall n',
                  sleep (FalAIImgGenModel.retry_delay self) n'
                  = mkOutcome (ok tt) n'
                      [FalAIImgGenModel.Sleep (FalAIImgGenModel.retry_delay self)]
                  \/ exists e, sleep (FalAIImgGenModel.retry_delay self) n'
                               = mkOutcome (err e) n' []).
  { destruct Ho as [-> | ->].
    - exists FalAIImgGenModel.time_sleep. split; [reflexivity|].
      intros n'. apply time_sleep_or_raise.
    - exists FalAIImgGenModel.asyncio_sleep. split; [reflexivity|].
      intros n'. apply asyncio_sleep_or_raise. }
  destruct H as (sleep & -> & Hsleep).
  destruct (poll_bounded svc self request_id sleep
              (Z.to_nat (FalAIImgGenModel.max_retries self)) n Hsleep)
    as (B1 & B2 & B3 & B4 & B5).
  split; [lia|]. split; [exact B2|]. split; [exact B3|]. split.
  - intros v Hv. destruct (B4 v Hv) as (j & Hj & Hy & Hs).
    exists j. split; [lia|]. split; assumption.
  - intros Hneg. apply B5. lia.
Qed.

Lemma wait_for_completion_bounded_witness :
  (gets (FalAIImgGenModel.result_url falai_self "r1")
     (yielded (FalAIImgGenModel._wait_for_completion third_time falai_self "r1" 0%nat))
   <= 1)%nat.
Proof.
  exact (proj1 (proj2 (wait_for_completion_bounded third_time falai_self "r1" 0%nat _
                         (or_introl eq_refl)))).
Defined.

(** ** What ends a wait before the result *)

Section PollerStops.
Import FalAIImgGenModel.
Variable svc : Service.
Variable self : t.
Variable request_id : string.
Variable sleep : float -> M nat event unit.
Hypothesis sleep_waits :
  forall n, sleep (retry_delay self) n = mkOutcome (ok tt) n [Sleep (retry_delay self)].



End PollerStops.



(** ** A negative delay *)

Lemma ltb_zero_leb (d : float) :
  PrimFloat.ltb d 0%float = true -> PrimFloat.leb d 0%float = true.
Proof.
  rewrite ltb_spec, leb_spec.
  replace (Prim2SF 0%float) with (S754_zero false) by reflexivity.
  destruct (Prim2SF d) as [s|s| |s m e]; try destruct s; cbn; congruence.
Qed.

Lemma ltb_zero_number (d : float) :
  PrimFloat.ltb d 0%float = true -> PrimFloat.is_nan d = false.
Proof.
  unfold PrimFloat.is_nan. rewrite ltb_spec, FloatAxioms.eqb_spec.
  replace (Prim2SF 0%float) with (S754_zero false) by reflexivity.
  destruct (Prim2SF d) as [s|s| |s m e]; try destruct s; cbn; try congruence.
  intros _. rewrite Z.compare_refl, Pos.compare_refl. reflexivity.
Qed.

(** With a negative [retry_delay] and at least one retry, on a job whose
    status stays [IN_QUEUE] or [IN_PROGRESS], the blocking wait fails
    after its first status request with the exception of [time.sleep]:
    the [ValueError] of a negative delay when the nanoseconds of the
    delay fit, the [OverflowError] when they do not.  The asynchronous
    wait goes through all its retries and fails with the
    [TimeoutError]. *)
Theorem negative_delay_stops_blocking_wait
    (svc : FalAIImgGenModel.Service) (self : FalAIImgGenModel.t)
    (request_id : string) (n : nat) :
  PrimFloat.ltb (FalAIImgGenModel.retry_delay self) 0%float = true ->
  0 < FalAIImgGenModel.max_retries self ->
  let status := FalAIImgGenModel.status_url self request_id in
  (forall j, exists d, svc j status = ok d /\ non_terminal d) ->
  FalAIImgGenModel._wait_for_completion svc self request_id n
  = mkOutcome
      (err (if FalAIImgGenModel.fits_nanoseconds (FalAIImgGenModel.retry_delay self)
            then ValueError "sleep length must be non-negative"
            else OverflowError))
      (S n) [FalAIImgGenModel.Get status]
  /\ FalAIImgGenModel._async_wait_for_completion svc self request_id n
     = mkOutcome (err (TimeoutError (timeout_message request_id)))
         (n + Z.to_nat (FalAIImgGenModel.max_retries self))%nat
         (polls self request_id (Z.to_nat (FalAIImgGenModel.max_retries self))).
Proof.
  intros Hneg Hretries status Hall. subst status. split.
  - unfold FalAIImgGenModel._wait_for_completion.
    destruct (Z.to_nat (FalAIImgGenModel.max_retries self)) as [|m] eqn:Hm; [lia|].
    destruct (Hall n) as (d & Hd & s & Hs & Hq).
    cbn [FalAIImgGenModel.poll]. unfold FalAIImgGenModel._check_status.
    rewrite http_get_run, Hd, bind_lift_ok, Hs, bind_lift_ok.
    assert (Hc : is_str_eq "COMPLETED" (JStr s) = false)
      by (destruct Hq as [-> | ->]; reflexivity).
    assert (Hnt : is_str_eq "IN_QUEUE" (JStr s) || is_str_eq "IN_PROGRESS" (JStr s) = true)
      by (destruct Hq as [-> | ->]; reflexivity).
    rewrite Hc, Hnt. unfold bind, FalAIImgGenModel.time_sleep.
    rewrite (ltb_zero_number _ Hneg), Hneg.
    destruct (FalAIImgGenModel.fits_nanoseconds (FalAIImgGenModel.retry_delay self));
      reflexivity.
  - unfold FalAIImgGenModel._async_wait_for_completion.
    apply poll_times_out.
    + intros n'. unfold FalAIImgGenModel.asyncio_sleep.
      rewrite (ltb_zero_leb _ Hneg). reflexivity.
    + intros j _. apply Hall.
Qed.

Lemma negative_delay_stops_blocking_wait_witness :
  FalAIImgGenModel._wait_for_completion stuck falai_negative_delay "r1" 0%nat
  = mkOutcome (err (ValueError "sleep length must be non-negative")) 1%nat
      [FalAIImgGenModel.Get "https://queue.fal.run/fal-ai/flux-pro/requests/r1/status"]
  /\ result (FalAIImgGenModel._async_wait_for_completion stuck falai_negative_delay "r1" 0%nat)
     = err (TimeoutError "Request r1 did not complete within the timeout period").
Proof.
  destruct (negative_delay_stops_blocking_wait stuck falai_negative_delay "r1" 0%nat)
    as [Hsync Hasync].
  - reflexivity.
  - reflexivity.
  - intros j. exists in_progress. split; [reflexivity|exact in_progress_non_terminal].
  - split; [exact Hsync|]. rewrite Hasync. reflexivity.
Defined.

(** ** Generating an image *)

Section GenerateImage.
Import FalAIImgGenModel.
Variable to_str : json -> string.
Variable queue : Queue.
Variable svc : Service.
Variable self : t.
Variable prompt : string.
Variable kwargs : list (string * json).

Lemma generate_image_unfold (wait : Service -> t -> string -> M nat event json) n :
  (initial_response <- _send_request queue self prompt kwargs ;;
   request_id <- lift (getitem initial_response "request_id") ;;
   final_response <- wait svc self (format to_str request_id) ;;
   lift (image_url final_response)) n
  = match queue n (_BASE_URL self +:+ "/" +:+ model_name self)
            (JDict (("prompt", JStr prompt) :: kwargs)) with
    | inl e => mkOutcome (err e) n []
    | inr initial_response =>
        match getitem initial_response "request_id" with
        | inl e => mkOutcome (err e) n []
        | inr request_id =>
            let w := wait svc self (format to_str request_id) n in
            mkOutcome (rbind (result w) image_url) (final w) (yielded w)
        end
    end.
Proof.
  unfold _send_request, _create_request_payload. cbv zeta.
  rewrite bind_bind, bind_read.
  destruct (queue n _ _) as [e|initial_response]; [reflexivity|].
  change (inr initial_response) with (ok initial_response : Result json).
  rewrite bind_lift_ok.
  destruct (getitem initial_response "request_id") as [e|request_id]; [reflexivity|].
  change (inr request_id) with (ok request_id : Result json).
  rewrite bind_lift_ok. unfold bind, lift.
  destruct (wait svc self (format to_str request_id) n) as [[e|v] s w]; cbn.
  - reflexivity.
  - rewrite app_nil_r. reflexivity.
Qed.

End GenerateImage.



(** When the queue refuses the job, or its answer has no [request_id],
    [generate_image] and [agenerate_image] fail with that exception
    without a single status request. *)
Theorem generate_image_without_job
    (to_str : json -> string) (queue : FalAIImgGenModel.Queue)
    (svc : FalAIImgGenModel.Service) (self : FalAIImgGenModel.t)
    (prompt : string) (kwargs : list (string * json)) (n : nat) (e : exn) :
  let answer :=
    queue n (FalAIImgGenModel._BASE_URL self +:+ "/" +:+ FalAIImgGenModel.model_name self)
      (JDict (("prompt", JStr prompt) :: kwargs)) in
  answer = err e
  \/ (exists initial_response,
        answer = ok initial_response /\ getitem initial_response "request_id" = err e) ->
  FalAIImgGenModel.generate_image to_str queue svc self prompt kwargs n
  = mkOutcome (err e) n []
  /\ FalAIImgGenModel.agenerate_image to_str queue svc self prompt kwargs n
     = mkOutcome (err e) n [].
Proof.
  intros answer Hanswer. subst answer.
  unfold FalAIImgGenModel.generate_image, FalAIImgGenModel.agenerate_image.
  rewrite !generate_image_unfold.
  destruct Hanswer as [-> | (initial_response & -> & Hid)].
  - split; reflexivity.
  - unfold ok. rewrite Hid. split; reflexivity.
Qed.

Lemma generate_image_without_job_witness :
  FalAIImgGenModel.generate_image no_str queue_down third_time falai_self "a cat" [] 0%nat
  = mkOutcome (err (HTTPError "503")) 0%nat [].
Proof.
  exact (proj1 (generate_image_without_job no_str queue_down third_time falai_self
                  "a cat" [] 0%nat (HTTPError "503") (or_introl eq_refl))).
Defined.

(** ** Comprehensions *)

Lemma bind_ext {St W A B} (c : M St W A) (k k' : A -> M St W B) s :
  (forall a s', k a s' = k' a s') -> bind c k s = bind c k' s.
Proof. intros H. unfold bind. destruct (result (c s)); [reflexivity|]. rewrite H. reflexivity. Qed.

Lemma bind_ret_r {St W A} (c : M St W A) s :
  bind c (fun a => ret a) s = c s.
Proof.
  unfold bind, ret. destruct (c s) as [[e|a] s' w]; cbn; [reflexivity|].
  rewrite app_nil_r. reflexivity.
Qed.

Section Comprehension.
Context {St W X A : Type}.
Variable f : nat -> X -> M St W A.

Lemma comprehension_app i l1 l2 s :
  comprehension f i (l1 ++ l2) s =
    (rs1 <- comprehension f i l1 ;;
     rs2 <- comprehension f (i + length l1) l2 ;;
     ret (rs1 ++ rs2)) s.
Proof.
  revert i s. induction l1 as [|x l1 IH]; intros i s.
  - cbn [app comprehension length]. rewrite bind_ret, Nat.add_0_r.
    cbn [app]. rewrite bind_ret_r. reflexivity.
  - cbn [app comprehension length].
    unfold bind. destruct (f i x s) as [[e|a] s1 w1]; cbn [result final yielded];
      [reflexivity|].
    rewrite IH. unfold bind.
    replace (S i + length l1)%nat with (i + S (length l1))%nat by lia.
    destruct (comprehension f (S i) l1 s1) as [[e|rs1] s2 w2];
      cbn [result final yielded ret]; [reflexivity|].
    destruct (comprehension f (i + S (length l1)) l2 s2) as [[e|rs2] s3 w3];
      cbn; rewrite ?app_nil_r, ?app_assoc; reflexivity.
Qed.

Lemma comprehension_length i l s rs :
  result (comprehension f i l s) = ok rs -> length rs = length l.
Proof.
  revert i s rs. induction l as [|x l IH]; intros i s rs.
  - cbn. intros H. injection H as <-. reflexivity.
  - cbn [comprehension]. unfold bind.
    destruct (f i x s) as [[e|a] s1 w1]; cbn; [discriminate|].
    destruct (comprehension f (S i) l s1) as [[e|rest] s2 w2] eqn:Hrest; cbn;
      [discriminate|].
    intros H. injection H as <-. cbn [length]. f_equal.
    apply (IH (S i) s1). rewrite Hrest. reflexivity.
Qed.

End Comprehension.

Lemma comprehension_places {St W X A} (g : X -> M St W A) i j l s :
  comprehension (fun _ => g) i l s = comprehension (fun _ => g) j l s.
Proof.
  revert i j s. induction l as [|x l IH]; intros i j s; [reflexivity|].
  cbn [comprehension]. apply bind_ext. intros a s'.
  unfold bind. rewrite (IH (S i) (S j)). reflexivity.
Qed.

(** ** A batch of prompts *)

(** [batch] of the image adapter generates the images from left to
    right: the batch of a concatenation is the batch of the first list
    followed by the batch of the second, the URLs put together in that
    order; a batch that returns gives one URL per prompt; and when the
    batch of the first prompts fails, the whole batch fails in the same
    way, with the requests of those first prompts only. *)
Theorem falai_batch_in_sequence
    (to_str : json -> string) (queue : FalAIImgGenModel.Queue)
    (svc : FalAIImgGenModel.Service) (self : FalAIImgGenModel.t)
    (kwargs : list (string * json)) :
  let batch := fun prompts => FalAIImgGenModel.batch to_str queue svc self prompts kwargs in
  (forall p1 p2 n,
      batch (p1 ++ p2) n
      = (urls1 <- batch p1 ;; urls2 <- batch p2 ;; ret (urls1 ++ urls2)) n)
  /\ (forall prompts n urls,
        result (batch prompts n) = ok urls -> length urls = length prompts)
  /\ (forall p1 p2 n e,
        result (batch p1 n) = err e ->
        batch (p1 ++ p2) n
        = mkOutcome (err e) (final (batch p1 n)) (yielded (batch p1 n)))
  /\ (forall prompt n,
        batch [prompt] n
        = (url <- FalAIImgGenModel.generate_image to_str queue svc self prompt kwargs ;;
           ret [url]) n).
Proof.
  intros batch.
  assert (Happ : forall p1 p2 n,
             batch (p1 ++ p2) n
             = (urls1 <- batch p1 ;; urls2 <- batch p2 ;; ret (urls1 ++ urls2)) n).
  { intros p1 p2 n. subst batch. unfold FalAIImgGenModel.batch.
    rewrite comprehension_app. apply bind_ext. intros urls1 s'.
    unfold bind. rewrite (comprehension_places _ (0 + length p1) 0). reflexivity. }
  split; [exact Happ|]. split; [|split].
  - intros prompts n urls. apply comprehension_length.
  - intros p1 p2 n e He. rewrite Happ. apply bind_err. exact He.
  - intros prompt n. subst batch. unfold FalAIImgGenModel.batch.
    cbn [comprehension]. apply bind_ext. intros url s'. rewrite bind_ret. reflexivity.
Qed.

Lemma falai_batch_in_sequence_witness :
  FalAIImgGenModel.batch no_str queue_down third_time falai_self (["a cat"] ++ ["a dog"]) [] 0%nat
  = mkOutcome (err (HTTPError "503")) 0%nat [].
Proof.
  exact (proj1 (proj2 (proj2
           (falai_batch_in_sequence no_str queue_down third_time falai_self [])))
           ["a cat"] ["a dog"] 0%nat (HTTPError "503") eq_refl).
Defined.

(** ** Calls on a list of conversations, one after the other *)

Section InTurn.
Context {W : Type}.
Variable call : nat -> M Conversation W unit.

Lemma in_turn_cons i l convs (h : gmap nat Conversation) :
  comprehension (fun i conv => on_object conv (call i)) i (l :: convs) h =
    let o := call i (h !!! l) in
    match result o with
    | inl e => mkOutcome (inl e) (<[l := final o]> h) (yielded o)
    | inr _ =>
        let o' := comprehension (fun i conv => on_object conv (call i)) (S i) convs
                    (<[l := final o]> h) in
        mkOutcome (match result o' with
                   | inl e => inl e
                   | inr ls => inr (l :: ls)
                   end)
          (final o') (yielded o ++ yielded o')
    end.
Proof.
  cbn [comprehension]. unfold bind at 1. unfold on_object at 1.
  cbn [result final yielded]. cbv zeta.
  destruct (result (call i (h !!! l))) as [e|[]]; [reflexivity|].
  unfold bind, ret.
  destruct (comprehension _ (S i) convs _) as [[e|ls] h' w']; cbn; [reflexivity|].
  rewrite app_nil_r. reflexivity.
Qed.

Lemma in_turn_untouched i convs (h : gmap nat Conversation) l :
  l ∉ convs ->
  final (comprehension (fun i conv => on_object conv (call i)) i convs h) !!! l = h !!! l.
Proof.
  revert i h. induction convs as [|l0 convs IH]; intros i h Hl; [reflexivity|].
  apply not_elem_of_cons in Hl as [Hne Hl].
  rewrite in_turn_cons. cbv zeta.
  destruct (result (call i (h !!! l0))) as [e|[]]; cbn [final].
  - apply lookup_total_insert_ne. congruence.
  - rewrite (IH _ _ Hl). apply lookup_total_insert_ne. congruence.
Qed.

Lemma in_turn_returns_the_list i convs (h : gmap nat Conversation) ls :
  result (comprehension (fun i conv => on_object conv (call i)) i convs h) = ok ls ->
  ls = convs.
Proof.
  revert i h ls. induction convs as [|l0 convs IH]; intros i h ls.
  - cbn. intros H. injection H as <-. reflexivity.
  - rewrite in_turn_cons. cbv zeta.
    destruct (result (call i (h !!! l0))) as [e|[]]; cbn [result]; [discriminate|].
    destruct (result (comprehension _ (S i) convs _)) as [e|ls'] eqn:Hrest; [discriminate|].
    intros H. injection H as <-. f_equal. exact (IH _ _ _ Hrest).
Qed.

Lemma in_turn_all i convs (h : gmap nat Conversation) :
  NoDup convs ->
  (forall j l, convs !! j = Some l -> result (call (i + j)%nat (h !!! l)) = ok tt) ->
  let o := comprehension (fun i conv => on_object conv (call i)) i convs h in
  result o = ok convs
  /\ forall j l, convs !! j = Some l -> final o !!! l = final (call (i + j)%nat (h !!! l)).
Proof.
  revert i h. induction convs as [|l0 convs IH]; intros i h Hnd Hall o; subst o.
  - split; [reflexivity|]. intros j l Hj. discriminate.
  - apply NoDup_cons in Hnd as [Hl0 Hnd].
    pose proof (Hall 0%nat l0 eq_refl) as H0. rewrite Nat.add_0_r in H0.
    rewrite in_turn_cons. cbv zeta. rewrite H0.
    destruct (IH (S i) (<[l0 := final (call i (h !!! l0))]> h) Hnd) as [Hres Hfin].
    { intros j l Hj.
      assert (Hne : l0 <> l) by (intros ->; apply Hl0; exact (list_elem_of_lookup_2 _ _ _ Hj)).
      rewrite lookup_total_insert_ne by exact Hne.
      replace (S i + j)%nat with (i + S j)%nat by lia. exact (Hall (S j) l Hj). }
    cbn [result final ok err]. rewrite Hres. cbn [result final ok err]. split; [reflexivity|].
    intros [|j] l Hj.
    + injection Hj as <-. rewrite Nat.add_0_r.
      rewrite (in_turn_untouched _ _ _ _ Hl0). apply lookup_total_insert_eq.
    + cbn in Hj. rewrite (Hfin j l Hj).
      assert (Hne : l0 <> l) by (intros ->; apply Hl0; exact (list_elem_of_lookup_2 _ _ _ Hj)).
      rewrite lookup_total_insert_ne by exact Hne.
      replace (S i + j)%nat with (i + S j)%nat by lia. reflexivity.
Qed.

Lemma in_turn_first_failure i convs (h : gmap nat Conversation) k lk e :
  NoDup convs ->
  convs !! k = Some lk ->
  (forall j l, (j < k)%nat -> convs !! j = Some l ->
     result (call (i + j)%nat (h !!! l)) = ok tt) ->
  result (call (i + k)%nat (h !!! lk)) = err e ->
  let o := comprehension (fun i conv => on_object conv (call i)) i convs h in
  result o = err e
  /\ forall j l, convs !! j = Some l ->
       final o !!! l = if bool_decide (j <= k)%nat
                       then final (call (i + j)%nat (h !!! l))
                       else h !!! l.
Proof.
  revert i h k. induction convs as [|l0 convs IH]; intros i h k Hnd Hk Hbefore Hfail o;
    subst o; [discriminate|].
  apply NoDup_cons in Hnd as [Hl0 Hnd].
  rewrite in_turn_cons. cbv zeta.
  destruct k as [|k].
  - injection Hk as ->. rewrite Nat.add_0_r in Hfail. rewrite Hfail.
    cbn [result final ok err]. split; [reflexivity|].
    intros [|j] l Hj.
    + injection Hj as <-. rewrite Nat.add_0_r. apply lookup_total_insert_eq.
    + cbn in Hj.
      assert (Hne : lk <> l) by (intros ->; apply Hl0; exact (list_elem_of_lookup_2 _ _ _ Hj)).
      rewrite bool_decide_eq_false_2 by lia.
      apply lookup_total_insert_ne. exact Hne.
  - cbn in Hk.
    pose proof (Hbefore 0%nat l0 ltac:(lia) eq_refl) as H0. rewrite Nat.add_0_r in H0.
    rewrite H0.
    assert (Hlk : l0 <> lk)
      by (intros ->; apply Hl0; exact (list_elem_of_lookup_2 _ _ _ Hk)).
    destruct (IH (S i) (<[l0 := final (call i (h !!! l0))]> h) k Hnd Hk) as [Hres Hfin].
    { intros j l Hlt Hj.
      assert (Hne : l0 <> l) by (intros ->; apply Hl0; exact (list_elem_of_lookup_2 _ _ _ Hj)).
      rewrite lookup_total_insert_ne by exact Hne.
      replace (S i + j)%nat with (i + S j)%nat by lia.
      exact (Hbefore (S j) l ltac:(lia) Hj). }
    { rewrite lookup_total_insert_ne by exact Hlk.
      replace (S i + k)%nat with (i + S k)%nat by lia. exact Hfail. }
    cbn [result final ok err]. rewrite Hres. cbn [result final ok err]. split; [reflexivity|].
    intros [|j] l Hj.
    + injection Hj as <-. rewrite Nat.add_0_r.
      rewrite bool_decide_eq_true_2 by lia.
      rewrite (in_turn_untouched _ _ _ _ Hl0). apply lookup_total_insert_eq.
    + cbn in Hj. rewrite (Hfin j l Hj).
      assert (Hne : l0 <> l) by (intros ->; apply Hl0; exact (list_elem_of_lookup_2 _ _ _ Hj)).
      rewrite lookup_total_insert_ne by exact Hne.
      replace (S i + j)%nat with (i + S j)%nat by lia.
      destruct (bool_decide_reflect (j <= k)%nat);
        [rewrite bool_decide_eq_true_2 by lia|rewrite bool_decide_eq_false_2 by lia];
        reflexivity.
Qed.

End InTurn.

Lemma comprehension_ext {St W X A} (f g : nat -> X -> M St W A) i l s :
  (forall j x s', f j x s' = g j x s') ->
  comprehension f i l s = comprehension g i l s.
Proof.
  intros H. revert i s. induction l as [|x l IH]; intros i s; [reflexivity|].
  cbn [comprehension]. unfold bind. rewrite H.
  destruct (result (g i x s)); [reflexivity|]. rewrite IH. reflexivity.
Qed.

(** ** The sequential and the concurrent batch *)

Section Batches.
Import Asyncio.
Context {W : Type}.
Variable request : Conversation -> json.
Variable send : nat -> json -> Result json.
Variable finish : nat -> json -> M Conversation W unit.

Lemma heap_untouched_run conversations schedule s s' l :
  l ∉ conversations ->
  run request send finish conversations schedule s = Some s' ->
  heap s' !!! l = heap s !!! l.
Proof.
  intros Hl. revert s. induction schedule as [|c schedule IH]; intros s Hrun.
  - injection Hrun as <-. reflexivity.
  - cbn [run] in Hrun.
    destruct (exec request send finish conversations c s) as [s1|] eqn:Hexec;
      [|discriminate].
    rewrite (IH _ Hrun). destruct c as [i|i].
    + destruct (exec_acquire _ _ _ _ _ _ _ Hexec) as (l' & _ & _ & _ & ->). reflexivity.
    + destruct (exec_complete _ _ _ _ _ _ _ Hexec) as (l' & payload & _ & Hl' & Hs').
      cbn zeta in Hs'. subst s1. cbn [heap].
      apply lookup_total_insert_ne. intros <-.
      apply Hl. exact (list_elem_of_lookup_2 _ _ _ Hl').
Qed.

Lemma in_turn_updates :
  updates_in_turn
    (comprehension (fun i conv => on_object conv (apredict_item request send finish i)) 0)
    (run request send finish)
    (apredict_item request send finish).
Proof.
  intros conversations h Hnd Hall o.
  destruct (in_turn_all (apredict_item request send finish) 0 conversations h Hnd Hall)
    as [Hres Hfin].
  fold o in Hres, Hfin.
  assert (Hout : forall l, l ∉ conversations -> final o !!! l = h !!! l)
    by (intros l Hl; apply in_turn_untouched; exact Hl).
  split; [exact Hres|]. split; [exact Hfin|]. split; [exact Hout|].
  intros max_concurrent s0 schedule s Hceiling Hstart Hrun Hdone.
  destruct (batch_returns_in_order request send finish max_concurrent conversations h s0
              Hceiling Hnd Hstart Hall) as [_ Hevery].
  destruct (Hevery schedule s Hrun) as (_ & _ & Hend).
  destruct (Hend Hdone) as (Hg & _ & Hheap).
  split; [exact Hg|].
  intros l. destruct (decide (l ∈ conversations)) as [Hin|Hnotin].
  - apply list_elem_of_lookup_1 in Hin as [i Hi].
    rewrite (Hheap i l Hi), (Hfin i l Hi). reflexivity.
  - rewrite (heap_untouched_run _ _ _ _ _ Hnotin Hrun), (Hout l Hnotin).
    unfold start in Hstart. destruct (max_concurrent <? 0); [discriminate|].
    injection Hstart as <-. reflexivity.
Qed.

End Batches.

Lemma in_turn_stops {W} (call : nat -> M Conversation W unit) :
  stops_at_first_failure
    (comprehension (fun i conv => on_object conv (call i)) 0) call.
Proof.
  intros conversations h k lk e Hnd Hk Hbefore Hfail o.
  destruct (in_turn_first_failure call 0 conversations h k lk e Hnd Hk Hbefore Hfail)
    as [Hres Hfin].
  fold o in Hres, Hfin.
  split; [exact Hres|]. split; [|split].
  - intros i l Hi Hle. rewrite (Hfin i l Hi).
    rewrite bool_decide_eq_true_2 by exact Hle. reflexivity.
  - intros i l Hi Hlt. rewrite (Hfin i l Hi).
    rewrite bool_decide_eq_false_2 by lia. reflexivity.
  - intros l Hl. apply in_turn_untouched. exact Hl.
Qed.

Lemma groq_payload_default_tool_choice convert self toolkit tool_choice
    temperature max_tokens conversation :
  GroqToolModel.payload_of convert self toolkit
    (if toolkit_truthy toolkit && negb (str_truthy tool_choice)
     then Some "auto" else tool_choice) temperature max_tokens conversation
  = GroqToolModel.payload_of convert self toolkit tool_choice
      temperature max_tokens conversation.
Proof.
  unfold GroqToolModel.payload_of.
  destruct (toolkit_truthy toolkit); [|reflexivity].
  destruct (str_truthy tool_choice) eqn:Htc; cbn [andb negb]; [rewrite Htc|];
    reflexivity.
Qed.

Lemma groq_batch_unfold {W} json_loads json_dumps convert self net toolkit tool_choice
    temperature max_tokens conversations h :
  GroqToolModel.batch (W := W) json_loads json_dumps convert self net toolkit
    tool_choice temperature max_tokens conversations h
  = comprehension
      (fun i conv =>
         on_object conv
           (GroqToolModel.predict json_loads json_dumps convert self (net i) toolkit
              tool_choice temperature max_tokens))
      0 conversations h.
Proof.
  unfold GroqToolModel.batch. cbv zeta. apply comprehension_ext.
  intros j x s'. unfold on_object, GroqToolModel.predict.
  rewrite !bind_read, groq_payload_default_tool_choice. reflexivity.
Qed.

(** [batch] of the Cohere adapter and of the Groq adapter, on distinct
    conversations whose calls all succeed alone, return the list they were
    given with each conversation updated by its own [predict] and no other
    conversation touched; and [abatch] with a ceiling of at least one,
    whatever the interleaving, returns the same list and leaves the same
    conversations. *)
Theorem batch_updates_in_turn :
  (forall (W : Type) (lax_int : json -> option Z)
          (self : CohereModel.t) (net : nat -> Network)
          (dur : nat -> Durations) (temperature : float) (max_tokens : Z),
      updates_in_turn (W := W)
        (CohereModel.batch lax_int self net dur temperature max_tokens)
        (CohereModel.abatch_run (W := W) lax_int self net dur temperature max_tokens)
        (fun i => CohereModel.predict lax_int self (net i) (dur i) temperature max_tokens))
  /\ (forall (W : Type) (json_loads : string -> Result json)
            (json_dumps : json -> string) (convert : Tool -> json)
            (self : GroqToolModel.t) (net : nat -> Network)
            (toolkit : option Toolkit) (tool_choice : option string)
            (temperature : float) (max_tokens : Z),
      updates_in_turn (W := W)
        (GroqToolModel.batch json_loads json_dumps convert self net toolkit
           tool_choice temperature max_tokens)
        (GroqToolModel.abatch_run (W := W) json_loads json_dumps convert self net
           toolkit tool_choice temperature max_tokens)
        (fun i => GroqToolModel.predict json_loads json_dumps convert self (net i)
                    toolkit tool_choice temperature max_tokens)).
Proof.
  split.
  - intros W lax_int self net dur temperature max_tokens.
    exact (in_turn_updates
             (CohereModel.payload_of self temperature max_tokens false)
             (fun i => post (net i) (CohereModel.base_url self +:+ "/chat")
                         (CohereModel.headers self))
             (fun i => CohereModel.complete lax_int (dur i))).
  - intros W json_loads json_dumps convert self net toolkit tool_choice
      temperature max_tokens conversations h Hnd Hall.
    rewrite groq_batch_unfold.
    exact (in_turn_updates
             (GroqToolModel.payload_of convert self toolkit tool_choice
                temperature max_tokens)
             (fun i => post (net i) (GroqToolModel._api_url self)
                         (GroqToolModel._headers self))
             (fun _ => GroqToolModel.process_response json_loads json_dumps toolkit)
             conversations h Hnd Hall).
Qed.

Lemma batch_updates_in_turn_witness :
  let o := CohereModel.batch (W := Empty_set) decimal_int cohere_self says_hi
             (fun _ => no_durations) 0.5%float 256 [7%nat; 9%nat] two_conversations in
  result o = ok [7%nat; 9%nat]
  /\ final o !!! 7%nat = answered "one"
  /\ final o !!! 9%nat = answered "two".
Proof.
  intros o.
  destruct (proj1 batch_updates_in_turn Empty_set decimal_int cohere_self says_hi
              (fun _ => no_durations) 0.5%float 256 [7%nat; 9%nat] two_conversations
              two_distinct) as (Hres & Hfin & _).
  - intros [|[|i]] l Hl; try discriminate; injection Hl as <-; reflexivity.
  - split; [exact Hres|]. split.
    + exact (Hfin 0%nat 7%nat eq_refl).
    + exact (Hfin 1%nat 9%nat eq_refl).
Defined.

(** [batch] of the Cohere adapter and of the Groq adapter stop at the
    first call that raises, with its exception: the conversations before
    it keep their answers, the failing one is as the failed call left it,
    and the later ones are not sent at all. *)
Theorem batch_stops_at_first_failure :
  (forall (W : Type) (lax_int : json -> option Z)
          (self : CohereModel.t) (net : nat -> Network)
          (dur : nat -> Durations) (temperature : float) (max_tokens : Z),
      stops_at_first_failure (W := W)
        (CohereModel.batch lax_int self net dur temperature max_tokens)
        (fun i => CohereModel.predict lax_int self (net i) (dur i) temperature max_tokens))
  /\ (forall (W : Type) (json_loads : string -> Result json)
            (json_dumps : json -> string) (convert : Tool -> json)
            (self : GroqToolModel.t) (net : nat -> Network)
            (toolkit : option Toolkit) (tool_choice : option string)
            (temperature : float) (max_tokens : Z),
      stops_at_first_failure (W := W)
        (GroqToolModel.batch json_loads json_dumps convert self net toolkit
           tool_choice temperature max_tokens)
        (fun i => GroqToolModel.predict json_loads json_dumps convert self (net i)
                    toolkit tool_choice temperature max_tokens)).
Proof.
  split.
  - intros W lax_int self net dur temperature max_tokens.
    exact (in_turn_stops
             (fun i => CohereModel.predict lax_int self (net i) (dur i) temperature max_tokens)).
  - intros W json_loads json_dumps convert self net toolkit tool_choice
      temperature max_tokens conversations h k lk e Hnd Hk Hbefore Hfail.
    rewrite groq_batch_unfold.
    exact (in_turn_stops
             (fun i => GroqToolModel.predict json_loads json_dumps convert self (net i)
                         toolkit tool_choice temperature max_tokens)
             conversations h k lk e Hnd Hk Hbefore Hfail).
Qed.

Lemma three_distinct : NoDup [7%nat; 9%nat; 4%nat].
Proof. apply (bool_decide_unpack _). vm_compute. exact I. Qed.

Lemma batch_stops_at_first_failure_witness :
  let o := CohereModel.batch (W := Empty_set) decimal_int cohere_self second_fails
             (fun _ => no_durations) 0.5%float 256 [7%nat; 9%nat; 4%nat]
             three_conversations in
  result o = err (HTTPError "503")
  /\ final o !!! 7%nat = answered "one"
  /\ final o !!! 9%nat = mkConversation [human "two"]
  /\ final o !!! 4%nat = mkConversation [human "three"].
Proof.
  intros o.
  destruct (proj1 batch_stops_at_first_failure Empty_set decimal_int cohere_self second_fails
              (fun _ => no_durations) 0.5%float 256 [7%nat; 9%nat; 4%nat]
              three_conversations 1%nat 9%nat (HTTPError "503") three_distinct eq_refl)
    as (Hres & Hupto & Hafter & _).
  - intros [|i] l Hlt Hl; [|lia]. injection Hl as <-. reflexivity.
  - reflexivity.
  - split; [exact Hres|]. split; [|split].
    + exact (Hupto 0%nat 7%nat eq_refl ltac:(lia)).
    + exact (Hupto 1%nat 9%nat eq_refl ltac:(lia)).
    + exact (Hafter 2%nat 4%nat eq_refl ltac:(lia)).
Defined.

(** ** The edges of a concurrent batch *)

Section Edges.
Import Asyncio.
Context {W : Type}.
Variable request : Conversation -> json.
Variable send : nat -> json -> Result json.
Variable finish : nat -> json -> M Conversation W unit.

Lemma run_app conversations schedule schedule' s :
  run request send finish conversations (schedule ++ schedule') s
  = match run request send finish conversations schedule s with
    | Some s1 => run request send finish conversations schedule' s1
    | None => None
    end.
Proof.
  revert s. induction schedule as [|c schedule IH]; intros s; [reflexivity|].
  cbn [app run]. destruct (exec request send finish conversations c s); [apply IH|reflexivity].
Qed.

Lemma asyncio_gate_edges : gate_edges start (run request send finish).
Proof.
  intros max_concurrent conversations h. split.
  - intros Hneg. unfold start. apply Z.ltb_lt in Hneg. rewrite Hneg. reflexivity.
  - intros s0 Hstart. unfold start in Hstart.
    destruct (max_concurrent <? 0); [discriminate|]. injection Hstart as <-.
    split.
    + intros ->. split; [reflexivity|].
      intros [|c schedule] s Hrun; [reflexivity|].
      cbn [run] in Hrun. destruct c as [i|i]; cbn in Hrun; discriminate.
    + intros -> Hne. split.
      * unfold gathered. cbn [failure tasks].
        destruct conversations as [|l conversations]; [congruence|reflexivity].
      * intros [|c schedule] s Hrun; [reflexivity|].
        cbn [run] in Hrun. destruct c as [i|i]; cbn [exec tasks sem_value] in Hrun.
        -- destruct (replicate (length conversations) Pending !! i) as [[| |]|];
             try discriminate.
           destruct (conversations !! i); discriminate.
        -- destruct (replicate (length conversations) Pending !! i) as [t|] eqn:Hi;
             [|discriminate].
           apply lookup_replicate in Hi as [-> _]. discriminate.
Qed.

Lemma failure_kept_exec conversations c s s' e :
  exec request send finish conversations c s = Some s' ->
  failure s = Some e -> failure s' = Some e.
Proof.
  intros Hexec Hf. destruct c as [i|i].
  - destruct (exec_acquire _ _ _ _ _ _ _ Hexec) as (l & _ & _ & _ & ->). exact Hf.
  - destruct (exec_complete _ _ _ _ _ _ _ Hexec) as (l & payload & _ & _ & Hs').
    cbn zeta in Hs'. subst s'. cbn [failure]. rewrite Hf. reflexivity.
Qed.

Lemma failure_kept_run conversations schedule s s' e :
  run request send finish conversations schedule s = Some s' ->
  failure s = Some e -> failure s' = Some e.
Proof.
  revert s. induction schedule as [|c schedule IH]; intros s Hrun Hf.
  - injection Hrun as <-. exact Hf.
  - cbn [run] in Hrun.
    destruct (exec request send finish conversations c s) as [s1|] eqn:Hexec;
      [|discriminate].
    exact (IH s1 Hrun (failure_kept_exec _ _ _ _ _ Hexec Hf)).
Qed.

(** The exception that [gather] has is the result of a finished task. *)
Lemma failure_of_a_task_exec conversations c s s' :
  (forall e, failure s = Some e -> exists i, tasks s !! i = Some (Done (inl e))) ->
  exec request send finish conversations c s = Some s' ->
  forall e, failure s' = Some e -> exists i, tasks s' !! i = Some (Done (inl e)).
Proof.
  intros Hinv Hexec e He. destruct c as [i|i].
  - destruct (exec_acquire _ _ _ _ _ _ _ Hexec) as (l & Hi & _ & _ & ->).
    cbn [failure tasks] in *. destruct (Hinv e He) as (j & Hj).
    exists j. destruct (decide (i = j)) as [<-|Hne].
    + rewrite Hi in Hj. discriminate.
    + rewrite list_lookup_insert_ne by exact Hne. exact Hj.
  - destruct (exec_complete _ _ _ _ _ _ _ Hexec) as (l & payload & Hi & _ & Hs').
    cbn zeta in Hs'. subst s'. cbn [failure tasks] in *.
    pose proof (lookup_lt_Some _ _ _ Hi) as Hlt.
    destruct (failure s) as [e0|] eqn:Hf.
    + injection He as <-. destruct (Hinv e0 eq_refl) as (j & Hj).
      exists j. destruct (decide (i = j)) as [<-|Hne].
      * rewrite Hi in Hj. discriminate.
      * rewrite list_lookup_insert_ne by exact Hne. exact Hj.
    + destruct (result _) as [e1|] eqn:Hr; [|discriminate].
      injection He as <-. exists i.
      rewrite list_lookup_insert_eq by exact Hlt. reflexivity.
Qed.

Lemma failure_of_a_task_run conversations schedule s s' :
  (forall e, failure s = Some e -> exists i, tasks s !! i = Some (Done (inl e))) ->
  run request send finish conversations schedule s = Some s' ->
  forall e, failure s' = Some e -> exists i, tasks s' !! i = Some (Done (inl e)).
Proof.
  revert s. induction schedule as [|c schedule IH]; intros s Hinv Hrun.
  - injection Hrun as <-. exact Hinv.
  - cbn [run] in Hrun.
    destruct (exec request send finish conversations c s) as [s1|] eqn:Hexec;
      [|discriminate].
    exact (IH s1 (failure_of_a_task_exec _ _ _ _ Hinv Hexec) Hrun).
Qed.

Lemma asyncio_reports_first_failure :
  reports_first_failure start (run request send finish)
    (apredict_item request send finish).
Proof.
  intros max_concurrent conversations h s0 s schedule e Hnd Hstart Hrun Hg.
  pose proof (placed_start _ _ _ _ Hstart) as Hplaced0.
  pose proof (tracks_start request send finish _ _ _ _ Hstart) as Htracks0.
  pose proof (placed_run _ _ _ _ _ _ _ Hplaced0 Hrun) as (Hlen & _ & _).
  pose proof (tracks_run _ _ _ _ _ Hnd _ _ _ Htracks0 Hrun) as Htracks.
  assert (Hf : failure s = Some e).
  { unfold gathered in Hg. destruct (failure s) as [e0|].
    - injection Hg as <-. reflexivity.
    - destruct (values (tasks s)); discriminate. }
  assert (Hinv0 : forall e0, failure s0 = Some e0 ->
                    exists i, tasks s0 !! i = Some (Done (inl e0))).
  { unfold start in Hstart. destruct (max_concurrent <? 0); [discriminate|].
    injection Hstart as <-. discriminate. }
  split.
  - destruct (failure_of_a_task_run _ _ _ _ Hinv0 Hrun e Hf) as (i & Hi).
    destruct (lookup_lt_is_Some_2 conversations i) as [l Hl].
    { rewrite <- Hlen. exact (lookup_lt_Some _ _ _ Hi). }
    exists i, l. split; [exact Hl|]. split; [exact Hi|].
    destruct (Htracks _ _ _ Hl Hi) as [_ Hr]. unfold outcome_of in Hr.
    destruct (result (apredict_item request send finish i (h !!! l))) as [e'|];
      [|discriminate].
    injection Hr as ->. reflexivity.
  - intros schedule' s' Hrun'.
    assert (Hwhole : run request send finish conversations (schedule ++ schedule') s0
                     = Some s') by (rewrite run_app, Hrun; exact Hrun').
    split; [|split].
    + unfold gathered. rewrite (failure_kept_run _ _ _ _ _ Hrun' Hf). reflexivity.
    + intros i l r Hl Hi.
      exact (proj1 (tracks_run _ _ _ _ _ Hnd _ _ _ Htracks0 Hwhole _ _ _ Hl Hi)).
    + intros l Hl. rewrite (heap_untouched_run _ _ _ _ _ _ _ _ Hl Hwhole).
      unfold start in Hstart. destruct (max_concurrent <? 0); [discriminate|].
      injection Hstart as <-. reflexivity.
Qed.

End Edges.

(** [abatch] of the Cohere adapter and of the Groq adapter refuse a
    negative [max_concurrent] before any request; return the empty list at
    once for an empty list of conversations; and with [max_concurrent] at
    zero and a conversation to process, admit no call and never return. *)
Theorem abatch_gate_edges :
  (forall (W : Type) (lax_int : json -> option Z)
          (self : CohereModel.t) (net : nat -> Network)
          (dur : nat -> Durations) (temperature : float) (max_tokens : Z),
      gate_edges CohereModel.abatch_start
        (CohereModel.abatch_run (W := W) lax_int self net dur temperature max_tokens))
  /\ (forall (W : Type) (json_loads : string -> Result json)
            (json_dumps : json -> string) (convert : Tool -> json)
            (self : GroqToolModel.t) (net : nat -> Network)
            (toolkit : option Toolkit) (tool_choice : option string)
            (temperature : float) (max_tokens : Z),
      gate_edges GroqToolModel.abatch_start
        (GroqToolModel.abatch_run (W := W) json_loads json_dumps convert self net
           toolkit tool_choice temperature max_tokens)).
Proof.
  split.
  - intros W lax_int self net dur temperature max_tokens.
    exact (asyncio_gate_edges
             (CohereModel.payload_of self temperature max_tokens false)
             (fun i => post (net i) (CohereModel.base_url self +:+ "/chat")
                         (CohereModel.headers self))
             (fun i => CohereModel.complete lax_int (dur i))).
  - intros W json_loads json_dumps convert self net toolkit tool_choice
      temperature max_tokens.
    exact (asyncio_gate_edges
             (GroqToolModel.payload_of convert self toolkit tool_choice
                temperature max_tokens)
             (fun i => post (net i) (GroqToolModel._api_url self)
                         (GroqToolModel._headers self))
             (fun _ => GroqToolModel.process_response json_loads json_dumps toolkit)).
Qed.

Lemma abatch_gate_edges_witness :
  CohereModel.abatch_start (-1) [7%nat; 9%nat] two_conversations
  = err (ValueError "Semaphore initial value must be >= 0")
  /\ exists s0,
       CohereModel.abatch_start 0 [7%nat; 9%nat] two_conversations = ok s0
       /\ Asyncio.gathered s0 = None
       /\ CohereModel.abatch_run (W := Empty_set) decimal_int cohere_self says_hi
            (fun _ => no_durations) 0.5%float 256 [7%nat; 9%nat]
            [Asyncio.Acquire 0] s0 = None.
Proof.
  pose proof (proj1 abatch_gate_edges Empty_set decimal_int cohere_self says_hi
                (fun _ => no_durations) 0.5%float 256) as Hedges.
  split.
  - exact (proj1 (Hedges (-1) [7%nat; 9%nat] two_conversations) ltac:(lia)).
  - eexists. split; [reflexivity|].
    destruct (proj2 (Hedges 0 [7%nat; 9%nat] two_conversations) _ eq_refl) as [_ Hzero].
    destruct (Hzero eq_refl ltac:(discriminate)) as [Hg _].
    split; [exact Hg|reflexivity].
Defined.

(** Once [abatch] of the Cohere adapter or of the Groq adapter has an
    exception, on distinct conversations: it is the exception that the
    [apredict] of one of the finished calls raises when run alone;
    [gather] keeps it whatever completes next; the calls that finish
    afterwards still leave their conversations as [apredict] alone does;
    and no conversation outside the list is touched. *)
Theorem abatch_reports_first_failure :
  (forall (W : Type) (lax_int : json -> option Z)
          (self : CohereModel.t) (net : nat -> Network)
          (dur : nat -> Durations) (temperature : float) (max_tokens : Z),
      reports_first_failure (W := W) CohereModel.abatch_start
        (CohereModel.abatch_run (W := W) lax_int self net dur temperature max_tokens)
        (fun i => CohereModel.apredict lax_int self (net i) (dur i) temperature max_tokens))
  /\ (forall (W : Type) (json_loads : string -> Result json)
            (json_dumps : json -> string) (convert : Tool -> json)
            (self : GroqToolModel.t) (net : nat -> Network)
            (toolkit : option Toolkit) (tool_choice : option string)
            (temperature : float) (max_tokens : Z),
      reports_first_failure (W := W) GroqToolModel.abatch_start
        (GroqToolModel.abatch_run (W := W) json_loads json_dumps convert self net
           toolkit tool_choice temperature max_tokens)
        (fun i => GroqToolModel.apredict json_loads json_dumps convert self (net i)
                    toolkit tool_choice temperature max_tokens)).
Proof.
  split.
  - intros W lax_int self net dur temperature max_tokens.
    exact (asyncio_reports_first_failure
             (CohereModel.payload_of self temperature max_tokens false)
             (fun i => post (net i) (CohereModel.base_url self +:+ "/chat")
                         (CohereModel.headers self))
             (fun i => CohereModel.complete lax_int (dur i))).
  - intros W json_loads json_dumps convert self net toolkit tool_choice
      temperature max_tokens.
    exact (asyncio_reports_first_failure
             (GroqToolModel.payload_of convert self toolkit tool_choice
                temperature max_tokens)
             (fun i => post (net i) (GroqToolModel._api_url self)
                         (GroqToolModel._headers self))
             (fun _ => GroqToolModel.process_response json_loads json_dumps toolkit)).
Qed.

Lemma abatch_reports_first_failure_witness :
  exists s0 s s',
    CohereModel.abatch_start 1 [7%nat; 9%nat] two_conversations = ok s0
    /\ CohereModel.abatch_run (W := Empty_set) decimal_int cohere_self first_fails
         (fun _ => no_durations) 0.5%float 256 [7%nat; 9%nat]
         [Asyncio.Acquire 0; Asyncio.Complete 0] s0 = Some s
    /\ Asyncio.gathered s = Some (err (HTTPError "503"))
    /\ CohereModel.abatch_run (W := Empty_set) decimal_int cohere_self first_fails
         (fun _ => no_durations) 0.5%float 256 [7%nat; 9%nat]
         [Asyncio.Acquire 1; Asyncio.Complete 1] s = Some s'
    /\ Asyncio.gathered s' = Some (err (HTTPError "503"))
    /\ Asyncio.heap s' !!! 9%nat = answered "two".
Proof.
  eexists. eexists. eexists.
  split; [reflexivity|]. split; [vm_compute; reflexivity|].
  split; [reflexivity|]. split; [vm_compute; reflexivity|].
  destruct (proj1 abatch_reports_first_failure Empty_set decimal_int cohere_self first_fails
              (fun _ => no_durations) 0.5%float 256 1 [7%nat; 9%nat] two_conversations
              _ _ [Asyncio.Acquire 0; Asyncio.Complete 0] (HTTPError "503")
              two_distinct eq_refl eq_refl eq_refl) as [_ Hnext].
  destruct (Hnext [Asyncio.Acquire 1; Asyncio.Complete 1] _ eq_refl)
    as (Hg & Hheap & _).
  split; [exact Hg|].
  exact (Hheap 1%nat 9%nat _ eq_refl eq_refl).
Defined.

(** ** The request of the Cohere adapter *)

Lemma cohere_payload_unfold self temperature max_tokens stream c :
  CohereModel.payload_of self temperature max_tokens stream c =
    let user := latest "human" (history c) None in
    let system := latest "system" (history c) None in
    let message :=
      if str_truthy user then user
      else match last (history c) with
           | Some m => content m
           | None => Some ""
           end in
    let message := if stream && negb (str_truthy message) then Some "" else message in
    JDict ([("message", opt_json message);
            ("chat_history", JList []);
            ("model", JStr (CohereModel.name self));
            ("temperature", JFloat temperature);
            ("max_tokens", JInt max_tokens)]
           ++ (if stream then [("stream", JBool true)] else [])
           ++ (if str_truthy system then [("preamble", opt_json system)] else [])).
Proof.
  unfold CohereModel.payload_of, CohereModel._format_messages.
  rewrite format_loop_empty. reflexivity.
Qed.

(** The request of the Cohere adapter carries no earlier turn: its chat
    history is empty whatever the conversation is; when the latest human
    message is not empty, it is the message sent; and two conversations
    with the same such message and the same latest system message give the
    same request, whatever else they hold. *)
Theorem cohere_request_forgets_history
    (self : CohereModel.t) (temperature : float) (max_tokens : Z) (stream : bool) :
  (forall c,
      getitem (CohereModel.payload_of self temperature max_tokens stream c) "chat_history"
      = ok (JList []))
  /\ (forall c text,
        latest "human" (history c) None = Some text -> text <> "" ->
        getitem (CohereModel.payload_of self temperature max_tokens stream c) "message"
        = ok (JStr text))
  /\ (forall c1 c2,
        latest "human" (history c1) None = latest "human" (history c2) None ->
        str_truthy (latest "human" (history c1) None) = true ->
        latest "system" (history c1) None = latest "system" (history c2) None ->
        CohereModel.payload_of self temperature max_tokens stream c1
        = CohereModel.payload_of self temperature max_tokens stream c2).
Proof.
  split; [|split].
  - intros c. rewrite cohere_payload_unfold. reflexivity.
  - intros c text Hlatest Hne. rewrite cohere_payload_unfold. cbv zeta.
    rewrite Hlatest.
    assert (Ht : str_truthy (Some text) = true)
      by (unfold str_truthy; apply negb_true_iff, String.eqb_neq; exact Hne).
    rewrite Ht. cbv iota. rewrite Ht. cbn [negb]. rewrite andb_false_r. reflexivity.
  - intros c1 c2 Hhuman Htruthy Hsystem. rewrite !cohere_payload_unfold. cbv zeta.
    rewrite <- Hhuman, <- Hsystem, Htruthy. reflexivity.
Qed.

Lemma cohere_request_forgets_history_witness :
  CohereModel.payload_of cohere_self 0.5%float 256 false asked_once
  = CohereModel.payload_of cohere_self 0.5%float 256 false asked_after_a_turn.
Proof.
  exact (proj2 (proj2 (cohere_request_forgets_history cohere_self 0.5%float 256 false))
           asked_once asked_after_a_turn eq_refl eq_refl eq_refl).
Defined.

(** ** A call of the Cohere adapter, all or nothing *)

(** [predict] of the Cohere adapter yields nothing and changes the
    conversation in one step only: when it raises, the conversation is as
    it was; when it returns, it has one more message, from the assistant,
    whose usage record is the one [_prepare_usage_data] builds from the
    [usage] entry of the response and the two durations.  An exception of
    the request passes through as it is. *)
Theorem cohere_predict_all_or_nothing
    (W : Type) (lax_int : json -> option Z)
    (self : CohereModel.t) (net : Network) (dur : Durations)
    (temperature : float) (max_tokens : Z) (c : Conversation) :
  let o := CohereModel.predict (W := W) lax_int self net dur temperature max_tokens c in
  let answer :=
    post net (CohereModel.base_url self +:+ "/chat") (CohereModel.headers self)
      (CohereModel.payload_of self temperature max_tokens false c) in
  yielded o = []
  /\ (forall e, result o = err e -> final o = c)
  /\ (result o = ok tt ->
        exists data usage_data text u,
          answer = ok data
          /\ get data "usage" (JDict []) = ok usage_data
          /\ CohereModel._prepare_usage_data lax_int usage_data
               (prompt_duration dur) (completion_duration dur) = ok u
          /\ final o = extend c [mkMessage "assistant" text None None (Some u)])
  /\ (forall e, answer = err e -> result o = err e).
Proof.
  intros o answer. subst o answer. unfold CohereModel.predict.
  rewrite bind_read.
  destruct (post net _ _ _) as [e|data].
  { rewrite bind_lift_err. cbn [result final yielded].
    repeat split; try reflexivity; try discriminate.
    intros e' He'. unfold err in He'. injection He' as <-. reflexivity. }
  change (inr data) with (ok data : Result json). rewrite bind_lift_ok.
  unfold CohereModel.complete.
  destruct (getitem data "text") as [e|message_content].
  { rewrite bind_lift_err. cbn [result final yielded].
    repeat split; try reflexivity; discriminate. }
  change (inr message_content) with (ok message_content : Result json).
  rewrite bind_lift_ok.
  destruct (get data "usage" (JDict [])) as [e|usage_data] eqn:Hget.
  { rewrite bind_lift_err. cbn [result final yielded].
    repeat split; try reflexivity; discriminate. }
  change (inr usage_data) with (ok usage_data : Result json). rewrite bind_lift_ok.
  destruct (CohereModel._prepare_usage_data lax_int usage_data _ _) as [e|u] eqn:Hu.
  { rewrite bind_lift_err. cbn [result final yielded].
    repeat split; try reflexivity; discriminate. }
  change (inr u) with (ok u : Result UsageData).
  rewrite bind_lift_ok.
  destruct message_content as [| | | |text| |];
    cbn [AgentMessage]; rewrite ?bind_lift_err, ?bind_lift_ok;
    unfold conversation_add_message, modify; cbn [result final yielded];
    repeat split; try reflexivity; try discriminate.
  - intros _. exists data, usage_data, None, u.
    split; [reflexivity|]. split; [exact Hget|]. split; [exact Hu|reflexivity].
  - intros _. exists data, usage_data, (Some text), u.
    split; [reflexivity|]. split; [exact Hget|]. split; [exact Hu|reflexivity].
Qed.

Lemma cohere_predict_all_or_nothing_witness :
  CohereModel.predict (W := Empty_set) decimal_int cohere_self unreachable no_durations
    0.5%float 256 asked_after_a_turn
  = mkOutcome (err (HTTPError "503")) asked_after_a_turn [].
Proof.
  pose proof (cohere_predict_all_or_nothing Empty_set decimal_int cohere_self unreachable
                no_durations 0.5%float 256 asked_after_a_turn)
    as (Hy & Hkeep & _ & Hpass).
  pose proof (Hpass (HTTPError "503") eq_refl) as Hr.
  pose proof (Hkeep (HTTPError "503") Hr) as Hf.
  destruct (CohereModel.predict decimal_int cohere_self unreachable no_durations 0.5%float 256
              asked_after_a_turn) as [r f y].
  cbn [result final yielded] in *. rewrite Hy, Hr, Hf. reflexivity.
Defined.

(** ** The fragments of a Cohere stream *)

Lemma cohere_stream_lines_collect json_loads lines acc u c :
  let o := CohereModel.stream_lines json_loads lines acc u c in
  final o = c
  /\ forall acc' u', result o = ok (acc', u') -> acc' = acc ++ yielded o.
Proof.
  revert acc u. induction lines as [|line rest IH]; intros acc u o; subst o.
  - cbn. split; [reflexivity|]. intros acc' u' H. injection H as <- <-.
    rewrite app_nil_r. reflexivity.
  - cbn [CohereModel.stream_lines].
    destruct (negb (String.eqb line "")); [|apply IH].
    destruct (json_loads line) as [e|chunk].
    { rewrite bind_lift_err. cbn. split; [reflexivity|]. discriminate. }
    change (inr chunk) with (ok chunk : Result json). rewrite bind_lift_ok.
    destruct (contains "text" chunk) as [e|has_text].
    { rewrite bind_lift_err. cbn. split; [reflexivity|]. discriminate. }
    change (inr has_text) with (ok has_text : Result bool). rewrite bind_lift_ok.
    destruct has_text.
    + destruct (getitem chunk "text") as [e|content].
      { rewrite bind_lift_err. cbn. split; [reflexivity|]. discriminate. }
      change (inr content) with (ok content : Result json).
      rewrite bind_lift_ok, bind_yield. cbn [result final yielded].
      destruct (IH (acc ++ [content]) u) as [Hf Hacc].
      split; [exact Hf|]. intros acc' u' H.
      rewrite (Hacc acc' u' H), <- app_assoc. reflexivity.
    + destruct (contains "usage" chunk) as [e|has_usage].
      { rewrite bind_lift_err. cbn. split; [reflexivity|]. discriminate. }
      change (inr has_usage) with (ok has_usage : Result bool). rewrite bind_lift_ok.
      destruct has_usage; [|apply IH].
      destruct (getitem chunk "usage") as [e|u'].
      { rewrite bind_lift_err. cbn. split; [reflexivity|]. discriminate. }
      change (inr u') with (ok u' : Result json). rewrite bind_lift_ok. apply IH.
Qed.

(** When [stream] of the Cohere adapter runs to its end, the one message
    it appends, from the assistant, has as content the fragments it
    yielded, put together in their order; when it raises, at whatever
    line and whatever it has yielded by then, the conversation is as it
    was. *)
Theorem cohere_stream_collects_fragments
    (json_loads : string -> Result json) (lax_int : json -> option Z)
    (self : CohereModel.t) (net : Network)
    (dur : Durations) (temperature : float) (max_tokens : Z) (c : Conversation) :
  let o := CohereModel.stream json_loads lax_int self net dur temperature max_tokens c in
  (result o = ok tt ->
     exists text u,
       str_join (yielded o) = ok text
       /\ final o = extend c [mkMessage "assistant" (Some text) None None (Some u)])
  /\ (forall e, result o = err e -> final o = c).
Proof.
  intros o. subst o. unfold CohereModel.stream. rewrite bind_read.
  destruct (post_stream net _ _ _) as [e|lines].
  { rewrite bind_lift_err. cbn. split; [discriminate|reflexivity]. }
  change (inr lines) with (ok lines : Result (list string)). rewrite bind_lift_ok.
  destruct (cohere_stream_lines_collect json_loads lines [] (JDict []) c) as [Hf Hacc].
  destruct (CohereModel.stream_lines json_loads lines [] (JDict []) c)
    as [[e|[acc u]] c' w] eqn:Hrun; cbn [result final yielded] in *; subst c'.
  { rewrite (bind_err _ _ c e) by (rewrite Hrun; reflexivity). rewrite Hrun.
    cbn. split; [discriminate|reflexivity]. }
  rewrite (bind_ok _ _ c (acc, u)) by (rewrite Hrun; reflexivity). rewrite Hrun.
  pose proof (Hacc acc u eq_refl) as ->. cbn [app fst snd result final yielded].
  destruct (str_join w) as [e|text] eqn:Hjoin.
  { rewrite bind_lift_err. cbn. split; [discriminate|reflexivity]. }
  change (inr text) with (ok text : Result string). rewrite bind_lift_ok.
  destruct (CohereModel._prepare_usage_data lax_int u _ _) as [e|usage].
  { rewrite bind_lift_err. cbn. split; [discriminate|reflexivity]. }
  change (inr usage) with (ok usage : Result UsageData).
  rewrite bind_lift_ok. cbn [AgentMessage]. rewrite bind_lift_ok.
  unfold conversation_add_message, modify. cbn [result final yielded].
  rewrite app_nil_r. split; [|discriminate].
  intros _. eexists text, _. split; [exact Hjoin|reflexivity].
Qed.

Lemma cohere_stream_collects_fragments_witness :
  exists text u,
    str_join (yielded (CohereModel.stream loads_text_event decimal_int cohere_self
                         (replies_with JNull [text_event "Hel"; ""; text_event "lo"])
                         no_durations 0.5%float 256 asked_once))
    = ok text
    /\ final (CohereModel.stream loads_text_event decimal_int cohere_self
                (replies_with JNull [text_event "Hel"; ""; text_event "lo"])
                no_durations 0.5%float 256 asked_once)
       = extend asked_once [mkMessage "assistant" (Some text) None None (Some u)].
Proof.
  exact (proj1 (cohere_stream_collects_fragments loads_text_event decimal_int cohere_self
                  (replies_with JNull [text_event "Hel"; ""; text_event "lo"])
                  no_durations 0.5%float 256 asked_once) eq_refl).
Defined.

(** ** What a response of the Groq backend can do to a conversation *)

Ltac lift_step r e v :=
  destruct r as [e|v] eqn:?;
  [rewrite bind_lift_err; cbn [yielded result final]
  |match goal with
   | |- context [bind (lift (inr ?x)) ?k ?s] =>
       change (bind (lift (inr x)) k s) with (bind (lift (ok x)) k s);
       rewrite bind_lift_ok
   end].

Section GroqAppends.
Import GroqToolModel.
Context {W : Type}.
Variable json_loads : string -> Result json.
Variable json_dumps : json -> string.

Lemma call_tool_appends toolkit tool_call c :
  let o := call_tool (W := W) json_loads json_dumps toolkit tool_call c in
  yielded o = []
  /\ ((exists e, result o = err e /\ final o = c)
      \/ (exists m, result o = ok tt /\ final o = extend c [m]
                    /\ role m = "tool" /\ is_Some (tool_call_id m))).
Proof.
  intros o. subst o. unfold call_tool.
  assert (Hstop : forall e : exn,
            @nil W = [] /\ ((exists e', @err unit e = err e' /\ c = c)
                            \/ (exists m, @err unit e = ok tt /\ c = extend c [m]
                                          /\ role m = "tool" /\ is_Some (tool_call_id m))))
    by (intros e; split; [reflexivity|left; exists e; split; reflexivity]).
  lift_step (getitem tool_call "function") e fn; [apply Hstop|].
  lift_step (getitem fn "name") e func_name; [apply Hstop|].
  lift_step (match toolkit with
             | Some tk => get_tool_by_name tk func_name
             | None => err AttributeError
             end) e func_call; [apply Hstop|].
  lift_step (getitem fn "arguments") e arguments; [apply Hstop|].
  lift_step (loads json_loads arguments) e func_args; [apply Hstop|].
  lift_step (invoke func_call func_args) e func_result; [apply Hstop|].
  lift_step (getitem tool_call "id") e call_id; [apply Hstop|].
  destruct (FunctionMessage (json_dumps func_result) func_name call_id) as [e|m] eqn:Hm;
    [rewrite bind_lift_err; apply Hstop|].
  change (inr m) with (ok m : Result Message). rewrite bind_lift_ok.
  unfold conversation_add_message, modify. cbn [yielded result final].
  split; [reflexivity|]. right. exists m. split; [reflexivity|]. split; [reflexivity|].
  unfold FunctionMessage in Hm.
  destruct func_name as [| | | |n| |]; try discriminate.
  destruct call_id as [| | | |i| |]; try discriminate.
  injection Hm as <-. cbn. eauto.
Qed.

Lemma for_each_appends toolkit tool_calls c :
  let o := for_each tool_calls (call_tool (W := W) json_loads json_dumps toolkit) c in
  yielded o = []
  /\ exists ms,
       final o = extend c ms
       /\ Forall (fun m => role m = "tool" /\ is_Some (tool_call_id m)) ms
       /\ (length ms <= length tool_calls)%nat
       /\ (result o = ok tt -> length ms = length tool_calls).
Proof.
  revert c. induction tool_calls as [|tc tcs IH]; intros c o; subst o.
  - cbn. split; [reflexivity|]. exists []. rewrite extend_nil.
    split; [reflexivity|]. split; [constructor|]. split; [cbn; lia|reflexivity].
  - cbn [for_each].
    destruct (call_tool_appends toolkit tc c) as [Hy [(e & Hr & Hf) | (m & Hr & Hf & Hm)]].
    + rewrite (bind_err _ _ c e) by exact Hr. cbn [result final yielded].
      split; [exact Hy|]. exists []. rewrite extend_nil.
      split; [exact Hf|]. split; [constructor|]. split; [cbn; lia|discriminate].
    + rewrite (bind_ok _ _ c tt) by exact Hr. cbn [result final yielded].
      rewrite Hy, Hf. destruct (IH (extend c [m])) as [Hy' (ms & Hf' & Hms & Hlen & Hall)].
      split; [exact Hy'|]. exists (m :: ms). rewrite Hf', extend_extend.
      split; [reflexivity|]. split; [constructor; assumption|].
      split; [cbn; lia|]. intros Hok. cbn. rewrite (Hall Hok). reflexivity.
Qed.

Lemma tool_calls_append toolkit msg c :
  let o := (tool_calls <- lift (get msg "tool_calls" (JList [])) ;;
            if truthy tool_calls then
              l <- lift (iter tool_calls) ;;
              for_each l (call_tool (W := W) json_loads json_dumps toolkit)
            else ret tt) c in
  yielded o = []
  /\ exists ms,
       final o = extend c ms
       /\ Forall (fun m => role m = "tool" /\ is_Some (tool_call_id m)) ms.
Proof.
  intros o. subst o.
  assert (Hstop : @nil W = []
                  /\ exists ms,
                       c = extend c ms
                       /\ Forall (fun m => role m = "tool" /\ is_Some (tool_call_id m)) ms).
  { split; [reflexivity|]. exists []. rewrite extend_nil. split; [reflexivity|constructor]. }
  lift_step (get msg "tool_calls" (JList [])) e tool_calls; [exact Hstop|].
  destruct (truthy tool_calls); [|exact Hstop].
  lift_step (iter tool_calls) e l; [exact Hstop|].
  destruct (for_each_appends toolkit l c) as [Hy (ms & Hf & Hms & _)].
  split; [exact Hy|]. exists ms. split; [exact Hf|exact Hms].
Qed.

Lemma process_response_appends toolkit tool_response c :
  let o := process_response (W := W) json_loads json_dumps toolkit tool_response c in
  yielded o = []
  /\ exists pre ms,
       final o = extend c (pre ++ ms)
       /\ (length pre <= 1)%nat
       /\ Forall (fun m => role m = "assistant") pre
       /\ Forall (fun m => role m = "tool" /\ is_Some (tool_call_id m)) ms.
Proof.
  intros o. subst o. unfold process_response.
  assert (Hstop : @nil W = []
                  /\ exists pre ms,
                       c = extend c (pre ++ ms)
                       /\ (length pre <= 1)%nat
                       /\ Forall (fun m => role m = "assistant") pre
                       /\ Forall (fun m => role m = "tool" /\ is_Some (tool_call_id m)) ms).
  { split; [reflexivity|]. exists [], []. rewrite extend_nil.
    split; [reflexivity|]. split; [cbn; lia|]. split; constructor. }
  lift_step (getitem tool_response "choices") e choices; [exact Hstop|].
  lift_step (getitem0 choices) e first_choice; [exact Hstop|].
  lift_step (getitem first_choice "message") e msg; [exact Hstop|].
  lift_step (contains "content" msg) e has_content; [exact Hstop|].
  destruct has_content.
  - rewrite bind_bind.
    lift_step (getitem msg "content") e text; [exact Hstop|].
    rewrite bind_bind.
    destruct (AgentMessage text None) as [e|agent_message] eqn:Hm;
      [rewrite bind_lift_err; exact Hstop|].
    change (inr agent_message) with (ok agent_message : Result Message).
    rewrite bind_lift_ok. unfold conversation_add_message. rewrite bind_modify.
    rewrite add_message_extend.
    destruct (tool_calls_append toolkit msg (extend c [agent_message]))
      as [Hy (ms & Hf & Hms)].
    split; [exact Hy|]. exists [agent_message], ms.
    rewrite Hf, extend_extend. split; [reflexivity|]. split; [cbn; lia|].
    split; [|exact Hms]. constructor; [|constructor].
    exact (agent_message_role _ _ _ Hm).
  - rewrite bind_ret.
    destruct (tool_calls_append toolkit msg c) as [Hy (ms & Hf & Hms)].
    split; [exact Hy|]. exists [], ms. split; [exact Hf|].
    split; [cbn; lia|]. split; [constructor|exact Hms].
Qed.

End GroqAppends.

(** Whatever the backend answers, [predict] and [apredict] of the Groq
    adapter yield nothing and only append to the conversation, also when
    they raise: the messages it held stay as they were, and what is added
    is at most one assistant message followed by tool messages that each
    carry the id of a request.  When the request itself fails nothing is
    added and its exception passes through as it is. *)
Theorem groq_predict_only_appends
    (W : Type) (json_loads : string -> Result json) (json_dumps : json -> string)
    (convert : Tool -> json) (self : GroqToolModel.t) (net : Network)
    (toolkit : option Toolkit) (tool_choice : option string) (temperature : float)
    (max_tokens : Z) (c : Conversation) :
  let o := GroqToolModel.predict (W := W) json_loads json_dumps convert self net
             toolkit tool_choice temperature max_tokens c in
  yielded o = []
  /\ GroqToolModel.apredict (W := W) json_loads json_dumps convert self net
       toolkit tool_choice temperature max_tokens c = o
  /\ (exists pre ms,
        final o = extend c (pre ++ ms)
        /\ (length pre <= 1)%nat
        /\ Forall (fun m => role m = "assistant") pre
        /\ Forall (fun m => role m = "tool" /\ is_Some (tool_call_id m)) ms)
  /\ (forall e,
        post net (GroqToolModel._api_url self) (GroqToolModel._headers self)
          (GroqToolModel.payload_of convert self toolkit tool_choice
             temperature max_tokens c) = err e ->
        o = mkOutcome (err e) c []).
Proof.
  intros o. subst o. unfold GroqToolModel.apredict, GroqToolModel.predict.
  rewrite bind_read.
  destruct (post net _ _ _) as [e|tool_response].
  - rewrite bind_lift_err. cbn [yielded final].
    split; [reflexivity|]. split; [reflexivity|]. split.
    + exists [], []. rewrite extend_nil.
      split; [reflexivity|]. split; [cbn; lia|]. split; constructor.
    + intros e' He'. unfold err in He'. injection He' as <-. reflexivity.
  - change (inr tool_response) with (ok tool_response : Result json).
    rewrite bind_lift_ok.
    destruct (process_response_appends (W := W) json_loads json_dumps toolkit
                tool_response c) as [Hy Happ].
    split; [exact Hy|]. split; [reflexivity|]. split; [exact Happ|discriminate].
Qed.

Lemma groq_predict_only_appends_witness :
  GroqToolModel.predict (W := Empty_set) loads_add dumps_int (fun _ => JNull)
    groq_self unreachable (Some add_toolkit) None 0.5%float 1024 asked_after_a_turn
  = mkOutcome (err (HTTPError "503")) asked_after_a_turn [].
Proof.
  exact (proj2 (proj2 (proj2
           (groq_predict_only_appends Empty_set loads_add dumps_int (fun _ => JNull)
              groq_self unreachable (Some add_toolkit) None 0.5%float 1024
              asked_after_a_turn)))
           (HTTPError "503") eq_refl).
Defined.

(** ** A tool call that fails *)

Section FailingCall.
Import GroqToolModel.
Context {W : Type}.
Variable json_loads : string -> Result json.
Variable json_dumps : json -> string.

Lemma call_tool_fails toolkit tool_call e c :
  fails json_loads toolkit tool_call e ->
  call_tool (W := W) json_loads json_dumps (Some toolkit) tool_call c
  = mkOutcome (err e) c [].
Proof.
  intros (fn & n & tool & arguments & Hfn & Hname & Htool & Hargs & Hfail).
  unfold call_tool.
  rewrite Hfn, bind_lift_ok, Hname, bind_lift_ok.
  unfold get_tool_by_name. rewrite Htool, bind_lift_ok.
  rewrite Hargs, bind_lift_ok.
  destruct Hfail as [Hloads | (kwargs & Hloads & Hinvoke)].
  - rewrite Hloads. reflexivity.
  - rewrite Hloads, bind_lift_ok, Hinvoke. reflexivity.
Qed.

Lemma for_each_fails toolkit before tool_call after ms e c :
  Forall2 (answers json_loads json_dumps toolkit) before ms ->
  fails json_loads toolkit tool_call e ->
  for_each (before ++ tool_call :: after)
    (call_tool (W := W) json_loads json_dumps (Some toolkit)) c
  = mkOutcome (err e) (extend c ms) [].
Proof.
  intros H Hbad. revert c. induction H as [|tc m tcs ms Hm _ IH]; intros c.
  - simpl. rewrite extend_nil.
    rewrite (bind_err _ _ c e) by (rewrite (call_tool_fails _ _ _ _ Hbad); reflexivity).
    rewrite (call_tool_fails _ _ _ _ Hbad). reflexivity.
  - simpl for_each.
    rewrite (bind_ok _ _ c tt)
      by (rewrite (call_tool_answers _ _ _ _ _ _ Hm); reflexivity).
    rewrite (call_tool_answers _ _ _ _ _ _ Hm). cbn [final yielded].
    rewrite IH. cbn [result final yielded app].
    rewrite extend_extend. reflexivity.
Qed.

End FailingCall.

(** When the requests before the k-th are answered and the k-th names a
    registered tool but its arguments do not parse, or do not parse to a
    mapping, or the tool raises, [predict] and [apredict] of the Groq
    adapter raise that very exception; the conversation then holds the
    assistant message of the response, if it has one, and the tool
    messages of the requests before the k-th, and nothing for the k-th
    request or a later one. *)
Theorem tool_loop_stops_at_failing_call
    (W : Type) (json_loads : string -> Result json) (json_dumps : json -> string)
    (convert : Tool -> json) (self : GroqToolModel.t) (net : Network)
    (toolkit : Toolkit) (tool_choice : option string) (temperature : float)
    (max_tokens : Z) (conversation : Conversation) (tool_response : json)
    (fields : list (string * json)) (pre : list Message)
    (before after : list json) (tool_call : json) (e : exn) (ms : list Message) :
  post net (GroqToolModel._api_url self) (GroqToolModel._headers self)
    (GroqToolModel.payload_of convert self (Some toolkit) tool_choice
       temperature max_tokens conversation) = ok tool_response ->
  message_of tool_response = ok (JDict fields) ->
  content_messages fields = ok pre ->
  dict_lookup "tool_calls" fields = Some (JList (before ++ tool_call :: after)) ->
  Forall2 (answers json_loads json_dumps toolkit) before ms ->
  fails json_loads toolkit tool_call e ->
  GroqToolModel.predict (W := W) json_loads json_dumps convert self net
    (Some toolkit) tool_choice temperature max_tokens conversation
  = mkOutcome (err e) (extend conversation (pre ++ ms)) []
  /\ GroqToolModel.apredict (W := W) json_loads json_dumps convert self net
       (Some toolkit) tool_choice temperature max_tokens conversation
     = mkOutcome (err e) (extend conversation (pre ++ ms)) []
  /\ length ms = length before.
Proof.
  intros Hpost Hmsg Hpre Hcalls Hans Hbad.
  assert (Hrun :
    GroqToolModel.predict (W := W) json_loads json_dumps convert self net
      (Some toolkit) tool_choice temperature max_tokens conversation
    = mkOutcome (err e) (extend conversation (pre ++ ms)) []).
  { rewrite (predict_unfold _ _ _ _ _ _ _ _ _ _ _ Hpost).
    rewrite (process_response_phases _ _ _ _ _ _ _ Hmsg Hpre).
    rewrite (tool_phase_list _ _ _ _ _ _ Hcalls).
    rewrite (for_each_fails _ _ _ _ _ _ _ _ _ Hans Hbad).
    rewrite extend_extend. reflexivity. }
  split; [exact Hrun|]. split; [exact Hrun|].
  symmetry. exact (Forall2_length _ _ _ Hans).
Qed.

Lemma broken_request_fails id :
  fails loads_add add_toolkit (request id "add" "{oops") (JSONDecodeError "{oops").
Proof.
  exists (JDict [("name", JStr "add"); ("arguments", JStr "{oops")]),
    "add", add_tool, (JStr "{oops").
  split; [reflexivity|]. split; [reflexivity|]. split; [reflexivity|].
  split; [reflexivity|]. left. reflexivity.
Qed.

Lemma tool_loop_stops_at_failing_call_witness :
  GroqToolModel.predict (W := Empty_set) loads_add dumps_int (fun _ => JNull)
    groq_self (replies_with broken_arguments [])
    (Some add_toolkit) None 0.5%float 1024
    (mkConversation [human "what is 1 + 2?"])
  = mkOutcome (err (JSONDecodeError "{oops"))
      (mkConversation
         [human "what is 1 + 2?";
          mkMessage "assistant" None None None None;
          mkMessage "tool" (Some "3") (Some "add") (Some "call_1") None])
      [].
Proof.
  refine (proj1 (tool_loop_stops_at_failing_call Empty_set loads_add dumps_int
                   (fun _ => JNull) groq_self (replies_with broken_arguments [])
                   add_toolkit None 0.5%float 1024
                   (mkConversation [human "what is 1 + 2?"]) broken_arguments _
                   [mkMessage "assistant" None None None None]
                   [request "call_1" "add" add_arguments]
                   [request "call_3" "add" add_arguments]
                   (request "call_2" "add" "{oops") (JSONDecodeError "{oops")
                   [mkMessage "tool" (Some "3") (Some "add") (Some "call_1") None]
                   eq_refl eq_refl eq_refl eq_refl _ _)).
  - repeat constructor; apply add_request_answered.
  - apply broken_request_fails.
Defined.

(** When the response carries tool calls and no toolkit was given,
    [predict] and [apredict] of the Groq adapter raise an
    [AttributeError] at the first request that names a function, after
    the assistant message of the response, if it has one, was added. *)
Theorem tool_calls_without_toolkit
    (W : Type) (json_loads : string -> Result json) (json_dumps : json -> string)
    (convert : Tool -> json) (self : GroqToolModel.t) (net : Network)
    (tool_choice : option string) (temperature : float)
    (max_tokens : Z) (conversation : Conversation) (tool_response : json)
    (fields : list (string * json)) (pre : list Message)
    (tool_call fn func_name : json) (rest : list json) :
  post net (GroqToolModel._api_url self) (GroqToolModel._headers self)
    (GroqToolModel.payload_of convert self None tool_choice
       temperature max_tokens conversation) = ok tool_response ->
  message_of tool_response = ok (JDict fields) ->
  content_messages fields = ok pre ->
  dict_lookup "tool_calls" fields = Some (JList (tool_call :: rest)) ->
  getitem tool_call "function" = ok fn ->
  getitem fn "name" = ok func_name ->
  GroqToolModel.predict (W := W) json_loads json_dumps convert self net
    None tool_choice temperature max_tokens conversation
  = mkOutcome (err AttributeError) (extend conversation pre) []
  /\ GroqToolModel.apredict (W := W) json_loads json_dumps convert self net
       None tool_choice temperature max_tokens conversation
     = mkOutcome (err AttributeError) (extend conversation pre) [].
Proof.
  intros Hpost Hmsg Hpre Hcalls Hfn Hname.
  assert (Hrun :
    GroqToolModel.predict (W := W) json_loads json_dumps convert self net
      None tool_choice temperature max_tokens conversation
    = mkOutcome (err AttributeError) (extend conversation pre) []).
  { rewrite (predict_unfold _ _ _ _ _ _ _ _ _ _ _ Hpost).
    rewrite (process_response_phases _ _ _ _ _ _ _ Hmsg Hpre).
    rewrite (tool_phase_list _ _ _ _ _ _ Hcalls).
    cbn [for_each]. unfold GroqToolModel.call_tool at 1.
    rewrite !bind_bind, Hfn, bind_lift_ok, !bind_bind, Hname, bind_lift_ok.
    rewrite !bind_bind. reflexivity. }
  split; exact Hrun.
Qed.

Lemma tool_calls_without_toolkit_witness :
  GroqToolModel.predict (W := Empty_set) loads_add dumps_int (fun _ => JNull)
    groq_self (replies_with two_requests [])
    None None 0.5%float 1024
    (mkConversation [human "what is 1 + 2?"])
  = mkOutcome (err AttributeError)
      (mkConversation
         [human "what is 1 + 2?"; mkMessage "assistant" None None None None])
      [].
Proof.
  exact (proj1 (tool_calls_without_toolkit Empty_set loads_add dumps_int
                  (fun _ => JNull) groq_self (replies_with two_requests [])
                  None 0.5%float 1024
                  (mkConversation [human "what is 1 + 2?"]) two_requests _
                  [mkMessage "assistant" None None None None]
                  (request "call_1" "add" add_arguments)
                  (JDict [("name", JStr "add"); ("arguments", JStr add_arguments)])
                  (JStr "add")
                  [request "call_2" "add" add_arguments]
                  eq_refl eq_refl eq_refl eq_refl eq_refl eq_refl)).
Defined.

(** ** The fragments of a Groq stream *)

Lemma string_app_assoc (a b c : string) : (a +:+ b) +:+ c = a +:+ (b +:+ c).
Proof.
  induction a as [|x a IH]; [reflexivity|].
  change ((String x a +:+ b) +:+ c) with (String x ((a +:+ b) +:+ c)).
  rewrite IH. reflexivity.
Qed.

Lemma str_join_app l1 l2 t1 t2 :
  str_join l1 = ok t1 -> str_join l2 = ok t2 -> str_join (l1 ++ l2) = ok (t1 +:+ t2).
Proof.
  revert t1. induction l1 as [|x l1 IH]; intros t1 H1 H2.
  - injection H1 as <-. exact H2.
  - cbn [app str_join] in *. destruct x as [| | | |s| |]; try discriminate.
    destruct (str_join l1) as [e|r1]; [discriminate|].
    cbn [mbind result_bind rbind] in H1. injection H1 as <-.
    rewrite (IH r1 eq_refl H2). cbn [mbind result_bind rbind].
    rewrite string_app_assoc. reflexivity.
Qed.

Section GroqFragments.
Import GroqToolModel.
Variable json_loads : string -> Result json.

Lemma groq_stream_chunk_collects json_str s c :
  let o := stream_chunk json_loads json_str s c in
  final o = c
  /\ (forall e, result o = err e -> yielded o = [])
  /\ (forall s', result o = ok s' ->
        exists text, str_join (yielded o) = ok text /\ s' = s +:+ text).
Proof.
  intros o. subst o. unfold stream_chunk.
  assert (Hstop : forall e : exn,
            c = c
            /\ (forall e', @err string e = err e' -> @nil json = [])
            /\ (forall s', @err string e = ok s' ->
                  exists text, str_join [] = ok text /\ s' = s +:+ text))
    by (intros e; split; [reflexivity|]; split; [reflexivity|discriminate]).
  assert (Hskip : c = c
            /\ (forall e', ok s = err e' -> @nil json = [])
            /\ (forall s', ok s = ok s' ->
                  exists text, str_join [] = ok text /\ s' = s +:+ text)).
  { split; [reflexivity|]. split; [reflexivity|].
    intros s' H. injection H as <-. exists "". split; [reflexivity|].
    symmetry. apply string_app_nil_r. }
  destruct (negb (String.eqb json_str "")); [|exact Hskip].
  lift_step (json_loads json_str) e chunk; [apply Hstop|].
  lift_step (getitem chunk "choices") e choices; [apply Hstop|].
  lift_step (getitem0 choices) e first_choice; [apply Hstop|].
  lift_step (getitem first_choice "delta") e d; [apply Hstop|].
  destruct (truthy d); [|exact Hskip].
  lift_step (getitem d "content") e delta; [apply Hstop|].
  destruct (str_add s delta) as [e|s1] eqn:Hadd; [rewrite bind_lift_err; apply Hstop|].
  change (inr s1) with (ok s1 : Result string). rewrite bind_lift_ok, bind_yield.
  cbn [result final yielded ret].
  split; [reflexivity|]. split; [discriminate|].
  intros s' H. injection H as <-.
  unfold str_add in Hadd. destruct delta as [| | | |t| |]; try discriminate.
  injection Hadd as <-. exists t. split; [|reflexivity].
  cbn. rewrite string_app_nil_r. reflexivity.
Qed.

Lemma groq_stream_lines_cons line rest s c :
  stream_lines json_loads (line :: rest) s c =
    let o := stream_chunk json_loads (str_replace "data: " "" line) s c in
    match result o with
    | inl e =>
        if is_JSONDecodeError e then
          let o' := stream_lines json_loads rest s (final o) in
          mkOutcome (result o') (final o') (yielded o ++ yielded o')
        else mkOutcome (inl e) (final o) (yielded o)
    | inr s1 =>
        let o' := stream_lines json_loads rest s1 (final o) in
        mkOutcome (result o') (final o') (yielded o ++ yielded o')
    end.
Proof.
  cbn [stream_lines]. unfold bind, try_except. cbv zeta.
  destruct (stream_chunk json_loads (str_replace "data: " "" line) s c)
    as [[e|s1] c1 w1]; cbn [result final yielded].
  - destruct (is_JSONDecodeError e); cbn [result final yielded ret]; [|reflexivity].
    rewrite app_nil_r. reflexivity.
  - reflexivity.
Qed.

Lemma groq_stream_lines_collect lines s c :
  let o := stream_lines json_loads lines s c in
  final o = c
  /\ forall s', result o = ok s' ->
       exists text, str_join (yielded o) = ok text /\ s' = s +:+ text.
Proof.
  revert s. induction lines as [|line rest IH]; intros s o; subst o.
  - cbn. split; [reflexivity|]. intros s' H. injection H as <-.
    exists "". split; [reflexivity|]. symmetry. apply string_app_nil_r.
  - rewrite groq_stream_lines_cons. cbv zeta.
    destruct (groq_stream_chunk_collects (str_replace "data: " "" line) s c)
      as (Hf & Herr & Hok).
    destruct (stream_chunk json_loads (str_replace "data: " "" line) s c)
      as [[e|s1] c1 w1]; cbn [result final yielded] in *; subst c1.
    + destruct (is_JSONDecodeError e); cbn [result final yielded].
      * rewrite (Herr e eq_refl). cbn [app]. apply IH.
      * split; [reflexivity|discriminate].
    + destruct (Hok s1 eq_refl) as (t1 & Hj1 & ->).
      destruct (IH (s +:+ t1)) as [Hf' Hok'].
      split; [exact Hf'|]. intros s' Hs'.
      destruct (Hok' s' Hs') as (t2 & Hj2 & ->).
      exists (t1 +:+ t2). split; [exact (str_join_app _ _ _ _ Hj1 Hj2)|].
      apply string_app_assoc.
Qed.

Lemma groq_stream_lines_app l1 l2 s c :
  stream_lines json_loads (l1 ++ l2) s c
  = (s1 <- stream_lines json_loads l1 s ;; stream_lines json_loads l2 s1) c.
Proof.
  revert s c. induction l1 as [|line l1 IH]; intros s c.
  - cbn [app stream_lines]. rewrite bind_ret. reflexivity.
  - cbn [app stream_lines]. rewrite bind_bind. apply bind_ext. intros s1 c1. apply IH.
Qed.

End GroqFragments.

(** [stream] of the Groq adapter only appends to the conversation.  When
    it runs to its end, the last message it appends, from the assistant,
    has as content the fragments it yielded, put together in their order
    (the empty text when it yielded none), after what the first response
    added.  When the first request fails, nothing is added or yielded and
    its exception passes through as it is. *)
Theorem groq_stream_collects_fragments
    (json_loads : string -> Result json) (json_dumps : json -> string)
    (convert : Tool -> json) (self : GroqToolModel.t) (net : Network)
    (toolkit : option Toolkit) (tool_choice : option string) (temperature : float)
    (max_tokens : Z) (c : Conversation) :
  let o := GroqToolModel.stream json_loads json_dumps convert self net
             toolkit tool_choice temperature max_tokens c in
  (exists ms, final o = extend c ms)
  /\ (result o = ok tt ->
        exists ms text,
          str_join (yielded o) = ok text
          /\ final o = extend c (ms ++ [mkMessage "assistant" (Some text) None None None]))
  /\ (forall e,
        post net (GroqToolModel._api_url self) (GroqToolModel._headers self)
          (JDict (GroqToolModel.first_request convert self toolkit tool_choice
                    temperature max_tokens c)) = err e ->
        o = mkOutcome (err e) c []).
Proof.
  intros o. subst o. unfold GroqToolModel.stream. rewrite bind_read. cbv zeta.
  destruct (post net _ _ _) as [e|tool_response].
  { rewrite bind_lift_err. cbn [result final yielded].
    split; [exists []; rewrite extend_nil; reflexivity|].
    split; [discriminate|].
    intros e' He'. unfold err in He'. injection He' as <-. reflexivity. }
  change (inr tool_response) with (ok tool_response : Result json).
  rewrite bind_lift_ok.
  split; [|split; [|discriminate]].
  - destruct (process_response_appends (W := json) json_loads json_dumps toolkit
                tool_response c) as [Hy (pre & ms & Hf & _)].
    destruct (GroqToolModel.process_response json_loads json_dumps toolkit
                tool_response c) as [[e|[]] c1 w1] eqn:Hrun;
      cbn [result final yielded] in *; subst c1 w1.
    { rewrite (bind_err _ _ c e) by (rewrite Hrun; reflexivity). rewrite Hrun.
      cbn [final]. eexists. reflexivity. }
    rewrite (bind_ok _ _ c tt) by (rewrite Hrun; reflexivity). rewrite Hrun.
    cbn [result final yielded]. rewrite bind_read.
    destruct (post_stream net _ _ _) as [e|lines].
    { rewrite bind_lift_err. cbn [final]. eexists. reflexivity. }
    change (inr lines) with (ok lines : Result (list string)). rewrite bind_lift_ok.
    destruct (groq_stream_lines_collect json_loads lines "" (extend c (pre ++ ms)))
      as [Hf' _].
    destruct (GroqToolModel.stream_lines json_loads lines "" (extend c (pre ++ ms)))
      as [[e|text] c2 w2] eqn:Hlines; cbn [result final yielded] in *; subst c2.
    { rewrite (bind_err _ _ _ e) by (rewrite Hlines; reflexivity). rewrite Hlines.
      cbn [final]. eexists. reflexivity. }
    rewrite (bind_ok _ _ _ text) by (rewrite Hlines; reflexivity). rewrite Hlines.
    cbn [result final yielded AgentMessage]. rewrite bind_lift_ok.
    unfold conversation_add_message, modify. cbn [final].
    rewrite add_message_extend, extend_extend. eexists. reflexivity.
  - destruct (process_response_appends (W := json) json_loads json_dumps toolkit
                tool_response c) as [Hy (pre & ms & Hf & _)].
    destruct (GroqToolModel.process_response json_loads json_dumps toolkit
                tool_response c) as [[e|[]] c1 w1] eqn:Hrun;
      cbn [result final yielded] in *; subst c1 w1.
    { rewrite (bind_err _ _ c e) by (rewrite Hrun; reflexivity). discriminate. }
    rewrite (bind_ok _ _ c tt) by (rewrite Hrun; reflexivity). rewrite Hrun.
    cbn [result final yielded]. rewrite bind_read.
    destruct (post_stream net _ _ _) as [e|lines].
    { rewrite bind_lift_err. discriminate. }
    change (inr lines) with (ok lines : Result (list string)). rewrite bind_lift_ok.
    destruct (groq_stream_lines_collect json_loads lines "" (extend c (pre ++ ms)))
      as [Hf' Hcollect].
    destruct (GroqToolModel.stream_lines json_loads lines "" (extend c (pre ++ ms)))
      as [[e|text] c2 w2] eqn:Hlines; cbn [result final yielded] in *; subst c2.
    { rewrite (bind_err _ _ _ e) by (rewrite Hlines; reflexivity). discriminate. }
    rewrite (bind_ok _ _ _ text) by (rewrite Hlines; reflexivity). rewrite Hlines.
    cbn [result final yielded AgentMessage]. rewrite bind_lift_ok.
    unfold conversation_add_message, modify. cbn [result final yielded].
    intros _. destruct (Hcollect text eq_refl) as (t & Hjoin & ->).
    exists (pre ++ ms), t. cbn [app]. rewrite app_nil_r.
    split; [exact Hjoin|]. rewrite add_message_extend, extend_extend. reflexivity.
Qed.

Lemma groq_stream_collects_fragments_witness :
  exists ms text,
    str_join (yielded (GroqToolModel.stream loads_delta dumps_int (fun _ => JNull)
                         groq_self
                         (replies_with (response_with [("role", JStr "assistant")])
                            [delta_event "Hel"; ""; delta_event "lo"; delta_event "[DONE]"])
                         None None 0.5%float 1024 asked_once))
    = ok text
    /\ final (GroqToolModel.stream loads_delta dumps_int (fun _ => JNull)
                groq_self
                (replies_with (response_with [("role", JStr "assistant")])
                   [delta_event "Hel"; ""; delta_event "lo"; delta_event "[DONE]"])
                None None 0.5%float 1024 asked_once)
       = extend asked_once (ms ++ [mkMessage "assistant" (Some text) None None None]).
Proof.
  exact (proj1 (proj2
           (groq_stream_collects_fragments loads_delta dumps_int (fun _ => JNull)
              groq_self
              (replies_with (response_with [("role", JStr "assistant")])
                 [delta_event "Hel"; ""; delta_event "lo"; delta_event "[DONE]"])
              None None 0.5%float 1024 asked_once)) eq_refl).
Defined.

(** ** A chunk of a Groq stream without content *)

Lemma bind_raise_outcome {St W A B} (e : exn) (s' : St) (w : list W)
    (c : M St W A) (k : A -> M St W B) s :
  c s = mkOutcome (err e) s' w -> bind c k s = mkOutcome (err e) s' w.
Proof. intros H. unfold bind. rewrite H. reflexivity. Qed.

Lemma groq_stream_chunk_without_content json_loads json_str s c
    chunk choices first_choice delta :
  json_str <> "" ->
  json_loads json_str = ok chunk ->
  getitem chunk "choices" = ok choices ->
  getitem0 choices = ok first_choice ->
  getitem first_choice "delta" = ok (JDict delta) ->
  delta <> [] ->
  dict_lookup "content" delta = None ->
  GroqToolModel.stream_chunk json_loads json_str s c
  = mkOutcome (err (KeyError "content")) c [].
Proof.
  intros Hline Hloads Hchoices Hfirst Hdelta Hne Hcontent.
  unfold GroqToolModel.stream_chunk.
  apply String.eqb_neq in Hline. rewrite Hline. cbn [negb].
  rewrite Hloads, bind_lift_ok, Hchoices, bind_lift_ok, Hfirst, bind_lift_ok,
    Hdelta, bind_lift_ok.
  cbn [truthy]. rewrite bool_decide_eq_false_2 by exact Hne. cbn [negb].
  unfold getitem. rewrite Hcontent. reflexivity.
Qed.

Lemma groq_stream_lines_abort json_loads before after line s text c e :
  result (GroqToolModel.stream_lines json_loads before s c) = ok text ->
  GroqToolModel.stream_chunk json_loads (str_replace "data: " "" line) text c
  = mkOutcome (err e) c [] ->
  GroqToolModel.is_JSONDecodeError e = false ->
  GroqToolModel.stream_lines json_loads (before ++ line :: after) s c
  = mkOutcome (err e) c (yielded (GroqToolModel.stream_lines json_loads before s c)).
Proof.
  intros Hbefore Hchunk Hother.
  rewrite groq_stream_lines_app.
  destruct (groq_stream_lines_collect json_loads before s c) as [Hf _].
  rewrite (bind_ok _ _ c text) by exact Hbefore.
  rewrite Hf, groq_stream_lines_cons. cbv zeta. rewrite Hchunk.
  cbn [result final yielded err]. rewrite Hother. cbn [result final yielded].
  rewrite app_nil_r. reflexivity.
Qed.

(** The handler around a line of the Groq stream catches a decoding
    error only.  When the first response is processed without an
    exception, the lines before some line of the second response are read
    without one, and that line decodes to a chunk whose delta is a
    non-empty object without [content], [stream] raises the [KeyError] of
    the missing key: the fragments of the earlier lines have been yielded,
    the later lines are not read, and no final assistant message is
    appended. *)
Theorem groq_stream_aborts_on_delta_without_content
    (json_loads : string -> Result json) (json_dumps : json -> string)
    (convert : Tool -> json) (self : GroqToolModel.t) (net : Network)
    (toolkit : option Toolkit) (tool_choice : option string) (temperature : float)
    (max_tokens : Z) (c c' : Conversation) (tool_response : json)
    (before after : list string) (line : string) (text : string)
    (chunk choices first_choice : json) (delta : list (string * json)) :
  let request_data :=
    GroqToolModel.first_request convert self toolkit tool_choice temperature
      max_tokens c in
  post net (GroqToolModel._api_url self) (GroqToolModel._headers self)
    (JDict request_data) = ok tool_response ->
  result (GroqToolModel.process_response (W := json) json_loads json_dumps toolkit
            tool_response c) = ok tt ->
  final (GroqToolModel.process_response (W := json) json_loads json_dumps toolkit
           tool_response c) = c' ->
  post_stream net (GroqToolModel._api_url self) (GroqToolModel._headers self)
    (JDict (GroqToolModel.second_request request_data c'))
  = ok (before ++ line :: after) ->
  result (GroqToolModel.stream_lines json_loads before "" c') = ok text ->
  str_replace "data: " "" line <> "" ->
  json_loads (str_replace "data: " "" line) = ok chunk ->
  getitem chunk "choices" = ok choices ->
  getitem0 choices = ok first_choice ->
  getitem first_choice "delta" = ok (JDict delta) ->
  delta <> [] ->
  dict_lookup "content" delta = None ->
  GroqToolModel.stream json_loads json_dumps convert self net
    toolkit tool_choice temperature max_tokens c
  = mkOutcome (err (KeyError "content")) c'
      (yielded (GroqToolModel.stream_lines json_loads before "" c')).
Proof.
  intros request_data Hpost Hres Hfin Hstream Hbefore Hline Hloads Hchoices Hfirst
    Hdelta Hne Hcontent.
  subst request_data. unfold GroqToolModel.stream. rewrite bind_read. cbv zeta.
  rewrite Hpost, bind_lift_ok.
  destruct (process_response_appends (W := json) json_loads json_dumps toolkit
              tool_response c) as [Hy _].
  rewrite (bind_ok _ _ c tt) by exact Hres. rewrite Hy, Hfin.
  cbn [result final yielded app]. rewrite bind_read, Hstream, bind_lift_ok.
  pose proof (groq_stream_lines_abort json_loads before after line "" text c' _ Hbefore
                (groq_stream_chunk_without_content json_loads _ text c' chunk choices
                   first_choice delta Hline Hloads Hchoices Hfirst Hdelta Hne Hcontent)
                eq_refl) as Hlines.
  rewrite (bind_raise_outcome _ _ _ _ _ _ Hlines). reflexivity.
Qed.

Lemma groq_stream_aborts_on_delta_without_content_witness :
  GroqToolModel.stream loads_delta dumps_int (fun _ => JNull) groq_self
    (replies_with (response_with [("role", JStr "assistant")])
       [delta_event "Hel"; delta_event "role"; delta_event "lo"])
    None None 0.5%float 1024 asked_once
  = mkOutcome (err (KeyError "content")) asked_once [JStr "Hel"].
Proof.
  refine (groq_stream_aborts_on_delta_without_content loads_delta dumps_int
            (fun _ => JNull) groq_self
            (replies_with (response_with [("role", JStr "assistant")])
               [delta_event "Hel"; delta_event "role"; delta_event "lo"])
            None None 0.5%float 1024 asked_once asked_once
            (response_with [("role", JStr "assistant")])
            [delta_event "Hel"] [delta_event "lo"] (delta_event "role") "Hel"
            (JDict [("choices",
                     JList [JDict [("delta", JDict [("role", JStr "assistant")])]])])
            (JList [JDict [("delta", JDict [("role", JStr "assistant")])]])
            (JDict [("delta", JDict [("role", JStr "assistant")])])
            [("role", JStr "assistant")]
            eq_refl eq_refl eq_refl eq_refl eq_refl _ eq_refl eq_refl eq_refl eq_refl
            _ eq_refl); discriminate.
Defined.

(** ** The second request of a Groq stream *)

Lemma dict_lookup_pop k d : dict_lookup k (GroqToolModel.dict_pop k d) = None.
Proof.
  induction d as [|[k' v] d IH]; [reflexivity|].
  cbn [GroqToolModel.dict_pop]. destruct (String.eqb k k') eqn:E; [exact IH|].
  cbn [dict_lookup]. rewrite E. exact IH.
Qed.

Lemma dict_lookup_pop_ne k k' d :
  k <> k' -> dict_lookup k' (GroqToolModel.dict_pop k d) = dict_lookup k' d.
Proof.
  intros Hne. induction d as [|[k0 v] d IH]; [reflexivity|].
  cbn [GroqToolModel.dict_pop dict_lookup].
  destruct (String.eqb k k0) eqn:E.
  - apply String.eqb_eq in E. subst k0.
    assert (E' : String.eqb k' k = false) by (apply String.eqb_neq; congruence).
    rewrite E'. exact IH.
  - cbn [dict_lookup]. destruct (String.eqb k' k0); [reflexivity|exact IH].
Qed.

Lemma dict_lookup_set k v d : dict_lookup k (GroqToolModel.dict_set k v d) = Some v.
Proof.
  induction d as [|[k' v'] d IH].
  - cbn. rewrite String.eqb_refl. reflexivity.
  - cbn [GroqToolModel.dict_set]. destruct (String.eqb k k') eqn:E.
    + cbn [dict_lookup]. rewrite String.eqb_refl. reflexivity.
    + cbn [dict_lookup]. rewrite E. exact IH.
Qed.

Lemma dict_lookup_set_ne k k' v d :
  k <> k' -> dict_lookup k' (GroqToolModel.dict_set k v d) = dict_lookup k' d.
Proof.
  intros Hne.
  assert (E' : String.eqb k' k = false) by (apply String.eqb_neq; congruence).
  induction d as [|[k0 v0] d IH].
  - cbn. rewrite E'. reflexivity.
  - cbn [GroqToolModel.dict_set]. destruct (String.eqb k k0) eqn:E.
    + apply String.eqb_eq in E. subst k0. cbn [dict_lookup]. rewrite E'. reflexivity.
    + cbn [dict_lookup]. destruct (String.eqb k' k0); [reflexivity|exact IH].
Qed.

(** Whatever the first request of [stream] held, the second one has no
    [tools] and no [tool_choice], asks for a stream, carries the messages
    of the conversation as it is after the tool calls, and is the first
    request in every other key; and the messages of a conversation that
    was extended are the messages it had, followed by those of the
    messages added, so that the second request repeats the first and adds
    the assistant and tool messages. *)
Theorem groq_second_request_drops_tools
    (request_data : list (string * json)) (c : Conversation) :
  let r := GroqToolModel.second_request request_data c in
  dict_lookup "tools" r = None
  /\ dict_lookup "tool_choice" r = None
  /\ dict_lookup "stream" r = Some (JBool true)
  /\ dict_lookup "messages" r = Some (JList (GroqToolModel._format_messages (history c)))
  /\ (forall k,
        k <> "tools" -> k <> "tool_choice" -> k <> "stream" -> k <> "messages" ->
        dict_lookup k r = dict_lookup k request_data)
  /\ (forall ms,
        GroqToolModel._format_messages (history (extend c ms))
        = GroqToolModel._format_messages (history c) ++ map model_dump ms).
Proof.
  intros r. subst r. unfold GroqToolModel.second_request.
  split; [|split; [|split; [|split; [|split]]]].
  - rewrite dict_lookup_pop_ne by discriminate. apply dict_lookup_pop.
  - apply dict_lookup_pop.
  - rewrite !dict_lookup_pop_ne by discriminate. apply dict_lookup_set.
  - rewrite !dict_lookup_pop_ne by discriminate.
    rewrite dict_lookup_set_ne by discriminate. apply dict_lookup_set.
  - intros k H1 H2 H3 H4.
    rewrite !dict_lookup_pop_ne by congruence.
    rewrite !dict_lookup_set_ne by congruence. reflexivity.
  - intros ms. unfold GroqToolModel._format_messages, extend. cbn [history].
    apply map_app.
Qed.

Lemma groq_second_request_drops_tools_witness :
  dict_lookup "model"
    (GroqToolModel.second_request
       (GroqToolModel.first_request (fun _ => JNull) groq_self (Some add_toolkit)
          None 0.5%float 1024 asked_once)
       asked_after_a_turn)
  = Some (JStr "llama3-groq-70b-8192-tool-use-preview").
Proof.
  rewrite (proj1 (proj2 (proj2 (proj2 (proj2
            (groq_second_request_drops_tools
               (GroqToolModel.first_request (fun _ => JNull) groq_self
                  (Some add_toolkit) None 0.5%float 1024 asked_once)
               asked_after_a_turn))))) "model")
    by discriminate.
  reflexivity.
Defined.

(** ** The request of the asynchronous Cohere stream *)

(** [astream] of the Cohere adapter sends the request that [stream]
    sends, except when the conversation has no non-empty human message
    and its last message has no content: [stream] then sends the empty
    text as message and [astream] sends [null]. *)
Theorem cohere_astream_request
    (self : CohereModel.t) (temperature : float) (max_tokens : Z) (c : Conversation) :
  let null_message :=
    str_truthy (latest "human" (history c) None) = false
    /\ exists m, last (history c) = Some m /\ content m = None in
  (~ null_message ->
     CohereModel.astream_payload_of self temperature max_tokens c
     = CohereModel.payload_of self temperature max_tokens true c)
  /\ (null_message ->
        getitem (CohereModel.astream_payload_of self temperature max_tokens c) "message"
        = ok JNull
        /\ getitem (CohereModel.payload_of self temperature max_tokens true c) "message"
           = ok (JStr "")).
Proof.
  intros null_message. subst null_message.
  rewrite cohere_payload_unfold.
  unfold CohereModel.astream_payload_of, CohereModel._format_messages.
  rewrite format_loop_empty. cbv zeta. cbn [filter map andb].
  destruct (str_truthy (latest "human" (history c) None)) eqn:Huser.
  - split.
    + intros _. rewrite Huser. reflexivity.
    + intros [Hfalse _]. discriminate.
  - destruct (last (history c)) as [m|] eqn:Hlast.
    + destruct (content m) as [text|] eqn:Hcontent.
      * split.
        -- intros _. destruct (str_truthy (Some text)) eqn:Ht; cbn [negb].
           ++ reflexivity.
           ++ unfold str_truthy in Ht. apply negb_false_iff, String.eqb_eq in Ht.
              subst text. reflexivity.
        -- intros (_ & m' & Hm' & Hnone). injection Hm' as <-. congruence.
      * split.
        -- intros Hnot. exfalso. apply Hnot. split; [reflexivity|]. exists m. split; [reflexivity|exact Hcontent].
        -- intros _. split; reflexivity.
    + split.
      * intros _. reflexivity.
      * intros (_ & m' & Hm' & _). discriminate.
Qed.

Lemma cohere_astream_request_witness :
  getitem (CohereModel.astream_payload_of cohere_self 0.5%float 256 only_tool_calls)
    "message" = ok JNull
  /\ getitem (CohereModel.payload_of cohere_self 0.5%float 256 true only_tool_calls)
       "message" = ok (JStr "").
Proof.
  apply (proj2 (cohere_astream_request cohere_self 0.5%float 256 only_tool_calls)).
  split; [reflexivity|]. eexists. split; reflexivity.
Defined.

(** ** The two requests of a Groq stream *)

(** The first request of [stream] is the request of [predict] whenever
    the toolkit passed is truthy (it has a tool) or [tool_choice] is not
    empty.  With no toolkit, or one without tools, and a [tool_choice]
    that is absent or empty, [predict] sends [tool_choice] as it was
    given and [stream] sends [auto], with an empty list of tools. *)
Theorem groq_stream_first_request
    (convert : Tool -> json) (self : GroqToolModel.t) (toolkit : option Toolkit)
    (tool_choice : option string) (temperature : float) (max_tokens : Z)
    (c : Conversation) :
  let first :=
    JDict (GroqToolModel.first_request convert self toolkit tool_choice
             temperature max_tokens c) in
  let single :=
    GroqToolModel.payload_of convert self toolkit tool_choice temperature max_tokens c in
  (toolkit_truthy toolkit = true \/ str_truthy tool_choice = true -> first = single)
  /\ (toolkit_truthy toolkit = false -> str_truthy tool_choice = false ->
        getitem first "tool_choice" = ok (JStr "auto")
        /\ getitem single "tool_choice" = ok (opt_json tool_choice)
        /\ getitem first "tools" = ok (JList [])).
Proof.
  intros first single. subst first single.
  unfold GroqToolModel.first_request, GroqToolModel.payload_of.
  split.
  - intros Htruthy.
    destruct (toolkit_truthy toolkit) eqn:Htk;
      destruct (str_truthy tool_choice) eqn:Htc; cbn [andb negb].
    + destruct tool_choice as [s|]; [reflexivity|discriminate].
    + reflexivity.
    + destruct tool_choice as [s|]; [reflexivity|discriminate].
    + destruct Htruthy; discriminate.
  - intros Htk Htc. rewrite Htk, Htc. cbn [andb].
    destruct toolkit; repeat split; reflexivity.
Qed.

Lemma groq_stream_first_request_witness :
  getitem (JDict (GroqToolModel.first_request (fun _ => JNull) groq_self None None
                    0.5%float 1024 asked_once)) "tool_choice"
  = ok (JStr "auto")
  /\ getitem (GroqToolModel.payload_of (fun _ => JNull) groq_self None None
                0.5%float 1024 asked_once) "tool_choice"
     = ok JNull.
Proof.
  destruct (proj2 (groq_stream_first_request (fun _ => JNull) groq_self None None
                     0.5%float 1024 asked_once) eq_refl eq_refl) as (H1 & H2 & _).
  split; [exact H1|exact H2].
Defined.

(** When the first response of [stream] carries content and no tool
    call, and the second response is read to its end, the conversation
    gets two assistant messages: the one of the first response, which is
    also sent back in the second request, and then the one put together
    from the streamed fragments. *)
Theorem groq_stream_appends_both_answers
    (json_loads : string -> Result json) (json_dumps : json -> string)
    (convert : Tool -> json) (self : GroqToolModel.t) (net : Network)
    (toolkit : option Toolkit) (tool_choice : option string) (temperature : float)
    (max_tokens : Z) (c : Conversation) (tool_response : json)
    (fields : list (string * json)) (pre : list Message)
    (lines : list string) (text : string) :
  let request_data :=
    GroqToolModel.first_request convert self toolkit tool_choice temperature
      max_tokens c in
  post net (GroqToolModel._api_url self) (GroqToolModel._headers self)
    (JDict request_data) = ok tool_response ->
  message_of tool_response = ok (JDict fields) ->
  no_tool_calls fields ->
  content_messages fields = ok pre ->
  post_stream net (GroqToolModel._api_url self) (GroqToolModel._headers self)
    (JDict (GroqToolModel.second_request request_data (extend c pre))) = ok lines ->
  result (GroqToolModel.stream_lines json_loads lines "" (extend c pre)) = ok text ->
  GroqToolModel.stream json_loads json_dumps convert self net
    toolkit tool_choice temperature max_tokens c
  = mkOutcome (ok tt)
      (extend c (pre ++ [mkMessage "assistant" (Some text) None None None]))
      (yielded (GroqToolModel.stream_lines json_loads lines "" (extend c pre)))
  /\ dict_lookup "messages" (GroqToolModel.second_request request_data (extend c pre))
     = Some (JList (GroqToolModel._format_messages (history c) ++ map model_dump pre)).
Proof.
  intros request_data Hpost Hmsg Hno Hpre Hstream Hlines. subst request_data.
  split.
  - unfold GroqToolModel.stream. rewrite bind_read. cbv zeta.
    rewrite Hpost, bind_lift_ok.
    rewrite (bind_ok _ _ c tt);
      rewrite (process_response_phases _ _ _ _ _ _ _ Hmsg Hpre),
        (tool_phase_no_tool_calls _ _ _ _ _ Hno); [|reflexivity].
    cbn [result final yielded app]. rewrite bind_read, Hstream, bind_lift_ok.
    destruct (groq_stream_lines_collect json_loads lines "" (extend c pre)) as [Hf _].
    rewrite (bind_ok _ _ _ text) by exact Hlines. rewrite Hf.
    cbn [AgentMessage]. rewrite bind_lift_ok.
    unfold conversation_add_message, modify. cbn [result final yielded].
    rewrite app_nil_r, add_message_extend, extend_extend. reflexivity.
  - unfold GroqToolModel.second_request.
    rewrite !dict_lookup_pop_ne by discriminate.
    rewrite dict_lookup_set_ne by discriminate. rewrite dict_lookup_set.
    unfold GroqToolModel._format_messages, extend. cbn [history].
    rewrite map_app. reflexivity.
Qed.

Lemma groq_stream_appends_both_answers_witness :
  GroqToolModel.stream loads_delta dumps_int (fun _ => JNull) groq_self
    (replies_with (response_with [("content", JStr "Hello")])
       [delta_event "Hel"; delta_event "lo"])
    None None 0.5%float 1024 asked_once
  = mkOutcome (ok tt)
      (mkConversation
         [human "and Italy?";
          mkMessage "assistant" (Some "Hello") None None None;
          mkMessage "assistant" (Some "Hello") None None None])
      [JStr "Hel"; JStr "lo"].
Proof.
  exact (proj1 (groq_stream_appends_both_answers loads_delta dumps_int (fun _ => JNull)
                  groq_self
                  (replies_with (response_with [("content", JStr "Hello")])
                     [delta_event "Hel"; delta_event "lo"])
                  None None 0.5%float 1024 asked_once
                  (response_with [("content", JStr "Hello")])
                  [("content", JStr "Hello")]
                  [mkMessage "assistant" (Some "Hello") None None None]
                  [delta_event "Hel"; delta_event "lo"] "Hello"
                  eq_refl eq_refl I eq_refl eq_refl eq_refl)).
Defined.
